(** * system_monitor.py: the sensor parser and the channel history store

    A shallow embedding of [SensorData] (parsing of the [sensors] text and the
    bounded per-channel histories) and of the two data computations of
    [SystemMonitor] that consume it (the left-padded series of [_update_plot]
    and the percentage of [_update_fan_indicators]).

    Modelling conventions.
    - A Python [str] is a list of code points.  The model covers texts whose
      code points are below 256, one [ascii] each; the degree sign of the
      patterns is code point 176.  On that range [\d] is [0-9], [\s] and
      [str.strip] use the code points for which [str.isspace] holds, and
      [str.lower] is the Latin-1 lower-casing.
    - [float(...)] of a captured decimal and the division of
      [_update_fan_indicators] are computed in exact rational arithmetic
      ([Q], kept in lowest terms); binary rounding is not modelled.  An
      [int / int] whose quotient is beyond the floats raises
      [OverflowError].
    - [int(...)] is unbounded but raises [ValueError] on a text of more
      than 4300 digits, the limit of [sys.get_int_max_str_digits()] unless
      it was set otherwise.
    - The transient dictionaries that are iterated ([cpu_temps], ...) are
      insertion-ordered association lists; the dictionaries that are only
      looked up and extended ([..._history], [max_fan_speeds]) are [gmap]s.
    - [print] and the drawing calls are not part of the state. *)

From Stdlib Require Import Ascii String ZArith QArith Qminmax.
From stdpp Require Import gmap strings list fin_maps.

Local Open Scope bool_scope.
Local Open Scope list_scope.

(** ** Exceptions *)

(** The exceptions that the calls of the model can raise; all are of class
    [Exception]. *)
Inductive exn :=
| CalledProcessError   (* [sensors] ended with a non-zero status *)
| FileNotFoundError    (* no [sensors] program *)
| OSError
| IndexError
| ZeroDivisionError
| ValueError           (* [int] of too long a text; [ax.plot] of two series
                          of different lengths *)
| OverflowError.       (* an [int / int] beyond the floats *)

Inductive outcome (A : Type) := Ok (a : A) | Raise (e : exn).
Arguments Ok {A} _.
Arguments Raise {A} _.

(** ** Text *)

Abbreviation str := (list ascii).

Definition L (s : string) : str := list_ascii_of_string s.

Module Text.

Definition code (c : ascii) : N := N_of_ascii c.

(** The degree sign, U+00B0. *)
Definition deg : ascii := ascii_of_N 176.

(** [\d] *)
Definition is_digit (c : ascii) : bool :=
  ((48 <=? code c) && (code c <=? 57))%N.

(** [\s], and the characters removed by [str.strip()]. *)
Definition is_space (c : ascii) : bool :=
  let n := code c in
  (((9 <=? n) && (n <=? 13)) || ((28 <=? n) && (n <=? 31))
   || (n =? 32) || (n =? 133) || (n =? 160))%N.

(** The line boundaries of [str.splitlines()]. *)
Definition is_linebreak (c : ascii) : bool :=
  let n := code c in
  (((10 <=? n) && (n <=? 13)) || ((28 <=? n) && (n <=? 30)) || (n =? 133))%N.

Definition is_cr (c : ascii) : bool := (code c =? 13)%N.
Definition is_lf (c : ascii) : bool := (code c =? 10)%N.

Definition lower_char (c : ascii) : ascii :=
  let n := code c in
  if (((65 <=? n) && (n <=? 90))
      || ((192 <=? n) && (n <=? 222) && negb (n =? 215)))%N
  then ascii_of_N (n + 32) else c.

(** [s.lower()] *)
Definition lower (s : str) : str := map lower_char s.

Definition eqb_char (a b : ascii) : bool := Ascii.eqb a b.

(** [s.startswith(p)], returning the rest of [s] when it holds. *)
Fixpoint strip_prefix (p s : str) : option str :=
  match p with
  | [] => Some s
  | a :: p' =>
      match s with
      | [] => None
      | b :: s' => if eqb_char a b then strip_prefix p' s' else None
      end
  end.

Definition starts_with (p s : str) : bool :=
  match strip_prefix p s with Some _ => true | None => false end.

(** [sub in s] *)
Fixpoint contains (sub s : str) : bool :=
  starts_with sub s ||
  match s with
  | [] => false
  | _ :: s' => contains sub s'
  end.

Fixpoint lstrip (s : str) : str :=
  match s with
  | [] => []
  | c :: s' => if is_space c then lstrip s' else s
  end.

Fixpoint rstrip (s : str) : str :=
  match s with
  | [] => []
  | c :: s' =>
      match rstrip s' with
      | [] => if is_space c then [] else [c]
      | t => c :: t
      end
  end.

(** [s.strip()] *)
Definition strip (s : str) : str := rstrip (lstrip s).

(** [s.split(sep, 1)] for a one-character separator. *)
Fixpoint split_once (sep : ascii) (s : str) : list str :=
  match s with
  | [] => [[]]
  | c :: s' =>
      if eqb_char sep c then [[]; s']
      else match split_once sep s' with
           | h :: t => (c :: h) :: t
           | [] => [[c]]
           end
  end.

(** [s.splitlines()]: [cur] is the line being read, in reverse; [after_cr]
    says that the previous character was a carriage return, so that a line
    feed now belongs to the same boundary. *)
Fixpoint splitlines_from (cur : str) (after_cr : bool) (s : str) : list str :=
  match s with
  | [] => match cur with [] => [] | _ => [rev cur] end
  | c :: s' =>
      if after_cr && is_lf c then splitlines_from cur false s'
      else if is_linebreak c then rev cur :: splitlines_from [] (is_cr c) s'
      else splitlines_from (c :: cur) false s'
  end.

Definition splitlines (s : str) : list str := splitlines_from [] false s.

Definition digit_val (c : ascii) : Z := Z.of_N (code c) - 48.

Definition int_of_digits (s : str) : Z :=
  fold_left (fun acc c => acc * 10 + digit_val c)%Z s 0%Z.

(** The most digits that [int(s)] takes: the default of
    [sys.get_int_max_str_digits()]. *)
Definition int_max_str_digits : nat := 4300.

(** [int(s)] on a string of digits: [ValueError] when the string has more
    digits than the limit, leading zeros counted. *)
Definition py_int (s : str) : outcome Z :=
  if (int_max_str_digits <? length s)%nat then Raise ValueError
  else Ok (int_of_digits s).
Arguments py_int : simpl never.

(** [float(s)] on a string matched by [\d+\.\d+] (or by [\d+]): the exact
    decimal value, in lowest terms. *)
Definition py_float (s : str) : Q :=
  match split_once "." s with
  | [ip; fp] =>
      Qred (Qmake (int_of_digits (ip ++ fp))
                  (Z.to_pos (10 ^ Z.of_nat (length fp))))
  | _ => inject_Z (int_of_digits s)
  end.

End Text.

Import Text.

(** ** Regular expressions

    The fragment of [re] that the five patterns of the parser use, with the
    backtracking semantics of [re]: greedy quantifiers, leftmost match. *)

Module Re.

Inductive cclass := Digit | Space.

Definition in_class (cl : cclass) (c : ascii) : bool :=
  match cl with Digit => is_digit c | Space => is_space c end.

Inductive regex :=
| Lit (l : str)                  (* literal text *)
| Plus (cl : cclass)             (* [\d+], [\s+] *)
| Seq (r1 r2 : regex)
| Group (i : nat) (r : regex)    (* capturing group number [i+1] *)
| Opt (r : regex).               (* [(?:r)?] *)

(** [m.groups()]: for each group its text, or [None] when the group did not
    take part in the match. *)
Abbreviation groups := (list (option str)).

(** The text between position [s] and the later position [s']. *)
Definition consumed (s s' : str) : str := take (length s - length s') s.

(** Greedy [cl*] then [k]: the longest run first, one character given back at
    a time while the continuation fails. *)
Fixpoint star_then {A} (p : ascii -> bool) (s : str) (k : str -> option A)
  : option A :=
  match s with
  | c :: s' =>
      if p c then
        match star_then p s' k with
        | Some r => Some r
        | None => k s
        end
      else k s
  | [] => k s
  end.

Definition plus_then {A} (p : ascii -> bool) (s : str) (k : str -> option A)
  : option A :=
  match s with
  | c :: s' => if p c then star_then p s' k else None
  | [] => None
  end.

(** Match [r] at the start of [s], then run the continuation [k] on what is
    left; a failing continuation makes the matcher try its next choice. *)
Fixpoint rmatch {A} (r : regex) (s : str) (g : groups)
    (k : str -> groups -> option A) : option A :=
  match r with
  | Lit l =>
      match strip_prefix l s with
      | Some s' => k s' g
      | None => None
      end
  | Plus cl => plus_then (in_class cl) s (fun s' => k s' g)
  | Seq r1 r2 => rmatch r1 s g (fun s' g' => rmatch r2 s' g' k)
  | Group i r =>
      rmatch r s g (fun s' g' => k s' (<[i := Some (consumed s s')]> g'))
  | Opt r =>
      match rmatch r s g k with
      | Some x => Some x
      | None => k s g
      end
  end.

Definition match_at (n : nat) (r : regex) (s : str) : option groups :=
  rmatch r s (replicate n None) (fun _ g => Some g).

(** [re.search(r, s)] for a pattern with [n] groups: the first position, from
    the left, at which the pattern matches. *)
Fixpoint search (n : nat) (r : regex) (s : str) : option groups :=
  match match_at n r s with
  | Some g => Some g
  | None =>
      match s with
      | [] => None
      | _ :: s' => search n r s'
      end
  end.

Fixpoint seq_of (rs : list regex) : regex :=
  match rs with
  | [] => Lit []
  | [r] => r
  | r :: rs' => Seq r (seq_of rs')
  end.

End Re.

Import Re.

(** ** The patterns of [_parse_sensors_output] *)

Definition degC : str := [deg; "C"%char].

(** [\+(\d+\.\d+)°C], the temperature part shared by four patterns; [i] is
    the index of its group. *)
Definition celsius (i : nat) : list regex :=
  [Lit (L "+"); Group i (seq_of [Plus Digit; Lit (L "."); Plus Digit]);
   Lit degC].

(** [(Core \d+):\s+\+(\d+\.\d+)°C] *)
Definition core_re : regex :=
  seq_of ([Group 0 (seq_of [Lit (L "Core "); Plus Digit]); Lit (L ":");
           Plus Space] ++ celsius 1).

(** [(Package id \d+):\s+\+(\d+\.\d+)°C] *)
Definition package_re : regex :=
  seq_of ([Group 0 (seq_of [Lit (L "Package id "); Plus Digit]); Lit (L ":");
           Plus Space] ++ celsius 1).

(** [(fan\d+):\s+(\d+) RPM\s+(?:\(min\s+=\s+\d+ RPM,\s+max\s+=\s+(\d+) RPM\))?] *)
Definition fan_re : regex :=
  seq_of [Group 0 (seq_of [Lit (L "fan"); Plus Digit]); Lit (L ":");
          Plus Space; Group 1 (Plus Digit); Lit (L " RPM"); Plus Space;
          Opt (seq_of [Lit (L "(min"); Plus Space; Lit (L "="); Plus Space;
                       Plus Digit; Lit (L " RPM,"); Plus Space;
                       Lit (L "max"); Plus Space; Lit (L "="); Plus Space;
                       Group 2 (Plus Digit); Lit (L " RPM)")])].

(** [Composite:\s+\+(\d+\.\d+)°C] *)
Definition composite_re : regex :=
  seq_of ([Lit (L "Composite:"); Plus Space] ++ celsius 0).

(** [(temp\d+):\s+\+(\d+\.\d+)°C] *)
Definition temp_re : regex :=
  seq_of ([Group 0 (seq_of [Lit (L "temp"); Plus Digit]); Lit (L ":");
           Plus Space] ++ celsius 1).

(** ** Dictionaries that are iterated: insertion-ordered association lists *)

Abbreviation dict V := (list (str * V)).

Module Dict.
Section dict.
Context {V : Type}.

(** [d.get(k)] *)
Fixpoint get (d : dict V) (k : str) : option V :=
  match d with
  | [] => None
  | (k', v) :: d' => if decide (k' = k) then Some v else get d' k
  end.

(** [d[k] = v]: the value is replaced where the key stands, a new key goes
    to the end. *)
Fixpoint set (d : dict V) (k : str) (v : V) : dict V :=
  match d with
  | [] => [(k, v)]
  | (k', v') :: d' =>
      if decide (k' = k) then (k', v) :: d' else (k', v') :: set d' k v
  end.

Definition keys (d : dict V) : list str := map fst d.
End dict.
End Dict.

(** ** [collections.deque(maxlen=n)] *)

Record deque (V : Type) := Deque { maxlen : nat; items : list V }.
Arguments Deque {V} _ _.
Arguments maxlen {V} _.
Arguments items {V} _.

Definition new_deque {V} (n : nat) : deque V := Deque n [].

(** [d.append(v)]: a full deque drops its oldest item. *)
Definition deque_append {V} (d : deque V) (v : V) : deque V :=
  if (maxlen d =? 0)%nat then d
  else if (length (items d) <? maxlen d)%nat
       then Deque (maxlen d) (items d ++ [v])
       else Deque (maxlen d) (tail (items d) ++ [v]).

(** ** [class SensorData] *)

Record SensorData := mkSensorData {
  cpu_temps : dict Q;
  fan_speeds : dict Z;
  storage_temps : dict Q;
  other_temps : dict Q;
  max_data_points : nat;
  cpu_temp_history : gmap str (deque Q);
  fan_speed_history : gmap str (deque Z);
  storage_temp_history : gmap str (deque Q);
  other_temp_history : gmap str (deque Q);
  max_fan_speeds : gmap str Z
}.

(** [SensorData.__init__] *)
Definition init : SensorData :=
  {| cpu_temps := []; fan_speeds := []; storage_temps := [];
     other_temps := []; max_data_points := 60;
     cpu_temp_history := ∅; fan_speed_history := ∅;
     storage_temp_history := ∅; other_temp_history := ∅;
     max_fan_speeds := ∅ |}.

(** *** Methods: state and exceptions *)

(** A method of [SensorData]: it may change the object and it either returns
    or raises; what it changed before raising stays changed. *)
Definition M (A : Type) : Type := SensorData -> SensorData * outcome A.

Definition ret {A} (a : A) : M A := fun st => (st, Ok a).

Definition bind {A B} (m : M A) (f : A -> M B) : M B :=
  fun st =>
    match m st with
    | (st', Ok a) => f a st'
    | (st', Raise e) => (st', Raise e)
    end.

Definition lift {A} (o : outcome A) : M A := fun st => (st, o).

Definition modify (f : SensorData -> SensorData) : M unit :=
  fun st => (f st, Ok tt).

(** [try: m  except Exception as e: h e] *)
Definition try_except {A} (m : M A) (h : exn -> M A) : M A :=
  fun st =>
    match m st with
    | (st', Ok a) => (st', Ok a)
    | (st', Raise e) => h e st'
    end.

#[global] Instance M_ret : MRet M := @ret.
#[global] Instance M_bind : MBind M := fun A B f m => bind m f.

(** *** The parser *)

Definition set_cpu_temps (d : dict Q) (st : SensorData) : SensorData :=
  {| cpu_temps := d; fan_speeds := fan_speeds st;
     storage_temps := storage_temps st; other_temps := other_temps st;
     max_data_points := max_data_points st;
     cpu_temp_history := cpu_temp_history st;
     fan_speed_history := fan_speed_history st;
     storage_temp_history := storage_temp_history st;
     other_temp_history := other_temp_history st;
     max_fan_speeds := max_fan_speeds st |}.

Definition set_fan_speeds (d : dict Z) (st : SensorData) : SensorData :=
  {| cpu_temps := cpu_temps st; fan_speeds := d;
     storage_temps := storage_temps st; other_temps := other_temps st;
     max_data_points := max_data_points st;
     cpu_temp_history := cpu_temp_history st;
     fan_speed_history := fan_speed_history st;
     storage_temp_history := storage_temp_history st;
     other_temp_history := other_temp_history st;
     max_fan_speeds := max_fan_speeds st |}.

Definition set_storage_temps (d : dict Q) (st : SensorData) : SensorData :=
  {| cpu_temps := cpu_temps st; fan_speeds := fan_speeds st;
     storage_temps := d; other_temps := other_temps st;
     max_data_points := max_data_points st;
     cpu_temp_history := cpu_temp_history st;
     fan_speed_history := fan_speed_history st;
     storage_temp_history := storage_temp_history st;
     other_temp_history := other_temp_history st;
     max_fan_speeds := max_fan_speeds st |}.

Definition set_other_temps (d : dict Q) (st : SensorData) : SensorData :=
  {| cpu_temps := cpu_temps st; fan_speeds := fan_speeds st;
     storage_temps := storage_temps st; other_temps := d;
     max_data_points := max_data_points st;
     cpu_temp_history := cpu_temp_history st;
     fan_speed_history := fan_speed_history st;
     storage_temp_history := storage_temp_history st;
     other_temp_history := other_temp_history st;
     max_fan_speeds := max_fan_speeds st |}.

Definition set_max_fan_speeds (m : gmap str Z) (st : SensorData)
  : SensorData :=
  {| cpu_temps := cpu_temps st; fan_speeds := fan_speeds st;
     storage_temps := storage_temps st; other_temps := other_temps st;
     max_data_points := max_data_points st;
     cpu_temp_history := cpu_temp_history st;
     fan_speed_history := fan_speed_history st;
     storage_temp_history := storage_temp_history st;
     other_temp_history := other_temp_history st;
     max_fan_speeds := m |}.

(** The text of group [i+1] of a match; [None] when it did not take part. *)
Definition group (g : groups) (i : nat) : option str := mjoin (g !! i).

(** A group that every match of its pattern fills. *)
Definition group_text (g : groups) (i : nat) : str := default [] (group g i).

(** The default of line 112. *)
Definition default_max_fan_speed : Z := 4000.

(** The body of the loop of [_parse_sensors_output] on one line.  The result
    is the state and [current_adapter] after it, and whether the body
    completed or raised; what it stored before raising stays stored. *)
Definition read_line (acc : SensorData * str) (raw : str)
  : (SensorData * str) * outcome unit :=
  let '(st, current_adapter) := acc in
  let line := strip raw in
  match line with
  | [] => (acc, Ok tt)
  | _ =>
  if contains (L "Adapter:") line then
    match split_once ":" line with
    | p0 :: _ => ((st, strip p0), Ok tt)
    | [] => (acc, Ok tt)
    end
  else if contains (L "Core") line && contains degC line then
    match search 2 core_re line with
    | Some g =>
        ((set_cpu_temps
            (Dict.set (cpu_temps st) (group_text g 0)
                      (py_float (group_text g 1))) st,
          current_adapter), Ok tt)
    | None => (acc, Ok tt)
    end
  else if contains (L "Package id") line && contains degC line then
    match search 2 package_re line with
    | Some g =>
        ((set_cpu_temps
            (Dict.set (cpu_temps st) (group_text g 0)
                      (py_float (group_text g 1))) st,
          current_adapter), Ok tt)
    | None => (acc, Ok tt)
    end
  else if contains (L "fan") (lower line) && contains (L "RPM") line then
    match search 3 fan_re line with
    | Some g =>
        let fan := group_text g 0 in
        match py_int (group_text g 1) with
        | Raise e => (acc, Raise e)
        | Ok speed =>
            let st1 :=
              set_fan_speeds (Dict.set (fan_speeds st) fan speed) st in
            match group g 2 with
            | Some (c :: m) =>
                match py_int (c :: m) with
                | Raise e => ((st1, current_adapter), Raise e)
                | Ok max_speed =>
                    ((set_max_fan_speeds
                        (<[fan := max_speed]> (max_fan_speeds st1)) st1,
                      current_adapter), Ok tt)
                end
            | _ =>
                match max_fan_speeds st1 !! fan with
                | None =>
                    ((set_max_fan_speeds
                        (<[fan := default_max_fan_speed]>
                           (max_fan_speeds st1)) st1,
                      current_adapter), Ok tt)
                | Some _ => ((st1, current_adapter), Ok tt)
                end
            end
        end
    | None => (acc, Ok tt)
    end
  else if match current_adapter with [] => false | _ => true end
          && contains (L "nvme") (lower current_adapter)
          && contains (L "Composite") line && contains degC line then
    match search 1 composite_re line with
    | Some g =>
        ((set_storage_temps
            (Dict.set (storage_temps st) (L "NVMe")
                      (py_float (group_text g 0))) st,
          current_adapter), Ok tt)
    | None => (acc, Ok tt)
    end
  else if contains (L "temp") (lower line) && contains degC line
          && negb (contains (L "Core") line)
          && negb (contains (L "Package") line) then
    match search 2 temp_re line with
    | Some g =>
        ((set_other_temps
            (Dict.set (other_temps st)
                      (current_adapter ++ L "_" ++ group_text g 0)
                      (py_float (group_text g 1))) st,
          current_adapter), Ok tt)
    | None => (acc, Ok tt)
    end
  else (acc, Ok tt)
  end.

(** The state and [current_adapter] after the body of the loop on one line,
    whether it completed or raised. *)
Definition parse_line (acc : SensorData * str) (raw : str)
  : SensorData * str :=
  (read_line acc raw).1.

(** The loop of line 71: it ends at the first line on which the body
    raises. *)
Fixpoint read_lines (lines : list str) (acc : SensorData * str)
  : (SensorData * str) * outcome unit :=
  match lines with
  | [] => (acc, Ok tt)
  | raw :: rest =>
      match read_line acc raw with
      | (acc', Ok _) => read_lines rest acc'
      | (acc', Raise e) => (acc', Raise e)
      end
  end.

(** The four [clear()] calls. *)
Definition clear_current (st : SensorData) : SensorData :=
  set_other_temps [] (set_storage_temps [] (set_fan_speeds []
    (set_cpu_temps [] st))).

(** [SensorData._parse_sensors_output] as a method: it returns or raises,
    and leaves the object as it was where the loop stopped. *)
Definition parse_output (output : str) : M unit :=
  fun st =>
    let '(acc, r) :=
      read_lines (splitlines output) (clear_current st, L "unknown") in
    (acc.1, r).

(** The object after [_parse_sensors_output(output)], whether the method
    returned or raised. *)
Definition _parse_sensors_output (output : str) (st : SensorData)
  : SensorData :=
  (parse_output output st).1.

(** One turn of a loop of [_update_histories]: the deque of the key is
    created when the key is new, then the value is appended to it. *)
Definition append_history {V} (n : nat) (h : gmap str (deque V))
    (kv : str * V) : gmap str (deque V) :=
  let h1 := match h !! kv.1 with
            | None => <[kv.1 := new_deque n]> h
            | Some _ => h
            end in
  alter (fun d => deque_append d kv.2) kv.1 h1.

Definition update_history {V} (n : nat) (current : dict V)
    (h : gmap str (deque V)) : gmap str (deque V) :=
  fold_left (append_history n) current h.

Definition _update_histories (st : SensorData) : SensorData :=
  {| cpu_temps := cpu_temps st; fan_speeds := fan_speeds st;
     storage_temps := storage_temps st; other_temps := other_temps st;
     max_data_points := max_data_points st;
     cpu_temp_history :=
       update_history (max_data_points st) (cpu_temps st)
                      (cpu_temp_history st);
     fan_speed_history :=
       update_history (max_data_points st) (fan_speeds st)
                      (fan_speed_history st);
     storage_temp_history :=
       update_history (max_data_points st) (storage_temps st)
                      (storage_temp_history st);
     other_temp_history :=
       update_history (max_data_points st) (other_temps st)
                      (other_temp_history st);
     max_fan_speeds := max_fan_speeds st |}.

(** ** [SensorData.update] *)

(** [SensorData.update]; [sensors] is what
    [subprocess.check_output(['sensors'], ...)] does at this call. *)
Definition update (sensors : outcome str) : M bool :=
  try_except
    (output ← lift sensors;
     parse_output output;;
     modify _update_histories;;
     mret true)
    (fun _ => mret false).

(** The object after the call. *)
Definition tick (st : SensorData) (sensors : outcome str) : SensorData :=
  fst (update sensors st).

(** The object after a run of calls, one per entry. *)
Definition run (ticks : list (outcome str)) (st : SensorData) : SensorData :=
  fold_left tick ticks st.

(** ** [class SystemMonitor]: the data given to the drawing calls *)

(** Lines 357-361 of [_update_plot]: the series drawn for one deque. *)
Definition plot_data {V} (data_queue : deque V) : outcome (list V) :=
  let data := items data_queue in
  if (length data <? 60)%nat then
    match data with
    | [] => Raise IndexError
    | d0 :: _ => Ok (replicate (60 - length data) d0 ++ data)
    end
  else Ok data.

(** The least magnitude that is beyond the floats: a quotient of two [int]s
    from [2^1024 - 2^970] on rounds to [2^1024], which is no float, and the
    division raises [OverflowError]. *)
Definition float_overflow : Z := 2 ^ 1024 - 2 ^ 970.

(** Lines 294-295 of [_update_fan_indicators]: [speed / max_speed] raises
    on a divisor 0 and on a quotient beyond the floats. *)
Definition fan_percentage (st : SensorData) (fan : str) (speed : Z)
  : outcome Q :=
  let max_speed := default 4000%Z (max_fan_speeds st !! fan) in
  if (max_speed =? 0)%Z then Raise ZeroDivisionError
  else if (float_overflow * Z.abs max_speed <=? Z.abs speed)%Z
       then Raise OverflowError
  else Ok (Qmin 100 ((inject_Z speed / inject_Z max_speed) * 100)).

Fixpoint fan_indicators (st : SensorData) (fans : dict Z)
  : outcome (list (str * Z * Q)) :=
  match fans with
  | [] => Ok []
  | (fan, speed) :: rest =>
      match fan_percentage st fan speed with
      | Raise e => Raise e
      | Ok percentage =>
          match fan_indicators st rest with
          | Raise e => Raise e
          | Ok l => Ok ((fan, speed, percentage) :: l)
          end
      end
  end.

(** [_update_fan_indicators]: for each fan of the current snapshot, in
    order, its name, its speed and the percentage shown. *)
Definition _update_fan_indicators (st : SensorData)
  : outcome (list (str * Z * Q)) :=
  fan_indicators st (fan_speeds st).

(** ** Categories *)

Inductive Category :=
| CpuTemperature | FanSpeed | StorageTemperature | OtherTemperature.

(** Temperatures are [float]s, speeds are [int]s. *)
Definition value (c : Category) : Type :=
  match c with FanSpeed => Z | _ => Q end.

(** The dictionary of the current snapshot for a category. *)
Definition current (c : Category) (st : SensorData) : dict (value c) :=
  match c with
  | CpuTemperature => cpu_temps st
  | FanSpeed => fan_speeds st
  | StorageTemperature => storage_temps st
  | OtherTemperature => other_temps st
  end.

(** The history dictionary of a category. *)
Definition history (c : Category) (st : SensorData)
  : gmap str (deque (value c)) :=
  match c with
  | CpuTemperature => cpu_temp_history st
  | FanSpeed => fan_speed_history st
  | StorageTemperature => storage_temp_history st
  | OtherTemperature => other_temp_history st
  end.

(** What parsing [output] leaves in the dictionaries of the current
    snapshot. *)
Definition snapshot (output : str) : SensorData :=
  _parse_sensors_output output init.

(** The text is parsed to its end: no [int(...)] of the loop raises. *)
Definition parses (output : str) : bool :=
  match (parse_output output init).2 with
  | Ok _ => true
  | Raise _ => false
  end.

(** The value of channel [k] of category [c] at one call of [update], when
    the call got a text, parsed it to its end, and the text has the
    channel. *)
Definition sample (c : Category) (k : str) (t : outcome str)
  : option (value c) :=
  match t with
  | Ok output =>
      if parses output then Dict.get (current c (snapshot output)) k
      else None
  | Raise _ => None
  end.

(** The values appended for a channel over a run, oldest first. *)
Definition samples (c : Category) (k : str) (ticks : list (outcome str))
  : list (value c) :=
  omap (sample c k) ticks.

(** The last [n] elements of a list. *)
Definition last_n {A} (n : nat) (l : list A) : list A :=
  drop (length l - n) l.

(** * Vocabulary of the statements *)

(** ** Parts of the object, and runs *)

(** The part of the object that [_update_histories] reads and that the
    parser rebuilds at every call. *)
Definition currents (st : SensorData)
  : dict Q * dict Z * dict Q * dict Q :=
  (cpu_temps st, fan_speeds st, storage_temps st, other_temps st).

(** The part of the object that only [_update_histories] writes. *)
Definition histories (st : SensorData) :=
  (max_data_points st, cpu_temp_history st, fan_speed_history st,
   storage_temp_history st, other_temp_history st).

Definition currents_NoDup (st : SensorData) : Prop :=
  NoDup (Dict.keys (cpu_temps st)) ∧ NoDup (Dict.keys (fan_speeds st)) ∧
  NoDup (Dict.keys (storage_temps st)) ∧ NoDup (Dict.keys (other_temps st)).

(** The deque that holds the values [vs], all appended to it since it was
    created with [maxlen=n]; there is none before the first value. *)
Definition window {V} (n : nat) (vs : list V) : option (deque V) :=
  match vs with
  | [] => None
  | _ => Some (Deque n (last_n n vs))
  end.

(** The call brought no value for the channel. *)
Definition omits (c : Category) (k : str) (t : outcome str) : bool :=
  match sample c k t with
  | None => true
  | Some _ => false
  end.

(** ** The adapter context and the fan capacities *)

(** The text before the first [sep]; all of the text when it has none. *)
Fixpoint before (sep : ascii) (s : str) : str :=
  match s with
  | [] => []
  | c :: s' => if eqb_char sep c then [] else c :: before sep s'
  end.

(** The text before the first colon. *)
Definition before_colon (s : str) : str := before ":" s.

(** Line 115: the context names a storage controller. *)
Definition nvme_context (current_adapter : str) : bool :=
  match current_adapter with [] => false | _ => true end
  && contains (L "nvme") (lower current_adapter).

(** A line that has [Adapter:] has it at its start, as [sensors] prints
    it. *)
Definition standard_header (raw : str) : bool :=
  negb (contains (L "Adapter:") (strip raw))
  || starts_with (L "Adapter:") (strip raw).

Definition standard_context (a : str) : Prop :=
  a = L "unknown" ∨ a = L "Adapter".

(** The line is not read as a line of [fan] with a max-RPM clause. *)
Definition lacks_max_clause (fan : str) (raw : str) : bool :=
  match search 3 fan_re (strip raw) with
  | Some g =>
      match group g 2 with
      | Some (_ :: _) => negb (bool_decide (group_text g 0 = fan))
      | _ => true
      end
  | None => true
  end.

(** ** Shapes of lines *)

(** [s] does not go on with a character of the class. *)
Definition stops (p : ascii -> bool) (s : str) : bool :=
  match s with
  | [] => true
  | c :: _ => negb (p c)
  end.

(** The groups a pattern can write. *)
Fixpoint writes (r : regex) (i : nat) : bool :=
  match r with
  | Lit _ | Plus _ => false
  | Seq r1 r2 => writes r1 i || writes r2 i
  | Group j r => bool_decide (j = i) || writes r i
  | Opt r => writes r i
  end.

(** [c] does not occur in [s]. *)
Definition lacks_char (c : ascii) (s : str) : bool :=
  forallb (fun x => negb (eqb_char c x)) s.

(** A non-empty run of characters of one kind. *)
Definition run_of (p : ascii -> bool) (s : str) : bool :=
  match s with [] => false | _ => forallb p s end.

(** The lines the temperature patterns are written for:
    [<whitespace>+<digits>.<digits>] before the degree sign. *)
Definition decimal_shape (ws ip fp : str) : bool :=
  run_of is_space ws && run_of is_digit ip && run_of is_digit fp.

Definition core_line (n ws ip fp rest : str) : str :=
  L "Core " ++ n ++ L ":" ++ ws ++ L "+" ++ ip ++ L "." ++ fp ++ degC ++ rest.

Definition composite_line (ws ip fp rest : str) : str :=
  L "Composite:" ++ ws ++ L "+" ++ ip ++ L "." ++ fp ++ degC ++ rest.

(** The line is taken by one of the branches that come before the storage
    branch: lines 79, 86, 92 and 99. *)
Definition taken_by_earlier_branch (line : str) : bool :=
  contains (L "Adapter:") line
  || (contains (L "Core") line && contains degC line)
  || (contains (L "Package id") line && contains degC line)
  || (contains (L "fan") (lower line) && contains (L "RPM") line).

(** A fan line with its clause:
    [fan<n>:<ws>speed RPM<ws>(min<ws>=<ws>mn RPM,<ws>max<ws>=<ws>mx RPM)]. *)
Definition fan_clause_line (n w1 speed w2 w3 w4 mn w5 w6 w7 mx rest : str)
  : str :=
  L "fan" ++ n ++ L ":" ++ w1 ++ speed ++ L " RPM" ++ w2 ++ L "(min" ++ w3
  ++ L "=" ++ w4 ++ mn ++ L " RPM," ++ w5 ++ L "max" ++ w6 ++ L "=" ++ w7
  ++ mx ++ L " RPM)" ++ rest.

Definition fan_clause_shape (n w1 speed w2 w3 w4 mn w5 w6 w7 mx : str)
  : bool :=
  run_of is_digit n && run_of is_space w1 && run_of is_digit speed
  && run_of is_space w2 && run_of is_space w3 && run_of is_space w4
  && run_of is_digit mn && run_of is_space w5 && run_of is_space w6
  && run_of is_space w7 && run_of is_digit mx.

(** [fan<n>:<ws>speed RPM], and whitespace up to the end of the line. *)
Definition fan_bare_line (n ws speed trailing : str) : str :=
  L "fan" ++ n ++ L ":" ++ ws ++ speed ++ L " RPM" ++ trailing.

Definition fan_bare_shape (n ws speed trailing : str) : bool :=
  run_of is_digit n && run_of is_space ws && run_of is_digit speed
  && forallb is_space trailing.

(** ** Texts of the scenarios *)

(** The line of the scenario, and the same reading with a minus sign. *)
Definition core_scenario_line : str :=
  L "Core 0:        +45.0" ++ degC ++ L "  (high = +80.0" ++ degC
  ++ L ", crit = +100.0" ++ degC ++ L ")".

Definition core_minus_line : str := L "Core 0:        -45.0" ++ degC.

(** The two fan lines of the scenarios, and one whose clause has no maximum. *)
Definition fan1_line : str :=
  L "fan1:        2125 RPM  (min =    0 RPM, max = 3700 RPM)".

Definition fan2_line : str := L "fan2:        1000 RPM".

Definition fan1_min_only_line : str :=
  L "fan1:        2000 RPM  (min =    0 RPM)".

Definition fan1_max_zero_line : str :=
  L "fan1:        1200 RPM  (min =    0 RPM, max = 0 RPM)".

Definition nl : str := [ascii_of_N 10].

(** A fan line whose clause has a maximum of 4301 digits. *)
Definition long_max_output : str :=
  L "fan1:        1000 RPM  (min =    0 RPM, max = "
  ++ replicate 4301 "9"%char ++ L " RPM)".

(** A fan line with a speed of 400 digits and a maximum of 1. *)
Definition fast_fan_output : str :=
  L "fan1:        " ++ replicate 400 "9"%char
  ++ L " RPM  (min =    0 RPM, max = 1 RPM)".

(** A fan line with a speed of 4301 digits, between two [Core] lines. *)
Definition long_speed_output : str :=
  L "Core 0:        +45.0" ++ degC ++ nl
  ++ L "fan1:        " ++ replicate 4301 "9"%char ++ L " RPM  (min = 0 RPM)"
  ++ nl ++ L "Core 1:        +46.0" ++ degC.

(** A capture as [sensors] prints it. *)
Definition sample_output : str :=
  L "coretemp-isa-0000" ++ nl ++
  L "Adapter: ISA adapter" ++ nl ++
  L "Package id 0:  +47.0" ++ degC ++ L "  (high = +80.0" ++ degC
    ++ L ", crit = +100.0" ++ degC ++ L ")" ++ nl ++
  core_scenario_line ++ nl ++
  nl ++
  L "nvme-pci-0100" ++ nl ++
  L "Adapter: PCI adapter" ++ nl ++
  L "Composite:    +38.9" ++ degC ++ L "  (low  = -273.1" ++ degC
    ++ L ", high = +81.8" ++ degC ++ L ")" ++ nl ++
  nl ++
  L "thinkpad-isa-0000" ++ nl ++
  L "Adapter: ISA adapter" ++ nl ++
  fan1_line ++ nl ++
  L "temp1:        +27.8" ++ degC ++ nl.

(** * The rest of the parser and of the plots: definitions *)

(** ** What a match is *)

(** [matches r s t g g']: the pattern [r] reads the text between the
    positions [s] and [t] (a suffix of [s]), and the groups go from [g] to
    [g']. *)
Inductive matches : regex -> str -> str -> groups -> groups -> Prop :=
| matches_Lit l t g : matches (Lit l) (l ++ t) t g g
| matches_Plus cl xs t g :
    xs ≠ [] -> forallb (in_class cl) xs = true ->
    matches (Plus cl) (xs ++ t) t g g
| matches_Seq r1 r2 s t u g g1 g2 :
    matches r1 s t g g1 -> matches r2 t u g1 g2 ->
    matches (Seq r1 r2) s u g g2
| matches_Group i r s t g g1 :
    matches r s t g g1 ->
    matches (Group i r) s t g (<[i := Some (consumed s t)]> g1)
| matches_Opt_taken r s t g g1 :
    matches r s t g g1 -> matches (Opt r) s t g g1
| matches_Opt_skipped r s g : matches (Opt r) s s g g.

(** ** Keys and values of the categories *)

(** [Core <digits>] or [Package id <digits>]. *)
Definition cpu_key (k : str) : bool :=
  match strip_prefix (L "Core ") k with
  | Some n => run_of is_digit n
  | None =>
      match strip_prefix (L "Package id ") k with
      | Some n => run_of is_digit n
      | None => false
      end
  end.

(** [fan<digits>]. *)
Definition fan_key (k : str) : bool :=
  match strip_prefix (L "fan") k with
  | Some n => run_of is_digit n
  | None => false
  end.

(** [<adapter>_temp<digits>]. *)
Definition other_key (k : str) : Prop :=
  ∃ adapter n, run_of is_digit n = true ∧ k = adapter ++ L "_temp" ++ n.

Definition key_ok (c : Category) (k : str) : Prop :=
  match c with
  | CpuTemperature => cpu_key k = true
  | FanSpeed => fan_key k = true
  | StorageTemperature => k = L "NVMe"
  | OtherTemperature => other_key k
  end.

Definition value_nonneg (c : Category) : value c -> Prop :=
  match c with
  | FanSpeed => fun v => (0 <= v)%Z
  | _ => fun v => (0 <= v)%Q
  end.

Definition entry_ok (c : Category) (kv : str * value c) : Prop :=
  key_ok c kv.1 ∧ value_nonneg c kv.2.

Definition currents_ok (st : SensorData) : Prop :=
  ∀ c, Forall (entry_ok c) (current c st).

(** Every capacity is that of a fan key and is not negative. *)
Definition capacities_ok (st : SensorData) : Prop :=
  map_Forall (fun fan cap => fan_key fan = true ∧ (0 <= cap)%Z)
             (max_fan_speeds st).

(** Every fan of the current snapshot has a capacity. *)
Definition fans_have_capacity (st : SensorData) : Prop :=
  ∀ fan, fan ∈ Dict.keys (fan_speeds st) → is_Some (max_fan_speeds st !! fan).

(** What holds of every object that [update] calls have made. *)
Definition reachable_ok (st : SensorData) : Prop :=
  currents_ok st ∧ capacities_ok st.

(** ** More shapes of lines *)

Definition package_line (n ws ip fp rest : str) : str :=
  L "Package id " ++ n ++ L ":" ++ ws ++ L "+" ++ ip ++ L "." ++ fp ++ degC
  ++ rest.

Definition temp_line (n ws ip fp rest : str) : str :=
  L "temp" ++ n ++ L ":" ++ ws ++ L "+" ++ ip ++ L "." ++ fp ++ degC ++ rest.

(** [fan<n>:<ws>speed RPM<ws>] and then text that begins with a character
    [c] other than whitespace and has no [max] in it. *)
Definition fan_plain_line (n w1 speed w2 : str) (c : ascii) (rest : str)
  : str :=
  L "fan" ++ n ++ L ":" ++ w1 ++ speed ++ L " RPM" ++ w2 ++ c :: rest.

Definition fan_plain_shape (n w1 speed w2 : str) (c : ascii) (rest : str)
  : bool :=
  run_of is_digit n && run_of is_space w1 && run_of is_digit speed
  && run_of is_space w2 && negb (is_space c)
  && negb (contains (L "max") (c :: rest)).

(** The keys of [other_temps] under the contexts [unknown] and [Adapter]. *)
Definition standard_other_key (k : str) : Prop :=
  ∃ n, run_of is_digit n = true
       ∧ (k = L "unknown_temp" ++ n ∨ k = L "Adapter_temp" ++ n).

(** Two chips, each with a [temp1]. *)
Definition two_chip_output : str :=
  L "acpitz-acpi-0" ++ nl ++ L "Adapter: ACPI interface" ++ nl
  ++ L "temp1:        +27.8" ++ degC ++ nl ++ nl
  ++ L "pch_skylake-virtual-0" ++ nl ++ L "Adapter: Virtual device" ++ nl
  ++ L "temp1:        +40.0" ++ degC ++ nl.

(** ** [SystemMonitor._update_plot] *)

Module Monitor.

(** What the method sets on an [Axes] object, the legend apart. *)
Record axes := Axes {
  title : str;
  xlabel : str;
  ylabel : str;
  xlim : Z * Z;
  ylim : Z * Z;
  grid : bool
}.

(** A [Line2D] object made by [ax.plot(x_data, data, label=key, ...,
    color=color)]: its data, its label and the index of its colour in
    [plt.cm.tab10.colors], which has ten colours. *)
Record line (V : Type) := Line { ydata : list V; label : str; color : nat }.
Arguments Line {V} _ _ _.
Arguments ydata {V} _.
Arguments label {V} _.
Arguments color {V} _.

(** [line.set_ydata(data)] *)
Definition set_ydata {V} (data : list V) (ln : line V) : line V :=
  Line data (label ln) (color ln).

(** Lines 337-347, after [ax.clear()]. *)
Definition reset_axes (data_type : str) (ax : axes) : axes :=
  let ax1 :=
    if bool_decide (data_type = L "temperature") then
      Axes (title ax) (xlabel ax) (L "Temperature (" ++ degC ++ L ")")
           (xlim ax)
           (if contains (L "CPU") (title ax) then (30, 100)%Z
            else (20, 80)%Z)
           (grid ax)
    else ax in
  Axes (title ax1) (L "Time (s)") (ylabel ax1) (0, 60)%Z (ylim ax1) true.

(** [ax.plot(x_data, data, label=key, ..., color=color)] with the 60 points
    of [x_data = np.arange(60)]: [ValueError] when [data] has another
    length. *)
Definition plot {V} (data : list V) (key : str) (color : nat)
  : outcome (line V) :=
  if (length data =? 60)%nat then Ok (Line data key color)
  else Raise ValueError.

(** The loop of lines 356-372; [i] is the index that [enumerate] gives. *)
Fixpoint plot_loop {V} (i : nat) (data_items : dict (deque V))
    (lines_dict : dict (line V)) : dict (line V) * outcome unit :=
  match data_items with
  | [] => (lines_dict, Ok tt)
  | (key, data_queue) :: rest =>
      match plot_data data_queue with
      | Raise e => (lines_dict, Raise e)
      | Ok data =>
          let color := (i mod 10)%nat in
          match Dict.get lines_dict key with
          | Some ln =>
              plot_loop (S i) rest
                        (Dict.set lines_dict key (set_ydata data ln))
          | None =>
              match plot data key color with
              | Raise e => (lines_dict, Raise e)
              | Ok ln => plot_loop (S i) rest (Dict.set lines_dict key ln)
              end
          end
      end
  end.

(** [_update_plot(ax, lines_dict, data_dict, data_type)]; [clear] is what
    [ax.clear()] does to the fields of the axes.  The result is the axes
    and the dictionary of lines when the method returns or raises. *)
Definition _update_plot {V} (clear : axes -> axes) (ax : axes)
    (lines_dict : dict (line V)) (data_dict : dict (deque V))
    (data_type : str) : (axes * dict (line V)) * outcome unit :=
  match data_dict with
  | [] => ((ax, lines_dict), Ok tt)
  | _ =>
      let '(ax1, lines1) :=
        if bool_decide ((list_to_set (Dict.keys lines_dict) : gset str)
                        ≠ list_to_set (Dict.keys data_dict))
        then (reset_axes data_type (clear ax), [])
        else (ax, lines_dict) in
      let '(lines2, r) := plot_loop 0 data_dict lines1 in
      ((ax1, lines2), r)
  end.

(** The axes of the CPU plot as [__init__] leaves them (lines 176-179 and
    198-199). *)
Definition cpu_ax : axes :=
  Axes (L "CPU Temperature") (L "Time (s)")
       (L "Temperature (" ++ degC ++ L ")") (0, 60)%Z (30, 100)%Z true.

(** The colour of each line is that of its place in the dictionary. *)
Definition colored {V} (lines_dict : dict (line V)) : Prop :=
  ∀ j k ln, lines_dict !! j = Some (k, ln) → color ln = (j mod 10)%nat.

End Monitor.

(** What [ax.clear()] does in these instances: every field goes back to
    the value of a new [Axes]. *)
Definition clear_axes (ax : Monitor.axes) : Monitor.axes :=
  Monitor.Axes [] [] [] (0, 1)%Z (0, 1)%Z false.

(** The call raised, or its text has [Adapter:] at the start of the lines
    that have it. *)
Definition standard_tick (t : outcome str) : bool :=
  match t with
  | Ok output => forallb standard_header (splitlines output)
  | Raise _ => true
  end.

(** * Properties *)

(** ** Association lists *)

Section dict_facts.
Context {V : Type}.
Implicit Types (d : dict V) (k : str) (v : V).

Lemma get_set_eq d k v : Dict.get (Dict.set d k v) k = Some v.
Proof.
  induction d as [|[k' v'] d IH]; simpl.
  - by rewrite decide_True.
  - destruct (decide (k' = k)) as [->|Hne]; simpl.
    + by rewrite decide_True.
    + by rewrite decide_False.
Qed.

Lemma get_set_ne d k k' v :
  k ≠ k' → Dict.get (Dict.set d k v) k' = Dict.get d k'.
Proof.
  intros Hne. induction d as [|[k0 v0] d IH]; simpl.
  - by rewrite decide_False.
  - destruct (decide (k0 = k)) as [->|Hne0]; simpl.
    + by rewrite !decide_False.
    + by rewrite IH.
Qed.

Lemma keys_set d k v :
  Dict.keys (Dict.set d k v) =
  if decide (k ∈ Dict.keys d) then Dict.keys d else Dict.keys d ++ [k].
Proof.
  induction d as [|[k0 v0] d IH]; simpl; [done|].
  destruct (decide (k0 = k)) as [->|Hne0]; simpl.
  - rewrite decide_True; [done | by left].
  - rewrite IH. destruct (decide (k ∈ Dict.keys d)) as [Hin|Hin].
    + rewrite decide_True; [done | by right].
    + rewrite decide_False; [done|].
      intros [?|?]%elem_of_cons; [congruence | done].
Qed.

Lemma keys_set_NoDup d k v :
  NoDup (Dict.keys d) → NoDup (Dict.keys (Dict.set d k v)).
Proof.
  intros Hnd. rewrite keys_set. case_decide; [done|].
  apply NoDup_app. split_and!; [done | | apply NoDup_singleton].
  intros x Hx ->%list_elem_of_singleton. done.
Qed.

Lemma set_set d k v1 v2 :
  Dict.set (Dict.set d k v1) k v2 = Dict.set d k v2.
Proof.
  induction d as [|[k0 v0] d IH]; simpl.
  - by rewrite decide_True.
  - destruct (decide (k0 = k)) as [->|Hne0]; simpl.
    + by rewrite decide_True.
    + by rewrite decide_False, IH.
Qed.

Lemma get_None_keys d k : Dict.get d k = None ↔ k ∉ Dict.keys d.
Proof.
  induction d as [|[k0 v0] d IH]; simpl.
  - split; [intros _; apply not_elem_of_nil | done].
  - destruct (decide (k0 = k)) as [->|Hne0].
    + split; [done | intros []; by left].
    + rewrite IH, not_elem_of_cons. split; [by split | by intros [_ ?]].
Qed.
End dict_facts.

(** ** Deques and histories *)

Section history_facts.
Context {V : Type}.
Implicit Types (h : gmap str (deque V)) (d : dict V) (q : deque V).

Lemma append_history_eq n h k (v : V) :
  append_history n h (k, v) !! k
  = Some (deque_append (default (new_deque n) (h !! k)) v).
Proof.
  unfold append_history; simpl. destruct (h !! k) as [q|] eqn:Hk.
  - by rewrite lookup_alter_eq, Hk.
  - by rewrite lookup_alter_eq, lookup_insert_eq.
Qed.

Lemma append_history_ne n h k k' (v : V) :
  k ≠ k' → append_history n h (k, v) !! k' = h !! k'.
Proof.
  intros Hne. unfold append_history; simpl.
  rewrite lookup_alter_ne by done.
  destruct (h !! k); [done | by rewrite lookup_insert_ne].
Qed.

(** A loop of [_update_histories], read at one key. *)
Lemma update_history_lookup n d h k :
  NoDup (Dict.keys d) →
  update_history n d h !! k =
  match Dict.get d k with
  | Some v => Some (deque_append (default (new_deque n) (h !! k)) v)
  | None => h !! k
  end.
Proof.
  unfold update_history. revert h.
  induction d as [|[k0 v0] d IH]; intros h Hnd; simpl; [done|].
  simpl in Hnd. apply NoDup_cons in Hnd as [Hk0 Hnd]. rewrite IH by done.
  destruct (decide (k0 = k)) as [->|Hne].
  - apply get_None_keys in Hk0. by rewrite Hk0, append_history_eq.
  - by rewrite append_history_ne.
Qed.

Lemma deque_append_last_n n (l : list V) (v : V) :
  n ≠ 0%nat →
  deque_append (Deque n (last_n n l)) v = Deque n (last_n n (l ++ [v])).
Proof.
  intros Hn. unfold deque_append, last_n; simpl.
  rewrite (proj2 (Nat.eqb_neq _ _)) by done.
  rewrite length_drop, length_app; simpl.
  destruct (Nat.ltb_spec (length l - (length l - n)) n) as [Hlt|Hge].
  - f_equal. replace (length l - n)%nat with 0%nat by lia.
    replace (length l + 1 - n)%nat with 0%nat by lia. done.
  - f_equal. replace (length l + 1 - n)%nat with (S (length l - n)) by lia.
    rewrite drop_app_le by lia.
    f_equal. destruct (drop (length l - n) l) as [|x l'] eqn:Hd.
    + apply (f_equal length) in Hd. rewrite length_drop in Hd.
      simpl in Hd. lia.
    + simpl. replace (S (length l - n)) with (length l - n + 1)%nat by lia.
      by rewrite <- drop_drop, Hd.
Qed.
End history_facts.

(** ** What parsing changes *)

Ltac parse_line_cases :=
  unfold parse_line, read_line; simpl;
  repeat match goal with
         | |- context [match ?x with _ => _ end] => destruct x eqn:?
         end; simpl.

Lemma parse_line_histories st a raw :
  histories (parse_line (st, a) raw).1 = histories st.
Proof. parse_line_cases; reflexivity. Qed.

Lemma parse_line_currents st1 st2 a raw :
  currents st1 = currents st2 →
  currents (parse_line (st1, a) raw).1 = currents (parse_line (st2, a) raw).1
  ∧ (parse_line (st1, a) raw).2 = (parse_line (st2, a) raw).2.
Proof.
  unfold currents. intros [= H1 H2 H3 H4].
  unfold parse_line, read_line; simpl. rewrite H1, H2, H3, H4.
  repeat match goal with
         | |- context [match ?x with _ => _ end] => destruct x eqn:?
         end; simpl; by rewrite ?H1, ?H2, ?H3, ?H4.
Qed.

Lemma parse_line_NoDup st a raw :
  currents_NoDup st → currents_NoDup (parse_line (st, a) raw).1.
Proof.
  unfold currents_NoDup. intros (H1 & H2 & H3 & H4).
  parse_line_cases; split_and!; auto using @keys_set_NoDup.
Qed.

Lemma fold_parse_line_histories lines st a :
  histories (fold_left parse_line lines (st, a)).1 = histories st.
Proof.
  revert st a. induction lines as [|raw lines IH]; intros st a; [done|].
  cbn [fold_left]. destruct (parse_line (st, a) raw) as [st' a'] eqn:Hp.
  rewrite IH. by rewrite <- (parse_line_histories st a raw), Hp.
Qed.

Lemma fold_parse_line_currents lines st1 st2 a :
  currents st1 = currents st2 →
  currents (fold_left parse_line lines (st1, a)).1
  = currents (fold_left parse_line lines (st2, a)).1.
Proof.
  revert st1 st2 a.
  induction lines as [|raw lines IH]; intros st1 st2 a Hc; [done|].
  cbn [fold_left].
  destruct (parse_line_currents st1 st2 a raw Hc) as [Hc' Ha'].
  destruct (parse_line (st1, a) raw) as [st1' a1'].
  destruct (parse_line (st2, a) raw) as [st2' a2'].
  simpl in *. subst. by apply IH.
Qed.

Lemma fold_parse_line_NoDup lines st a :
  currents_NoDup st → currents_NoDup (fold_left parse_line lines (st, a)).1.
Proof.
  revert st a. induction lines as [|raw lines IH]; intros st a Hnd; [done|].
  cbn [fold_left]. pose proof (parse_line_NoDup st a raw Hnd) as Hnd'.
  destruct (parse_line (st, a) raw) as [st' a']. by apply IH.
Qed.

(** The loop goes through the first lines of the text, all of them when no
    body raises; the object after it is the one after their bodies. *)
Lemma read_lines_fold lines acc :
  ∃ n, (read_lines lines acc).1 = fold_left parse_line (take n lines) acc.
Proof.
  revert acc. induction lines as [|raw lines IH]; intros acc.
  - by exists 0%nat.
  - cbn [read_lines].
    destruct (read_line acc raw) as [acc' [[]|e]] eqn:Hraw.
    + destruct (IH acc') as [n Hn]. exists (S n).
      cbn [take fold_left]. unfold parse_line at 2. by rewrite Hraw.
    + exists 1%nat. cbn [take fold_left]. unfold parse_line. by rewrite Hraw.
Qed.

Lemma parse_as_fold output st :
  ∃ n, _parse_sensors_output output st
       = (fold_left parse_line (take n (splitlines output))
                    (clear_current st, L "unknown")).1.
Proof.
  unfold _parse_sensors_output, parse_output.
  destruct (read_lines_fold (splitlines output)
              (clear_current st, L "unknown")) as [n Hn].
  exists n. rewrite <- Hn.
  by destruct (read_lines (splitlines output) (clear_current st, L "unknown")).
Qed.

Lemma forallb_take {A} (p : A -> bool) n (l : list A) :
  forallb p l = true → forallb p (take n l) = true.
Proof.
  revert n. induction l as [|x l IH]; intros n; [by destruct n|].
  destruct n as [|n]; [done|]. simpl.
  intros [Hx Hl]%andb_prop. by rewrite Hx, IH.
Qed.

(** Whether the body raises depends on the line only. *)
Lemma read_line_outcome st1 st2 a1 a2 raw :
  (read_line (st1, a1) raw).2 = (read_line (st2, a2) raw).2.
Proof.
  unfold read_line.
  destruct (strip raw) as [|c0 line0] eqn:Hline; [done|].
  rewrite <- Hline. clear c0 line0 Hline.
  destruct (contains (L "Adapter:") (strip raw)).
  { by destruct (split_once ":" (strip raw)). }
  destruct (contains (L "Core") (strip raw) && contains degC (strip raw)).
  { by destruct (search 2 core_re (strip raw)). }
  destruct (contains (L "Package id") (strip raw)
            && contains degC (strip raw)).
  { by destruct (search 2 package_re (strip raw)). }
  destruct (contains (L "fan") (lower (strip raw))
            && contains (L "RPM") (strip raw)).
  { destruct (search 3 fan_re (strip raw)) as [g|]; [|done].
    destruct (py_int (group_text g 1)) as [speed|e]; [|done].
    destruct (group g 2) as [[|c m]|]; simpl.
    - by repeat case_match.
    - by destruct (py_int (c :: m)).
    - by repeat case_match. }
  repeat case_match; done.
Qed.

(** The loop on two objects with the same current dictionaries: it stops
    at the same line and leaves the same current dictionaries. *)
Lemma read_lines_currents lines st1 st2 a :
  currents st1 = currents st2 →
  currents (read_lines lines (st1, a)).1.1
  = currents (read_lines lines (st2, a)).1.1
  ∧ (read_lines lines (st1, a)).2 = (read_lines lines (st2, a)).2.
Proof.
  revert st1 st2 a.
  induction lines as [|raw lines IH]; intros st1 st2 a Hc; [done|].
  cbn [read_lines].
  destruct (parse_line_currents st1 st2 a raw Hc) as [Hc' Ha'].
  pose proof (read_line_outcome st1 st2 a a raw) as Hr.
  unfold parse_line in Hc', Ha'.
  destruct (read_line (st1, a) raw) as [[st1' a1'] r1].
  destruct (read_line (st2, a) raw) as [[st2' a2'] r2].
  simpl in *. subst. destruct r2 as [[]|e]; [|done]. by apply IH.
Qed.

(** Whether the method raises depends on the text only. *)
Lemma parse_output_outcome output st :
  (parse_output output st).2
  = if parses output then Ok tt else Raise ValueError.
Proof.
  assert (Hv : ∀ lines acc e,
            (read_lines lines acc).2 = Raise e → e = ValueError).
  { induction lines as [|raw lines IH]; intros [s a] e; [done|].
    cbn [read_lines].
    destruct (read_line (s, a) raw) as [acc' [[]|e']] eqn:Hraw.
    - apply IH.
    - simpl. intros [= <-]. revert Hraw. unfold read_line, py_int.
      repeat case_match; congruence. }
  unfold parses, parse_output.
  destruct (read_lines_currents (splitlines output) (clear_current st)
              (clear_current init) (L "unknown") eq_refl) as [_ Hr].
  pose proof (Hv (splitlines output) (clear_current init, L "unknown")) as He.
  destruct (read_lines (splitlines output) (clear_current st, L "unknown"))
    as [acc1 r1].
  destruct (read_lines (splitlines output) (clear_current init, L "unknown"))
    as [acc2 r2].
  simpl in *. subst. destruct r2 as [[]|e]; [done|]. by rewrite (He e).
Qed.

Lemma parse_histories output st :
  histories (_parse_sensors_output output st) = histories st.
Proof.
  destruct (parse_as_fold output st) as [n ->].
  by rewrite fold_parse_line_histories.
Qed.

(** The dictionaries of the current snapshot depend on the text only. *)
Lemma parse_currents output st :
  currents (_parse_sensors_output output st) = currents (snapshot output).
Proof.
  unfold snapshot, _parse_sensors_output, parse_output.
  destruct (read_lines_currents (splitlines output) (clear_current st)
              (clear_current init) (L "unknown") eq_refl) as [H _].
  destruct (read_lines (splitlines output) (clear_current st, L "unknown")).
  by destruct (read_lines (splitlines output)
                 (clear_current init, L "unknown")).
Qed.

Lemma parse_NoDup output st :
  currents_NoDup (_parse_sensors_output output st).
Proof.
  destruct (parse_as_fold output st) as [n ->]. apply fold_parse_line_NoDup.
  unfold currents_NoDup; simpl. split_and!; apply NoDup_nil_2.
Qed.

Lemma current_parse c output st :
  current c (_parse_sensors_output output st) = current c (snapshot output).
Proof.
  pose proof (parse_currents output st) as H. unfold currents in H.
  injection H as H1 H2 H3 H4. by destruct c.
Qed.

Lemma current_NoDup c st :
  currents_NoDup st → NoDup (Dict.keys (current c st)).
Proof. intros (H1 & H2 & H3 & H4). by destruct c. Qed.

(** ** One call of [update] *)

(** A call that got a text: the histories are updated when the text was
    parsed to its end; the call returns [False] when the parser raised. *)
Lemma update_Ok output st :
  update (Ok output) st
  = if parses output
    then (_update_histories (_parse_sensors_output output st), Ok true)
    else (_parse_sensors_output output st, Ok false).
Proof.
  pose proof (parse_output_outcome output st) as Hr.
  unfold _parse_sensors_output, update, try_except.
  unfold mbind, M_bind, bind, lift, modify, mret, M_ret, ret.
  destruct (parse_output output st) as [st' r]. simpl in *. subst.
  by destruct (parses output).
Qed.

Lemma update_Raise e st : update (Raise e) st = (st, Ok false).
Proof. reflexivity. Qed.

Lemma tick_Ok output st :
  tick st (Ok output)
  = if parses output
    then _update_histories (_parse_sensors_output output st)
    else _parse_sensors_output output st.
Proof. unfold tick. rewrite update_Ok. by destruct (parses output). Qed.

Lemma tick_max_fan_speeds output st :
  max_fan_speeds (tick st (Ok output))
  = max_fan_speeds (_parse_sensors_output output st).
Proof. rewrite tick_Ok. by destruct (parses output). Qed.

Lemma tick_current c output st :
  current c (tick st (Ok output))
  = current c (_parse_sensors_output output st).
Proof. rewrite tick_Ok. by destruct (parses output), c. Qed.

Lemma tick_max_data_points st t :
  max_data_points (tick st t) = max_data_points st.
Proof.
  destruct t as [output|e]; [|done].
  rewrite tick_Ok.
  pose proof (parse_histories output st) as H. unfold histories in H.
  destruct (parses output); simpl; by injection H.
Qed.

Lemma history_parse c output st :
  history c (_parse_sensors_output output st) = history c st.
Proof.
  pose proof (parse_histories output st) as H. unfold histories in H.
  injection H as H0 H1 H2 H3 H4. by destruct c.
Qed.

(** The history of a channel after a call that got a text. *)
Lemma tick_history c k st t :
  history c (tick st t) !! k =
  match sample c k t with
  | Some v =>
      Some (deque_append
              (default (new_deque (max_data_points st)) (history c st !! k))
              v)
  | None => history c st !! k
  end.
Proof.
  destruct t as [output|e]; [|done].
  unfold sample. rewrite tick_Ok.
  destruct (parses output); [|by rewrite history_parse].
  pose proof (parse_histories output st) as H. unfold histories in H.
  injection H as H0 H1 H2 H3 H4.
  pose proof (current_NoDup c _ (parse_NoDup output st)) as Hnd.
  rewrite <- (current_parse c output st).
  destruct c; simpl in *; rewrite update_history_lookup by done;
    by rewrite H0, ?H1, ?H2, ?H3, ?H4.
Qed.

(** ** Runs of [update] *)

Lemma run_app ticks1 ticks2 st :
  run (ticks1 ++ ticks2) st = run ticks2 (run ticks1 st).
Proof. apply fold_left_app. Qed.

Lemma run_max_data_points ticks st :
  max_data_points (run ticks st) = max_data_points st.
Proof.
  revert st. induction ticks as [|t ticks IH]; intros st; [done|].
  simpl. by rewrite IH, tick_max_data_points.
Qed.

Lemma window_snoc {V} n (vs : list V) v :
  n ≠ 0%nat →
  Some (deque_append (default (new_deque n) (window n vs)) v)
  = window n (vs ++ [v]).
Proof.
  intros Hn. destruct vs as [|x vs]; simpl.
  - unfold deque_append, last_n; simpl.
    rewrite (proj2 (Nat.eqb_neq _ _)) by done.
    destruct n; [done|]. simpl. done.
  - rewrite deque_append_last_n by done. done.
Qed.

Lemma run_history_window c k n vs ticks st :
  max_data_points st = n → n ≠ 0%nat →
  history c st !! k = window n vs →
  history c (run ticks st) !! k = window n (vs ++ samples c k ticks).
Proof.
  intros Hmax Hn. revert st vs Hmax.
  induction ticks as [|t ticks IH]; intros st vs Hmax Hw; simpl.
  - by rewrite app_nil_r.
  - unfold samples; simpl. fold (samples c k ticks).
    destruct (sample c k t) as [v|] eqn:Hs.
    + rewrite (IH (tick st t) (vs ++ [v])).
      * by rewrite <- app_assoc.
      * by rewrite tick_max_data_points.
      * rewrite tick_history, Hs, Hw, Hmax. by apply window_snoc.
    + apply IH; [by rewrite tick_max_data_points|].
      by rewrite tick_history, Hs.
Qed.

Lemma length_last_n {A} n (l : list A) :
  length (last_n n l) = Nat.min (length l) n.
Proof.
  unfold last_n. rewrite length_drop. lia.
Qed.

Lemma last_n_suffix {A} n (l : list A) : last_n n l `suffix_of` l.
Proof. apply suffix_drop. Qed.

Lemma last_n_nil_inv {A} n (l : list A) :
  n ≠ 0%nat → last_n n l = [] → l = [].
Proof.
  intros Hn H. apply (f_equal length) in H. rewrite length_last_n in H.
  destruct l; [done|]. change (length []) with 0%nat in H.
  rewrite length_cons in H. lia.
Qed.

(** ** C1 *)

(** A call whose text makes an [int(...)] of the parser raise returns
    [False] where the loop stopped: the lines before are read, the later
    ones are not, and no history gets a value. *)
Lemma failed_parse_appends_nothing :
  let st := tick init (Ok long_speed_output) in
  update (Ok long_speed_output) init = (st, Ok false)
  ∧ cpu_temps st = [(L "Core 0", 45%Q)]
  ∧ fan_speeds st = []
  ∧ cpu_temp_history st !! L "Core 0" = None
  ∧ samples CpuTemperature (L "Core 0") [Ok long_speed_output] = [].
Proof. split_and!; by vm_compute. Qed.

(** C1. Ring-buffer bound.  Over any run of [update] calls on a new object,
    let [vs] be the values of a channel in the texts of the calls that
    returned [True], oldest first (a call that raised in [check_output] or
    in the parser appends nothing).  The channel has no history while [vs]
    is empty; afterwards its history is a deque of capacity 60 whose items
    are the last 60 values of [vs] in their order: a suffix of [vs] of
    length [min (length vs) 60]. *)
Theorem ring_buffer_bound (c : Category) (k : str)
    (ticks : list (outcome str)) :
  let vs := samples c k ticks in
  history c (run ticks init) !! k
  = match vs with
    | [] => None
    | _ => Some (Deque 60 (last_n 60 vs))
    end
  ∧ length (last_n 60 vs) = Nat.min (length vs) 60
  ∧ (length (last_n 60 vs) <= 60)%nat
  ∧ last_n 60 vs `suffix_of` vs.
Proof.
  intros vs. split_and!.
  - apply (run_history_window c k 60 [] ticks init); [done | done |].
    by destruct c.
  - apply length_last_n.
  - rewrite length_last_n. lia.
  - apply last_n_suffix.
Qed.

(** ** C3 *)

(** C3. Acquisition-failure atomicity.  When [check_output] raises, [update]
    returns [False] and leaves the whole object as it was: the four current
    dictionaries, the four histories and [max_fan_speeds].  So a run that
    ends with such a call ends in the state reached before that call. *)
Theorem acquisition_failure_atomic (st : SensorData) (e : exn) :
  update (Raise e) st = (st, Ok false)
  ∧ (∀ c, history c (tick st (Raise e)) = history c st
          ∧ current c (tick st (Raise e)) = current c st)
  ∧ max_fan_speeds (tick st (Raise e)) = max_fan_speeds st
  ∧ (∀ ticks, run (ticks ++ [Raise e]) st = run ticks st).
Proof.
  split_and!; try done.
  intros ticks. by rewrite run_app.
Qed.

(** ** C5 *)

Lemma tick_history_is_Some c k st t :
  is_Some (history c st !! k) → is_Some (history c (tick st t) !! k).
Proof.
  intros Hk. rewrite tick_history. by destruct (sample c k t).
Qed.

Lemma run_history_dom c ticks st :
  dom (history c st) ⊆ dom (history c (run ticks st)).
Proof.
  revert st. induction ticks as [|t ticks IH]; intros st; [done|].
  simpl. etrans; [|apply IH].
  intros k. rewrite !elem_of_dom. apply tick_history_is_Some.
Qed.

Lemma run_history_omitted c k ticks st :
  forallb (omits c k) ticks = true →
  history c (run ticks st) !! k = history c st !! k.
Proof.
  revert st. induction ticks as [|t ticks IH]; intros st Hom; [done|].
  simpl in *. apply andb_prop in Hom as [Ht Hom].
  rewrite IH by done. rewrite tick_history.
  unfold omits in Ht. by destruct (sample c k t).
Qed.

(** C5. Channel persistence.  A key that has a history keeps it, with the
    same deque, over any run of [update] calls whose snapshots do not have
    the key; and over any run at all the keys of a history dictionary are
    kept. *)
Theorem channel_persistence (c : Category) (k : str) (st : SensorData)
    (d : deque (value c)) (ticks : list (outcome str))
    (Hseen : history c st !! k = Some d)
    (Homit : forallb (omits c k) ticks = true) :
  history c (run ticks st) !! k = Some d
  ∧ ∀ more, dom (history c st) ⊆ dom (history c (run more st)).
Proof.
  split.
  - by rewrite run_history_omitted.
  - intros more. apply run_history_dom.
Qed.

Lemma channel_persistence_witness :
  history CpuTemperature
    (run [Ok fan1_line; Raise OSError; Ok fan2_line]
         (tick init (Ok core_scenario_line)))
    !! L "Core 0" = Some (Deque 60 [45%Q])
  ∧ ∀ more,
      dom (history CpuTemperature (tick init (Ok core_scenario_line)))
      ⊆ dom (history CpuTemperature
               (run more (tick init (Ok core_scenario_line)))).
Proof.
  apply (channel_persistence CpuTemperature (L "Core 0")
           (tick init (Ok core_scenario_line)) (Deque 60 [45%Q])
           [Ok fan1_line; Raise OSError; Ok fan2_line]); by vm_compute.
Defined.

(** ** C2 *)

(** C2. Left-pad correctness.  For a deque that holds [k] values
    [v1 :: rest] with [0 < k < 60], the series drawn is [v1] repeated
    [60 - k] times followed by the values, and its length is 60. *)
Theorem left_pad_correct {V} (data_queue : deque V) (v1 : V) (rest : list V)
    (k : nat)
    (Hitems : items data_queue = v1 :: rest)
    (Hk : length (items data_queue) = k)
    (Hlo : (0 < k)%nat) (Hhi : (k < 60)%nat) :
  plot_data data_queue = Ok (replicate (60 - k) v1 ++ v1 :: rest)
  ∧ length (replicate (60 - k) v1 ++ v1 :: rest) = 60%nat.
Proof.
  unfold plot_data. rewrite Hk.
  rewrite (proj2 (Nat.ltb_lt _ _)) by done.
  rewrite Hitems. split; [done|].
  rewrite length_app, length_replicate. rewrite Hitems in Hk. lia.
Qed.

Lemma left_pad_correct_witness :
  plot_data (Deque 60 [45; 46; 47]%Z)
  = Ok (replicate (60 - 3) 45%Z ++ [45; 46; 47]%Z)
  ∧ length (replicate (60 - 3) 45%Z ++ [45; 46; 47]%Z) = 60%nat.
Proof.
  apply (left_pad_correct (Deque 60 [45; 46; 47]%Z) 45%Z [46; 47]%Z 3);
    [reflexivity | reflexivity | lia | lia].
Defined.

(** ** C10 *)

Lemma plot_data_nonempty {V} (d : deque V) :
  items d ≠ [] → (length (items d) <= 60)%nat →
  ∃ series, plot_data d = Ok series ∧ length series = 60%nat.
Proof.
  intros Hne Hle. unfold plot_data.
  destruct (Nat.ltb_spec (length (items d)) 60) as [Hlt|Hge].
  - destruct (items d) as [|d0 l] eqn:Hd; [done|].
    eexists; split; [done|]. rewrite length_app, length_replicate. lia.
  - eexists; split; [done | lia].
Qed.

(** C10. Every history is non-empty.  In every state a run of [update] calls
    reaches from a new object, each deque of each history dictionary has at
    least one item and at most 60, and the series [_update_plot] draws for
    it is defined (no [IndexError]) and has 60 points. *)
Theorem history_nonempty (c : Category) (k : str)
    (ticks : list (outcome str)) (d : deque (value c))
    (Hd : history c (run ticks init) !! k = Some d) :
  items d ≠ []
  ∧ (1 <= length (items d) <= 60)%nat
  ∧ ∃ series, plot_data d = Ok series ∧ length series = 60%nat.
Proof.
  pose proof (run_history_window c k 60 [] ticks init eq_refl) as Hh.
  rewrite Hd in Hh. simpl in Hh.
  destruct (samples c k ticks) as [|v vs] eqn:Hvs.
  { by ospecialize* Hh; [done | by destruct c |]. }
  ospecialize* Hh; [done | by destruct c |].
  injection Hh as ->. simpl items.
  assert (Hne : last_n 60 (v :: vs) ≠ []).
  { intros H%last_n_nil_inv; done. }
  assert (Hl : (1 <= length (last_n 60 (v :: vs)) <= 60)%nat).
  { rewrite length_last_n. simpl. lia. }
  split_and!; [done | lia | lia |].
  apply plot_data_nonempty; simpl; [done | lia].
Qed.

Lemma history_nonempty_witness :
  items (Deque 60 [45%Q]) ≠ []
  ∧ (1 <= length (items (Deque 60 [45%Q])) <= 60)%nat
  ∧ ∃ series, plot_data (Deque 60 [45%Q]) = Ok series
              ∧ length series = 60%nat.
Proof.
  apply (history_nonempty CpuTemperature (L "Core 0")
           [Ok core_scenario_line] (Deque 60 [45%Q])).
  by vm_compute.
Defined.

(** ** Text lemmas *)

Lemma eqb_char_eq a b : eqb_char a b = true ↔ a = b.
Proof. apply Ascii.eqb_eq. Qed.

Lemma eqb_char_refl a : eqb_char a a = true.
Proof. by apply eqb_char_eq. Qed.

Lemma strip_prefix_app p s : strip_prefix p (p ++ s) = Some s.
Proof. induction p as [|a p IH]; simpl; [done|]. by rewrite eqb_char_refl. Qed.

Lemma strip_prefix_Some p s r : strip_prefix p s = Some r → s = p ++ r.
Proof.
  revert s. induction p as [|a p IH]; intros s; simpl.
  - by intros [= ->].
  - destruct s as [|b s]; [done|].
    destruct (eqb_char a b) eqn:Hab; [|done].
    apply eqb_char_eq in Hab as ->. intros H%IH. by rewrite H.
Qed.

Lemma starts_with_app p s : starts_with p (p ++ s) = true.
Proof. unfold starts_with. by rewrite strip_prefix_app. Qed.

Lemma starts_with_inv p s : starts_with p s = true → ∃ r, s = p ++ r.
Proof.
  unfold starts_with. destruct (strip_prefix p s) as [r|] eqn:H; [|done].
  intros _. exists r. by apply strip_prefix_Some.
Qed.

Lemma contains_unfold sub s :
  contains sub s
  = starts_with sub s
    || match s with [] => false | _ :: s' => contains sub s' end.
Proof. by destruct s. Qed.

Lemma contains_app_r sub a b : contains sub (a ++ sub ++ b) = true.
Proof.
  induction a as [|c a IH].
  - rewrite contains_unfold. simpl app. by rewrite starts_with_app.
  - simpl. rewrite IH. apply orb_true_r.
Qed.

Lemma split_once_head sep s :
  head (split_once sep s) = Some (before sep s).
Proof.
  induction s as [|c s IH]; simpl; [done|].
  destruct (eqb_char sep c); simpl; [done|].
  destruct (split_once sep s) as [|h t]; simpl in *; [done|].
  by injection IH as ->.
Qed.

(** ** The adapter context *)

(** Lines 79-83, for any line that contains [Adapter:]. *)
Lemma parse_line_adapter st a raw :
  contains (L "Adapter:") (strip raw) = true →
  parse_line (st, a) raw = (st, strip (before_colon (strip raw))).
Proof.
  intros Hc. unfold parse_line, read_line. rewrite Hc.
  destruct (strip raw) as [|c line] eqn:Hline; [done|].
  pose proof (split_once_head ":" (c :: line)) as Hh.
  destruct (split_once ":" (c :: line)) as [|p0 ps]; [done|].
  simpl in Hh. injection Hh as ->. done.
Qed.

Lemma parse_line_not_adapter st a raw :
  contains (L "Adapter:") (strip raw) = false →
  (parse_line (st, a) raw).2 = a.
Proof.
  intros Hc. unfold parse_line, read_line. rewrite Hc.
  parse_line_cases; done.
Qed.

(** Outside a storage context no line changes [storage_temps]. *)
Lemma parse_line_storage_gate st a raw :
  nvme_context a = false →
  storage_temps (parse_line (st, a) raw).1 = storage_temps st.
Proof.
  unfold nvme_context. intros Hn. unfold parse_line, read_line. rewrite Hn.
  parse_line_cases; done.
Qed.

Lemma parse_line_standard_header st a raw :
  standard_header raw = true →
  contains (L "Adapter:") (strip raw) = true →
  parse_line (st, a) raw = (st, L "Adapter").
Proof.
  unfold standard_header. intros Hstd Hc.
  rewrite parse_line_adapter by done. f_equal.
  rewrite Hc in Hstd. simpl in Hstd.
  apply starts_with_inv in Hstd as [r ->]. reflexivity.
Qed.

Lemma standard_context_not_nvme a :
  standard_context a → nvme_context a = false.
Proof. by intros [-> | ->]. Qed.

Lemma parse_line_standard st a raw :
  standard_header raw = true → standard_context a →
  storage_temps (parse_line (st, a) raw).1 = storage_temps st
  ∧ standard_context (parse_line (st, a) raw).2.
Proof.
  intros Hstd Ha. split.
  - by apply parse_line_storage_gate, standard_context_not_nvme.
  - destruct (contains (L "Adapter:") (strip raw)) eqn:Hc.
    + rewrite parse_line_standard_header by done. by right.
    + by rewrite parse_line_not_adapter.
Qed.

Lemma fold_parse_line_standard lines st a :
  forallb standard_header lines = true → standard_context a →
  storage_temps (fold_left parse_line lines (st, a)).1 = storage_temps st
  ∧ standard_context (fold_left parse_line lines (st, a)).2.
Proof.
  revert st a. induction lines as [|raw lines IH]; intros st a Hall Ha.
  - done.
  - simpl in Hall. apply andb_prop in Hall as [Hraw Hall].
    cbn [fold_left].
    destruct (parse_line_standard st a raw Hraw Ha) as [Hs Ha'].
    destruct (parse_line (st, a) raw) as [st' a'].
    destruct (IH st' a' Hall Ha') as [Hs' Ha'']. simpl in *.
    split; [congruence | done].
Qed.

(** ** C9 *)

(** C9. A line that contains [Adapter:] sets the adapter context to the
    text before its first colon, stripped, and changes nothing else.  So in
    a text whose [Adapter:] lines begin with [Adapter:], the context after
    each of them is the literal [Adapter], which has no [nvme] in it, and
    parsing the text leaves [storage_temps] empty. *)
Theorem adapter_context_is_literal (output : str) (st : SensorData)
    (Hstd : forallb standard_header (splitlines output) = true) :
  (∀ st0 a raw,
     contains (L "Adapter:") (strip raw) = true →
     parse_line (st0, a) raw = (st0, strip (before_colon (strip raw))))
  ∧ (∀ pre raw post,
       splitlines output = pre ++ raw :: post →
       contains (L "Adapter:") (strip raw) = true →
       (fold_left parse_line (pre ++ [raw]) (clear_current st, L "unknown")).2
       = L "Adapter")
  ∧ nvme_context (L "Adapter") = false
  ∧ storage_temps (_parse_sensors_output output st) = [].
Proof.
  split_and!.
  - intros st0 a raw. apply parse_line_adapter.
  - intros pre raw post Hsplit Hc. rewrite Hsplit in Hstd.
    rewrite forallb_app in Hstd. apply andb_prop in Hstd as [Hpre Hraw].
    simpl in Hraw. apply andb_prop in Hraw as [Hraw _].
    rewrite fold_left_app. cbn [fold_left].
    destruct (fold_left parse_line pre (clear_current st, L "unknown"))
      as [st1 a1].
    by rewrite parse_line_standard_header.
  - reflexivity.
  - destruct (parse_as_fold output st) as [n ->].
    destruct (fold_parse_line_standard (take n (splitlines output))
                (clear_current st) (L "unknown")) as [Hs _];
      [by apply forallb_take | by left | done].
Qed.

Lemma adapter_context_is_literal_witness :
  storage_temps (_parse_sensors_output sample_output init) = []
  ∧ forallb standard_header (splitlines sample_output) = true.
Proof.
  assert (H : forallb standard_header (splitlines sample_output) = true)
    by by vm_compute.
  split; [|done].
  by destruct (adapter_context_is_literal sample_output init H)
    as (_ & _ & _ & ?).
Defined.

(** ** Fan capacities *)

Lemma parse_line_capacity fan cap st a raw :
  lacks_max_clause fan raw = true →
  max_fan_speeds st !! fan = Some cap →
  max_fan_speeds (parse_line (st, a) raw).1 !! fan = Some cap.
Proof.
  unfold lacks_max_clause. intros Hl Hcap. unfold parse_line, read_line.
  destruct (search 3 fan_re (strip raw)) as [g|] eqn:Hg.
  - destruct (group g 2) as [[|c m]|] eqn:Hg2; parse_line_cases;
      try done; simplify_eq;
      try (rewrite lookup_insert_ne; [done | congruence]).
    all: rewrite lookup_insert_ne; [done|].
    all: by apply negb_true_iff, bool_decide_eq_false in Hl.
  - parse_line_cases; done.
Qed.

Lemma fold_parse_line_capacity fan cap lines st a :
  forallb (lacks_max_clause fan) lines = true →
  max_fan_speeds st !! fan = Some cap →
  max_fan_speeds (fold_left parse_line lines (st, a)).1 !! fan = Some cap.
Proof.
  revert st a. induction lines as [|raw lines IH]; intros st a Hall Hcap.
  - done.
  - simpl in Hall. apply andb_prop in Hall as [Hraw Hall].
    cbn [fold_left].
    pose proof (parse_line_capacity fan cap st a raw Hraw Hcap) as Hcap'.
    destruct (parse_line (st, a) raw) as [st' a']. by apply IH.
Qed.

(** ** C4 *)

(** C4. Capacity retention.  When [max_fan_speeds] has a value for a fan,
    parsing a text none of whose lines is read as a line of that fan with a
    max-RPM clause leaves that value as it is; it is not set back to 4000.
    The same holds for the whole call of [update]. *)
Theorem capacity_retention (fan : str) (cap : Z) (st : SensorData)
    (later : str)
    (Hlearned : max_fan_speeds st !! fan = Some cap)
    (Hlacks : forallb (lacks_max_clause fan) (splitlines later) = true) :
  max_fan_speeds (_parse_sensors_output later st) !! fan = Some cap
  ∧ max_fan_speeds (tick st (Ok later)) !! fan = Some cap.
Proof.
  assert (H : max_fan_speeds (_parse_sensors_output later st) !! fan
              = Some cap).
  { destruct (parse_as_fold later st) as [n ->].
    apply fold_parse_line_capacity; [by apply forallb_take | done]. }
  split; [done|]. by rewrite tick_max_fan_speeds.
Qed.

Lemma capacity_retention_witness :
  max_fan_speeds
    (_parse_sensors_output fan1_min_only_line (tick init (Ok fan1_line)))
    !! L "fan1" = Some 3700%Z
  ∧ max_fan_speeds
      (tick (tick init (Ok fan1_line)) (Ok fan1_min_only_line))
      !! L "fan1" = Some 3700%Z.
Proof.
  apply (capacity_retention (L "fan1") 3700%Z (tick init (Ok fan1_line))
           fan1_min_only_line); by vm_compute.
Defined.

(** ** Stripping *)

Lemma rstrip_cons_nonspace c s :
  is_space c = false → rstrip (c :: s) = c :: rstrip s.
Proof. intros Hc. simpl. rewrite Hc. by destruct (rstrip s). Qed.

Lemma rstrip_app_nonspace a c s :
  is_space c = false → rstrip (a ++ c :: s) = a ++ c :: rstrip s.
Proof.
  intros Hc. induction a as [|x a IH].
  - by apply rstrip_cons_nonspace.
  - cbn [app rstrip]. rewrite IH. by destruct a.
Qed.

Lemma rstrip_prefix s : ∃ t, s = rstrip s ++ t.
Proof.
  induction s as [|c s [t IH]]; [by exists []|].
  simpl. destruct (rstrip s) as [|x r] eqn:Hr.
  - destruct (is_space c); [by exists (c :: s)|].
    exists t. simpl in IH. by rewrite <- IH.
  - exists t. rewrite IH at 1. done.
Qed.

Lemma lstrip_suffix s : ∃ t, s = t ++ lstrip s.
Proof.
  induction s as [|c s [t IH]]; [by exists []|].
  simpl. destruct (is_space c); [|by exists []].
  exists (c :: t). simpl. by rewrite <- IH.
Qed.

Lemma starts_with_app_l sub a t :
  starts_with sub a = true → starts_with sub (a ++ t) = true.
Proof.
  intros [r ->]%starts_with_inv. rewrite <- app_assoc.
  apply starts_with_app.
Qed.

Lemma contains_app_l sub a t :
  contains sub a = true → contains sub (a ++ t) = true.
Proof.
  induction a as [|c a IH].
  - rewrite (contains_unfold sub []), orb_false_r. intros H.
    rewrite contains_unfold. by rewrite (starts_with_app_l sub [] t H).
  - intros H. rewrite contains_unfold in H.
    apply orb_prop in H as [H|H]; rewrite contains_unfold.
    + by rewrite (starts_with_app_l sub (c :: a) t H).
    + simpl. rewrite IH by done. apply orb_true_r.
Qed.

Lemma contains_app_skip sub t s :
  contains sub s = true → contains sub (t ++ s) = true.
Proof.
  intros H. induction t as [|c t IH]; [done|].
  simpl. rewrite IH. apply orb_true_r.
Qed.

(** What is found in the stripped line is in the line. *)
Lemma contains_strip sub s :
  contains sub (strip s) = true → contains sub s = true.
Proof.
  unfold strip. intros H.
  destruct (lstrip_suffix s) as [t Ht].
  destruct (rstrip_prefix (lstrip s)) as [u Hu].
  rewrite Ht, Hu. by apply contains_app_skip, contains_app_l.
Qed.

Lemma contains_strip_false sub s :
  contains sub s = false → contains sub (strip s) = false.
Proof.
  intros H. destruct (contains sub (strip s)) eqn:Hs; [|done].
  apply contains_strip in Hs. congruence.
Qed.

Lemma is_space_lower_char c : is_space (lower_char c) = is_space c.
Proof. by destruct c as [[] [] [] [] [] [] [] []]. Qed.

Lemma lower_lstrip s : lower (lstrip s) = lstrip (lower s).
Proof.
  induction s as [|c s IH]; [done|].
  simpl. rewrite is_space_lower_char. by destruct (is_space c).
Qed.

Lemma lower_rstrip s : lower (rstrip s) = rstrip (lower s).
Proof.
  induction s as [|c s IH]; [done|].
  simpl. rewrite <- IH, is_space_lower_char.
  destruct (rstrip s); simpl; [by destruct (is_space c) | done].
Qed.

Lemma lower_strip s : lower (strip s) = strip (lower s).
Proof. unfold strip. by rewrite lower_rstrip, lower_lstrip. Qed.

(** ** Matching along the greedy path *)

Lemma star_then_greedy {A} p xs s (k : str -> option A) r :
  forallb p xs = true → stops p s = true → k s = Some r →
  star_then p (xs ++ s) k = Some r.
Proof.
  intros Hxs Hs Hk. induction xs as [|x xs IH].
  - destruct s as [|c s]; [done|].
    simpl in Hs. apply negb_true_iff in Hs. simpl. by rewrite Hs.
  - simpl in Hxs. apply andb_prop in Hxs as [Hx Hxs].
    simpl. by rewrite Hx, IH.
Qed.

Lemma plus_then_greedy {A} p xs s (k : str -> option A) r :
  xs ≠ [] → forallb p xs = true → stops p s = true → k s = Some r →
  plus_then p (xs ++ s) k = Some r.
Proof.
  intros Hne Hxs Hs Hk. destruct xs as [|x xs]; [done|].
  simpl in *. apply andb_prop in Hxs as [Hx Hxs]. rewrite Hx.
  by apply star_then_greedy.
Qed.

Lemma consumed_app a b : consumed (a ++ b) b = a.
Proof.
  unfold consumed. rewrite length_app.
  replace (length a + length b - length b)%nat with (length a) by lia.
  by rewrite take_app_length.
Qed.

Lemma rmatch_Seq {A} r1 r2 s g (k : str -> groups -> option A) :
  rmatch (Seq r1 r2) s g k = rmatch r1 s g (fun s' g' => rmatch r2 s' g' k).
Proof. reflexivity. Qed.

Lemma rmatch_Group {A} i r s g (k : str -> groups -> option A) :
  rmatch (Group i r) s g k
  = rmatch r s g (fun s' g' => k s' (<[i := Some (consumed s s')]> g')).
Proof. reflexivity. Qed.

Lemma rmatch_Lit {A} l s g (k : str -> groups -> option A) :
  rmatch (Lit l) (l ++ s) g k = k s g.
Proof. simpl. by rewrite strip_prefix_app. Qed.

Lemma rmatch_Plus {A} cl xs s g (k : str -> groups -> option A) r :
  xs ≠ [] → forallb (in_class cl) xs = true →
  stops (in_class cl) s = true → k s g = Some r →
  rmatch (Plus cl) (xs ++ s) g k = Some r.
Proof. intros. simpl. by apply plus_then_greedy. Qed.

Lemma search_at_start n r s g : match_at n r s = Some g → search n r s = Some g.
Proof. intros H. destruct s; simpl; by rewrite H. Qed.

(** One step of the matcher on a text that is written as the pattern
    reads. *)
Ltac re_step :=
  lazymatch goal with
  | |- rmatch (Seq _ _) _ _ _ = _ => rewrite rmatch_Seq
  | |- rmatch (Group _ _) _ _ _ = _ => rewrite rmatch_Group
  | |- rmatch (Lit _) _ _ _ = _ => rewrite rmatch_Lit; cbv beta
  | |- rmatch (Plus _) _ _ _ = _ =>
      apply rmatch_Plus; [assumption | assumption | reflexivity | cbv beta]
  end.

(** ** Decimal values *)

Lemma run_of_inv p s : run_of p s = true → s ≠ [] ∧ forallb p s = true.
Proof. by destruct s. Qed.

Lemma int_of_digits_nonneg s : forallb is_digit s = true → (0 <= int_of_digits s)%Z.
Proof.
  unfold int_of_digits.
  assert (H : ∀ acc, (0 <= acc)%Z → forallb is_digit s = true →
              (0 <= fold_left (λ acc c, acc * 10 + digit_val c) s acc)%Z).
  { induction s as [|c s IH]; intros acc Hacc Hs; [done|].
    simpl in *. apply andb_prop in Hs as [Hc Hs]. apply IH; [|done].
    unfold is_digit in Hc. apply andb_prop in Hc as [Hlo%N.leb_le _].
    unfold digit_val. lia. }
  by apply H.
Qed.

Lemma split_once_digits ip fp :
  forallb is_digit ip = true → split_once "." (ip ++ L "." ++ fp) = [ip; fp].
Proof.
  induction ip as [|c ip IH]; intros Hd; [done|].
  simpl in Hd. apply andb_prop in Hd as [Hc Hd].
  cbn [app split_once]. rewrite (IH Hd).
  destruct (eqb_char "." c) eqn:Hdot; [|done].
  apply eqb_char_eq in Hdot as <-. done.
Qed.

Lemma py_float_decimal ip fp :
  forallb is_digit ip = true →
  py_float (ip ++ L "." ++ fp)
  = Qred (Qmake (int_of_digits (ip ++ fp))
                (Z.to_pos (10 ^ Z.of_nat (length fp)))).
Proof. intros Hip. unfold py_float. by rewrite split_once_digits. Qed.

Lemma py_float_nonneg ip fp :
  forallb is_digit ip = true → forallb is_digit fp = true →
  (0 <= py_float (ip ++ L "." ++ fp))%Q.
Proof.
  intros Hip Hfp. rewrite py_float_decimal by done.
  rewrite Qred_correct. unfold Qle; simpl. rewrite Z.mul_1_r.
  apply int_of_digits_nonneg. rewrite forallb_app. by rewrite Hip, Hfp.
Qed.

Lemma core_re_match n ws ip fp rest :
  run_of is_digit n = true → decimal_shape ws ip fp = true →
  search 2 core_re (core_line n ws ip fp rest)
  = Some [Some (L "Core " ++ n); Some (ip ++ L "." ++ fp)].
Proof.
  intros [Hn0 Hn]%run_of_inv Hshape. unfold decimal_shape in Hshape.
  apply andb_prop in Hshape as [[Hws Hip]%andb_prop Hfp].
  apply run_of_inv in Hws as [Hws0 Hws].
  apply run_of_inv in Hip as [Hip0 Hip].
  apply run_of_inv in Hfp as [Hfp0 Hfp].
  apply search_at_start. unfold match_at, core_line, core_re, celsius.
  cbn [seq_of app replicate].
  repeat re_step.
  rewrite (app_assoc (L "Core ") n), consumed_app.
  rewrite (app_assoc ip (L ".")), (app_assoc (ip ++ L ".") fp), consumed_app.
  by rewrite <- app_assoc.
Qed.

(** ** Lines that end in [°C] and more *)

Lemma rstrip_degC a rest :
  rstrip ((a ++ degC) ++ rest) = (a ++ degC) ++ rstrip rest.
Proof.
  unfold degC.
  replace ((a ++ [deg; "C"%char]) ++ rest)
    with ((a ++ [deg]) ++ "C"%char :: rest) by by rewrite <- !app_assoc.
  rewrite rstrip_app_nonspace by done. by rewrite <- !app_assoc.
Qed.

Lemma contains_degC a rest : contains degC ((a ++ degC) ++ rest) = true.
Proof. rewrite <- app_assoc. apply contains_app_r. Qed.

Lemma strip_core_line n ws ip fp rest :
  strip (core_line n ws ip fp rest) = core_line n ws ip fp (rstrip rest).
Proof.
  unfold strip. change (lstrip (core_line n ws ip fp rest))
    with (core_line n ws ip fp rest).
  unfold core_line. rewrite !app_assoc. apply rstrip_degC.
Qed.

Lemma core_line_degC n ws ip fp rest :
  contains degC (core_line n ws ip fp rest) = true.
Proof. unfold core_line. rewrite !app_assoc. apply contains_degC. Qed.

Lemma parse_line_core st a n ws ip fp rest :
  run_of is_digit n = true → decimal_shape ws ip fp = true →
  contains (L "Adapter:") (core_line n ws ip fp rest) = false →
  parse_line (st, a) (core_line n ws ip fp rest)
  = (set_cpu_temps
       (Dict.set (cpu_temps st) (L "Core " ++ n) (py_float (ip ++ L "." ++ fp)))
       st, a).
Proof.
  intros Hn Hshape Hadapter. apply contains_strip_false in Hadapter.
  unfold parse_line, read_line. rewrite strip_core_line in *.
  rewrite Hadapter, core_line_degC, core_re_match by done.
  change (contains (L "Core") (core_line n ws ip fp (rstrip rest))) with true.
  reflexivity.
Qed.

(** ** C6 *)

(** C6, as the code has it.  A line
    [Core <digits>:<whitespace>+<digits>.<digits>°C<anything>] that does not
    contain [Adapter:] adds exactly one entry, to [cpu_temps]: its key is
    the label [Core <digits>] and its value is the decimal after the [+],
    which is not negative; nothing else changes.  The line of the scenario
    gives the single sample [Core 0], 45.0. *)
Theorem core_temperature_parse (st : SensorData) (a n ws ip fp rest : str)
    (Hn : run_of is_digit n = true)
    (Hshape : decimal_shape ws ip fp = true)
    (Hadapter : contains (L "Adapter:") (core_line n ws ip fp rest) = false) :
  parse_line (st, a) (core_line n ws ip fp rest)
  = (set_cpu_temps
       (Dict.set (cpu_temps st) (L "Core " ++ n) (py_float (ip ++ L "." ++ fp)))
       st, a)
  ∧ (0 <= py_float (ip ++ L "." ++ fp))%Q
  ∧ currents (snapshot core_scenario_line) = ([(L "Core 0", 45%Q)], [], [], []).
Proof.
  split_and!.
  - by apply parse_line_core.
  - unfold decimal_shape in Hshape.
    apply andb_prop in Hshape as [[_ Hip]%andb_prop Hfp].
    apply run_of_inv in Hip as [_ Hip]. apply run_of_inv in Hfp as [_ Hfp].
    by apply py_float_nonneg.
  - by vm_compute.
Qed.

Lemma core_temperature_parse_witness :
  parse_line (init, L "unknown")
    (core_line (L "0") (L "        ") (L "45") (L "0")
       (L "  (high = +80.0" ++ degC ++ L ", crit = +100.0" ++ degC ++ L ")"))
  = (set_cpu_temps
       (Dict.set (cpu_temps init) (L "Core " ++ L "0")
          (py_float (L "45" ++ L "." ++ L "0"))) init, L "unknown")
  ∧ (0 <= py_float (L "45" ++ L "." ++ L "0"))%Q
  ∧ currents (snapshot core_scenario_line) = ([(L "Core 0", 45%Q)], [], [], []).
Proof.
  apply (core_temperature_parse init (L "unknown") (L "0") (L "        ")
           (L "45") (L "0")
           (L "  (high = +80.0" ++ degC ++ L ", crit = +100.0" ++ degC
            ++ L ")")); by vm_compute.
Defined.

(** With a minus sign the line gives no sample. *)
Lemma core_minus_sign_no_sample :
  cpu_temps (snapshot core_minus_line) = []
  ∧ ¬ cpu_temps (snapshot core_minus_line)
      = [(L "Core 0", py_float (L "45.0"))].
Proof. split; [by vm_compute | by vm_compute]. Qed.

(** ** Storage temperature lines *)

Lemma taken_by_earlier_branch_strip raw :
  taken_by_earlier_branch raw = false →
  taken_by_earlier_branch (strip raw) = false.
Proof.
  intros H. destruct (taken_by_earlier_branch (strip raw)) eqn:Hs; [|done].
  rewrite <- H. symmetry. unfold taken_by_earlier_branch in *.
  rewrite lower_strip in Hs.
  repeat match type of Hs with
         | (_ || _) = true => apply orb_prop in Hs as [Hs|Hs]
         | (_ && _) = true => apply andb_prop in Hs as [Hs ?]
         end;
    repeat match goal with
           | H : contains _ (strip _) = true |- _ => apply contains_strip in H
           end;
    repeat match goal with
           | H : contains _ _ = true |- _ => rewrite H
           end;
    by rewrite ?orb_true_r.
Qed.

Lemma composite_re_match ws ip fp rest :
  decimal_shape ws ip fp = true →
  search 1 composite_re (composite_line ws ip fp rest)
  = Some [Some (ip ++ L "." ++ fp)].
Proof.
  intros Hshape. unfold decimal_shape in Hshape.
  apply andb_prop in Hshape as [[Hws Hip]%andb_prop Hfp].
  apply run_of_inv in Hws as [Hws0 Hws].
  apply run_of_inv in Hip as [Hip0 Hip].
  apply run_of_inv in Hfp as [Hfp0 Hfp].
  apply search_at_start.
  unfold match_at, composite_line, composite_re, celsius.
  cbn [seq_of app replicate].
  repeat re_step.
  rewrite (app_assoc ip (L ".")), (app_assoc (ip ++ L ".") fp), consumed_app.
  by rewrite <- app_assoc.
Qed.

Lemma strip_composite_line ws ip fp rest :
  strip (composite_line ws ip fp rest) = composite_line ws ip fp (rstrip rest).
Proof.
  unfold strip. change (lstrip (composite_line ws ip fp rest))
    with (composite_line ws ip fp rest).
  unfold composite_line. rewrite !app_assoc. apply rstrip_degC.
Qed.

Lemma composite_line_degC ws ip fp rest :
  contains degC (composite_line ws ip fp rest) = true.
Proof. unfold composite_line. rewrite !app_assoc. apply contains_degC. Qed.

Lemma parse_line_composite st a ws ip fp rest :
  decimal_shape ws ip fp = true →
  taken_by_earlier_branch (composite_line ws ip fp rest) = false →
  nvme_context a = true →
  parse_line (st, a) (composite_line ws ip fp rest)
  = (set_storage_temps
       (Dict.set (storage_temps st) (L "NVMe") (py_float (ip ++ L "." ++ fp)))
       st, a).
Proof.
  intros Hshape Hearlier Hnvme.
  apply taken_by_earlier_branch_strip in Hearlier.
  unfold taken_by_earlier_branch in Hearlier.
  rewrite strip_composite_line in Hearlier.
  rewrite composite_line_degC, !andb_true_r in Hearlier.
  apply orb_false_elim in Hearlier as [Hearlier Hfan].
  apply orb_false_elim in Hearlier as [Hearlier Hpackage].
  apply orb_false_elim in Hearlier as [Hadapter Hcore].
  unfold nvme_context in Hnvme.
  unfold parse_line, read_line. rewrite strip_composite_line.
  rewrite Hadapter, Hcore, Hpackage, Hfan, Hnvme, composite_line_degC,
    composite_re_match by done.
  change (contains (L "Composite") (composite_line ws ip fp (rstrip rest)))
    with true.
  reflexivity.
Qed.

Lemma parse_line_composite_ignored st a ws ip fp rest :
  taken_by_earlier_branch (composite_line ws ip fp rest) = false →
  nvme_context a = false →
  contains (L "temp") (lower (composite_line ws ip fp rest)) = false →
  parse_line (st, a) (composite_line ws ip fp rest) = (st, a).
Proof.
  intros Hearlier Hnvme Htemp.
  apply taken_by_earlier_branch_strip in Hearlier.
  unfold taken_by_earlier_branch in Hearlier.
  apply orb_false_elim in Hearlier as [Hearlier Hfan].
  apply orb_false_elim in Hearlier as [Hearlier Hpackage].
  apply orb_false_elim in Hearlier as [Hadapter Hcore].
  apply contains_strip_false in Htemp. rewrite <- lower_strip in Htemp.
  unfold nvme_context in Hnvme.
  unfold parse_line, read_line.
  rewrite Hadapter, Hcore, Hpackage, Hfan, Hnvme, Htemp.
  by destruct (strip (composite_line ws ip fp rest)).
Qed.

(** ** C8 *)

(** C8. Storage temperature gating.  Take a line
    [Composite:<whitespace>+<digits>.<digits>°C<anything>] that no earlier
    branch of the loop takes.  When the adapter context contains [nvme], in
    any letter case, the line sets the value of the one key [NVMe] of
    [storage_temps]; otherwise it leaves [storage_temps] as it is, and the
    whole object when the line has no [temp] in it.  The context is not
    changed.  A second such line under a context with [nvme] puts its value
    in the place of the first, under the same key. *)
Theorem storage_temperature_gating (st : SensorData) (a ws ip fp rest : str)
    (Hshape : decimal_shape ws ip fp = true)
    (Hearlier : taken_by_earlier_branch (composite_line ws ip fp rest)
                = false) :
  let after := parse_line (st, a) (composite_line ws ip fp rest) in
  (if nvme_context a
   then storage_temps after.1
        = Dict.set (storage_temps st) (L "NVMe")
                   (py_float (ip ++ L "." ++ fp))
        ∧ Dict.get (storage_temps after.1) (L "NVMe")
          = Some (py_float (ip ++ L "." ++ fp))
   else storage_temps after.1 = storage_temps st
        ∧ (contains (L "temp") (lower (composite_line ws ip fp rest)) = false
           → after = (st, a)))
  ∧ after.2 = a
  ∧ ∀ ws2 ip2 fp2 rest2,
      decimal_shape ws2 ip2 fp2 = true →
      taken_by_earlier_branch (composite_line ws2 ip2 fp2 rest2) = false →
      nvme_context a = true →
      storage_temps (parse_line after (composite_line ws2 ip2 fp2 rest2)).1
      = Dict.set (storage_temps st) (L "NVMe")
                 (py_float (ip2 ++ L "." ++ fp2)).
Proof.
  intros after. subst after. split_and!.
  - destruct (nvme_context a) eqn:Hnvme.
    + rewrite parse_line_composite by done. simpl.
      split; [done | apply get_set_eq].
    + split; [by apply parse_line_storage_gate|].
      intros Htemp. by apply parse_line_composite_ignored.
  - apply parse_line_not_adapter.
    apply taken_by_earlier_branch_strip in Hearlier.
    unfold taken_by_earlier_branch in Hearlier.
    by repeat apply orb_false_elim in Hearlier as [Hearlier _].
  - intros ws2 ip2 fp2 rest2 Hshape2 Hearlier2 Hnvme.
    rewrite (parse_line_composite st) by done.
    rewrite parse_line_composite by done. simpl. by rewrite set_set.
Qed.

Lemma storage_temperature_gating_witness :
  let a := L "nvme-pci-0100" in
  let rest := L "  (low  = -273.1" ++ degC ++ L ", high = +81.8" ++ degC
              ++ L ")" in
  let after :=
    parse_line (init, a) (composite_line (L "    ") (L "38") (L "9") rest) in
  (if nvme_context a
   then storage_temps after.1
        = Dict.set (storage_temps init) (L "NVMe")
                   (py_float (L "38" ++ L "." ++ L "9"))
        ∧ Dict.get (storage_temps after.1) (L "NVMe")
          = Some (py_float (L "38" ++ L "." ++ L "9"))
   else storage_temps after.1 = storage_temps init
        ∧ (contains (L "temp")
             (lower (composite_line (L "    ") (L "38") (L "9") rest)) = false
           → after = (init, a)))
  ∧ after.2 = a
  ∧ ∀ ws2 ip2 fp2 rest2,
      decimal_shape ws2 ip2 fp2 = true →
      taken_by_earlier_branch (composite_line ws2 ip2 fp2 rest2) = false →
      nvme_context a = true →
      storage_temps (parse_line after (composite_line ws2 ip2 fp2 rest2)).1
      = Dict.set (storage_temps init) (L "NVMe")
                 (py_float (ip2 ++ L "." ++ fp2)).
Proof.
  apply (storage_temperature_gating init (L "nvme-pci-0100") (L "    ")
           (L "38") (L "9")
           (L "  (low  = -273.1" ++ degC ++ L ", high = +81.8" ++ degC
            ++ L ")")); by vm_compute.
Defined.

Lemma rmatch_Opt_some {A} r s g (k : str -> groups -> option A) x :
  rmatch r s g k = Some x → rmatch (Opt r) s g k = Some x.
Proof. intros H. simpl. by rewrite H. Qed.

Lemma is_digit_not_space c : is_digit c = true → is_space c = false.
Proof. by destruct c as [[] [] [] [] [] [] [] []]. Qed.

Lemma stops_space_digits xs s :
  xs ≠ [] → forallb is_digit xs = true →
  stops (in_class Space) (xs ++ s) = true.
Proof.
  intros Hne Hxs. destruct xs as [|x xs]; [done|].
  simpl in *. apply andb_prop in Hxs as [Hx _].
  by rewrite (is_digit_not_space x Hx).
Qed.

Ltac re_step' :=
  lazymatch goal with
  | |- rmatch (Opt _) _ _ _ = _ => apply rmatch_Opt_some
  | |- rmatch (Plus _) _ _ _ = _ =>
      apply rmatch_Plus;
      [assumption | assumption
       | first [reflexivity | by apply stops_space_digits] | cbv beta]
  | _ => re_step
  end.

Lemma fan_re_match_clause n w1 speed w2 w3 w4 mn w5 w6 w7 mx rest :
  fan_clause_shape n w1 speed w2 w3 w4 mn w5 w6 w7 mx = true →
  search 3 fan_re (fan_clause_line n w1 speed w2 w3 w4 mn w5 w6 w7 mx rest)
  = Some [Some (L "fan" ++ n); Some speed; Some mx].
Proof.
  unfold fan_clause_shape. intros H.
  repeat match type of H with
         | (_ && _) = true => apply andb_prop in H as [H ?]
         end.
  repeat match goal with
         | H : run_of _ _ = true |- _ => apply run_of_inv in H as [? ?]
         end.
  apply search_at_start. unfold match_at, fan_clause_line, fan_re.
  cbn [seq_of app replicate].
  repeat re_step'.
  rewrite (app_assoc (L "fan") n), !consumed_app. done.
Qed.

Lemma rstrip_paren a rest :
  rstrip ((a ++ L " RPM)") ++ rest) = (a ++ L " RPM)") ++ rstrip rest.
Proof.
  replace ((a ++ L " RPM)") ++ rest)
    with ((a ++ L " RPM") ++ ")"%char :: rest) by by rewrite <- !app_assoc.
  rewrite rstrip_app_nonspace by done. by rewrite <- !app_assoc.
Qed.

Lemma strip_fan_clause_line n w1 speed w2 w3 w4 mn w5 w6 w7 mx rest :
  strip (fan_clause_line n w1 speed w2 w3 w4 mn w5 w6 w7 mx rest)
  = fan_clause_line n w1 speed w2 w3 w4 mn w5 w6 w7 mx (rstrip rest).
Proof.
  unfold strip.
  change (lstrip (fan_clause_line n w1 speed w2 w3 w4 mn w5 w6 w7 mx rest))
    with (fan_clause_line n w1 speed w2 w3 w4 mn w5 w6 w7 mx rest).
  unfold fan_clause_line. rewrite !app_assoc. apply rstrip_paren.
Qed.

Lemma fan_clause_line_RPM n w1 speed w2 w3 w4 mn w5 w6 w7 mx rest :
  contains (L "RPM") (fan_clause_line n w1 speed w2 w3 w4 mn w5 w6 w7 mx rest)
  = true.
Proof.
  unfold fan_clause_line.
  rewrite (app_assoc (L "fan")), (app_assoc _ (L ":")), (app_assoc _ w1),
    (app_assoc _ speed).
  change (L " RPM" ++ ?x) with (L " " ++ L "RPM" ++ x).
  rewrite (app_assoc _ (L " ")). apply contains_app_r.
Qed.

Lemma py_int_Ok s :
  (length s <= int_max_str_digits)%nat → py_int s = Ok (int_of_digits s).
Proof.
  intros Hs. unfold py_int. by rewrite (proj2 (Nat.ltb_ge _ _)).
Qed.

Lemma py_int_Raise s :
  (int_max_str_digits < length s)%nat → py_int s = Raise ValueError.
Proof.
  intros Hs. unfold py_int. by rewrite (proj2 (Nat.ltb_lt _ _)).
Qed.

(** Lines 103-109 on a fan line that has the clause: the speed is stored and
    then the capacity is set to the maximum of the clause, whatever it was;
    each of the two [int(...)] stops the body when its text is too long. *)
Lemma capacity_learned st a n w1 speed w2 w3 w4 mn w5 w6 w7 mx rest :
  let line := fan_clause_line n w1 speed w2 w3 w4 mn w5 w6 w7 mx rest in
  fan_clause_shape n w1 speed w2 w3 w4 mn w5 w6 w7 mx = true →
  contains (L "Adapter:") line = false →
  contains degC line = false →
  read_line (st, a) line
  = match py_int speed with
    | Raise e => ((st, a), Raise e)
    | Ok speed' =>
        let st1 :=
          set_fan_speeds (Dict.set (fan_speeds st) (L "fan" ++ n) speed') st in
        match py_int mx with
        | Raise e => ((st1, a), Raise e)
        | Ok mx' =>
            ((set_max_fan_speeds
                (<[L "fan" ++ n := mx']> (max_fan_speeds st)) st1, a), Ok tt)
        end
    end.
Proof.
  intros line Hshape Hadapter Hdeg. subst line.
  apply contains_strip_false in Hadapter, Hdeg.
  assert (Hmx : mx ≠ []).
  { unfold fan_clause_shape in Hshape.
    apply andb_prop in Hshape as [_ Hmx]. by destruct mx. }
  unfold read_line. rewrite strip_fan_clause_line in *.
  rewrite Hadapter, Hdeg, !andb_false_r, fan_clause_line_RPM,
    fan_re_match_clause by done.
  change (contains (L "fan") (lower (fan_clause_line n w1 speed w2 w3 w4 mn
                                       w5 w6 w7 mx (rstrip rest))))
    with true.
  destruct mx as [|c mx]; [done|].
  change (group_text [Some (L "fan" ++ n); Some speed; Some (c :: mx)] 1)
    with speed.
  destruct (py_int speed) as [speed'|e]; [|reflexivity].
  change (group [Some (L "fan" ++ n); Some speed; Some (c :: mx)] 2)
    with (Some (c :: mx)).
  cbv iota beta. by destruct (py_int (c :: mx)).
Qed.

(** ** Where the matcher can fail, and what a match went through *)

(** The matcher calls its continuation on suffixes of the text only: when
    the continuation fails on all of them, the match fails. *)
Lemma star_then_None {A} p s (k : str -> option A) :
  (∀ t, t `suffix_of` s → k t = None) → star_then p s k = None.
Proof.
  induction s as [|c s IH]; intros Hk; simpl.
  - by apply Hk.
  - rewrite IH.
    + rewrite Hk by done. by destruct (p c).
    + intros t Ht. apply Hk. by apply suffix_cons_r.
Qed.

Lemma plus_then_None {A} p s (k : str -> option A) :
  (∀ t, t `suffix_of` s → k t = None) → plus_then p s k = None.
Proof.
  intros Hk. destruct s as [|c s]; simpl; [done|].
  destruct (p c); [|done]. apply star_then_None.
  intros t Ht. apply Hk. by apply suffix_cons_r.
Qed.

Lemma strip_prefix_suffix p s r : strip_prefix p s = Some r → r `suffix_of` s.
Proof. intros ->%strip_prefix_Some. by apply suffix_app_r. Qed.

Lemma rmatch_None {A} r s g (k : str -> groups -> option A) :
  (∀ t g', t `suffix_of` s → k t g' = None) → rmatch r s g k = None.
Proof.
  revert s g k. induction r as [l|cl|r1 IH1 r2 IH2|i r IH|r IH];
    intros s g k Hk; simpl.
  - destruct (strip_prefix l s) as [s'|] eqn:Hs; [|done].
    apply Hk. by eapply strip_prefix_suffix.
  - apply plus_then_None. intros t Ht. by apply Hk.
  - apply IH1. intros t g' Ht. apply IH2. intros u g'' Hu.
    apply Hk. by etrans.
  - apply IH. intros t g' Ht. by apply Hk.
  - rewrite IH by done. by apply Hk.
Qed.

Lemma star_then_Some {A} p s (k : str -> option A) x :
  star_then p s k = Some x → ∃ t, t `suffix_of` s ∧ k t = Some x.
Proof.
  induction s as [|c s IH]; simpl.
  - intros H. by exists [].
  - destruct (p c).
    + destruct (star_then p s k) as [y|] eqn:Hs.
      * intros [= ->]. destruct (IH eq_refl) as (t & Ht & Hk).
        exists t. split; [by apply suffix_cons_r | done].
      * intros H. by exists (c :: s).
    + intros H. by exists (c :: s).
Qed.

Lemma plus_then_Some {A} p s (k : str -> option A) x :
  plus_then p s k = Some x → ∃ t, t `suffix_of` s ∧ k t = Some x.
Proof.
  destruct s as [|c s]; simpl; [done|]. destruct (p c); [|done].
  intros (t & Ht & Hk)%star_then_Some.
  exists t. split; [by apply suffix_cons_r | done].
Qed.

(** A match ends in a call of the continuation, on a suffix of the text and
    with the groups the pattern does not write as they were. *)
Lemma rmatch_Some {A} r s g (k : str -> groups -> option A) x :
  rmatch r s g k = Some x →
  ∃ t g', t `suffix_of` s ∧ k t g' = Some x
          ∧ ∀ i, writes r i = false → g' !! i = g !! i.
Proof.
  revert s g k x. induction r as [l|cl|r1 IH1 r2 IH2|j r IH|r IH];
    intros s g k x; simpl.
  - destruct (strip_prefix l s) as [s'|] eqn:Hs; [|done].
    intros Hk. exists s', g. split_and!; [|done..].
    by eapply strip_prefix_suffix.
  - intros (t & Ht & Hk)%plus_then_Some. by exists t, g.
  - intros (t & g1 & Ht & Hk & Hg1)%IH1.
    apply IH2 in Hk as (u & g2 & Hu & Hk & Hg2).
    exists u, g2. split_and!; [by etrans | done |].
    intros i [Hi1 Hi2]%orb_false_elim. by rewrite Hg2, Hg1.
  - intros (t & g1 & Ht & Hk & Hg1)%IH.
    eexists t, _. split_and!; [done | done |].
    intros i [Hji Hi]%orb_false_elim.
    apply bool_decide_eq_false in Hji.
    rewrite list_lookup_insert_ne by done. by apply Hg1.
  - destruct (rmatch r s g k) as [y|] eqn:Hr.
    + intros [= ->]. by apply IH in Hr.
    + intros Hk. by exists s, g.
Qed.

Lemma search_Some n r s g :
  search n r s = Some g → ∃ t, t `suffix_of` s ∧ match_at n r t = Some g.
Proof.
  induction s as [|c s IH]; simpl.
  - destruct (match_at n r []) eqn:Hm; [|done]. intros [= ->]. by exists [].
  - destruct (match_at n r (c :: s)) eqn:Hm.
    + intros [= ->]. by exists (c :: s).
    + intros (t & Ht & Hg)%IH. exists t. split; [by apply suffix_cons_r|done].
Qed.

Lemma search_None n r s :
  (∀ t, t `suffix_of` s → match_at n r t = None) → search n r s = None.
Proof.
  induction s as [|c s IH]; intros H; simpl.
  - by rewrite H.
  - rewrite H by done. apply IH. intros t Ht. apply H. by apply suffix_cons_r.
Qed.

Lemma contains_suffix sub t s :
  t `suffix_of` s → contains sub t = true → contains sub s = true.
Proof. intros [u ->] H. by apply contains_app_skip. Qed.

Lemma rmatch_Lit_absent {A} l s t g (k : str -> groups -> option A) :
  contains l s = false → t `suffix_of` s → rmatch (Lit l) t g k = None.
Proof.
  intros Hc Ht. simpl. destruct (strip_prefix l t) as [u|] eqn:Hu; [|done].
  apply strip_prefix_Some in Hu as ->.
  rewrite (contains_suffix l (l ++ u) s Ht) in Hc; [done|].
  apply (contains_app_r l [] u).
Qed.

Lemma rmatch_Opt {A} r s g (k : str -> groups -> option A) :
  rmatch (Opt r) s g k
  = match rmatch r s g k with Some x => Some x | None => k s g end.
Proof. reflexivity. Qed.

(** A line without [max] is matched, if at all, without the third group. *)
Lemma fan_re_no_max s g :
  contains (L "max") s = false → search 3 fan_re s = Some g → group g 2 = None.
Proof.
  intros Hmax (t & Ht & Hm)%search_Some.
  unfold match_at, fan_re in Hm. cbn [seq_of replicate] in Hm.
  rewrite rmatch_Seq in Hm.
  apply rmatch_Some in Hm as (t1 & g1 & Ht1 & Hm & Hg1).
  rewrite rmatch_Seq in Hm.
  apply rmatch_Some in Hm as (t2 & g2 & Ht2 & Hm & Hg2).
  rewrite rmatch_Seq in Hm.
  apply rmatch_Some in Hm as (t3 & g3 & Ht3 & Hm & Hg3).
  rewrite rmatch_Seq in Hm.
  apply rmatch_Some in Hm as (t4 & g4 & Ht4 & Hm & Hg4).
  rewrite rmatch_Seq in Hm.
  apply rmatch_Some in Hm as (t5 & g5 & Ht5 & Hm & Hg5).
  rewrite rmatch_Seq in Hm.
  apply rmatch_Some in Hm as (t6 & g6 & Ht6 & Hm & Hg6).
  assert (Ht6s : t6 `suffix_of` s).
  { do 6 (etrans; [eassumption|]). done. }
  assert (Hg : g6 !! 2%nat = Some None).
  { rewrite Hg6, Hg5, Hg4, Hg3, Hg2, Hg1 by done. done. }
  rewrite rmatch_Opt in Hm.
  match type of Hm with
  | match ?m with _ => _ end = _ => assert (Hinner : m = None)
  end.
  { do 7 (rewrite rmatch_Seq; apply rmatch_None; intros ? ? ?).
    rewrite rmatch_Seq. apply (rmatch_Lit_absent _ s); [done|].
    do 7 (etrans; [eassumption|]). done. }
  rewrite Hinner in Hm. injection Hm as <-.
  unfold group. by rewrite Hg.
Qed.

(** A line that does not contain [max] lacks the max-RPM clause. *)
Lemma no_max_lacks_clause fan raw :
  contains (L "max") raw = false → lacks_max_clause fan raw = true.
Proof.
  intros Hmax%contains_strip_false. unfold lacks_max_clause.
  destruct (search 3 fan_re (strip raw)) as [g|] eqn:Hs; [|done].
  by rewrite (fan_re_no_max _ _ Hmax Hs).
Qed.

(** ** Fan lines without a clause *)

Lemma rstrip_spaces s : forallb is_space s = true → rstrip s = [].
Proof.
  induction s as [|c s IH]; [done|]. simpl.
  intros [Hc Hs]%andb_prop. by rewrite IH, Hc.
Qed.

Lemma strip_fan_bare_line n ws speed trailing :
  forallb is_space trailing = true →
  strip (fan_bare_line n ws speed trailing) = fan_bare_line n ws speed [].
Proof.
  intros Htr. unfold strip.
  change (lstrip (fan_bare_line n ws speed trailing))
    with (fan_bare_line n ws speed trailing).
  unfold fan_bare_line.
  replace (L "fan" ++ n ++ L ":" ++ ws ++ speed ++ L " RPM" ++ trailing)
    with ((L "fan" ++ n ++ L ":" ++ ws ++ speed ++ L " RP")
          ++ "M"%char :: trailing) by by rewrite <- !app_assoc.
  rewrite rstrip_app_nonspace by done.
  rewrite (rstrip_spaces _ Htr). by rewrite <- !app_assoc.
Qed.

Lemma lacks_char_digits c s :
  is_digit c = false → forallb is_digit s = true → lacks_char c s = true.
Proof.
  intros Hc. induction s as [|x s IH]; [done|]. simpl.
  intros [Hx Hs]%andb_prop. rewrite IH by done.
  destruct (eqb_char c x) eqn:Hcx; [|done].
  apply eqb_char_eq in Hcx as ->. congruence.
Qed.

Lemma lacks_char_spaces c s :
  is_space c = false → forallb is_space s = true → lacks_char c s = true.
Proof.
  intros Hc. induction s as [|x s IH]; [done|]. simpl.
  intros [Hx Hs]%andb_prop. rewrite IH by done.
  destruct (eqb_char c x) eqn:Hcx; [|done].
  apply eqb_char_eq in Hcx as ->. congruence.
Qed.

Lemma lacks_char_app c s1 s2 :
  lacks_char c (s1 ++ s2) = lacks_char c s1 && lacks_char c s2.
Proof. apply forallb_app. Qed.

Lemma starts_with_lacks_char c sub s :
  c ∈ sub → lacks_char c s = true → starts_with sub s = false.
Proof.
  intros Hin Hs. destruct (starts_with sub s) eqn:Hsw; [|done].
  apply starts_with_inv in Hsw as [r ->].
  rewrite lacks_char_app in Hs. apply andb_prop in Hs as [Hs _].
  apply list_elem_of_In in Hin. unfold lacks_char in Hs.
  rewrite forallb_forall in Hs. specialize (Hs c Hin).
  by rewrite eqb_char_refl in Hs.
Qed.

(** A text that lacks a character of [sub] does not contain [sub]. *)
Lemma contains_lacks_char c sub s :
  c ∈ sub → lacks_char c s = true → contains sub s = false.
Proof.
  intros Hin. induction s as [|x s IH]; intros Hs.
  - rewrite contains_unfold, orb_false_r.
    by apply (starts_with_lacks_char c).
  - rewrite contains_unfold, (starts_with_lacks_char c) by done.
    simpl in Hs. apply andb_prop in Hs as [_ Hs]. by apply IH.
Qed.

Lemma fan_bare_line_lacks c n ws speed :
  is_digit c = false → is_space c = false →
  lacks_char c (L "fan:RPM") = true →
  run_of is_digit n = true → run_of is_space ws = true →
  run_of is_digit speed = true →
  lacks_char c (fan_bare_line n ws speed []) = true.
Proof.
  intros Hd Hs Hc [_ Hn]%run_of_inv [_ Hws]%run_of_inv [_ Hsp]%run_of_inv.
  unfold fan_bare_line. rewrite !lacks_char_app.
  rewrite (lacks_char_digits c n), (lacks_char_digits c speed),
    (lacks_char_spaces c ws) by done.
  change (L "fan:RPM") with (L "fan" ++ L ":" ++ L "RPM") in Hc.
  rewrite !lacks_char_app in Hc.
  apply andb_prop in Hc as [H1 [H2 H3]%andb_prop].
  change (L " RPM") with (L " " ++ L "RPM").
  rewrite lacks_char_app, H1, H2, H3.
  assert (lacks_char c (L " ") = true) as ->; [|done].
  simpl. destruct (eqb_char c " ") eqn:E; [|done].
  apply eqb_char_eq in E as ->. done.
Qed.

(** In a text that has no [R] before its final [ RPM], that is the only
    place where [ RPM] is read. *)
Lemma RPM_at_end_only x u u' :
  lacks_char "R" x = true →
  u `suffix_of` x ++ L " RPM" → u = L " RPM" ++ u' → u' = [].
Proof.
  intros Hx Hu ->. induction x as [|c x IH].
  - apply suffix_length in Hu. rewrite length_app in Hu.
    destruct u'; [done | simpl in Hu; lia].
  - simpl in Hx. apply andb_prop in Hx as [Hc Hx].
    change ((c :: x) ++ L " RPM") with (c :: (x ++ L " RPM")) in Hu.
    apply suffix_cons_inv in Hu as [Hu|Hu]; [|by apply IH].
    exfalso. injection Hu as <- Hu.
    destruct x as [|y x]; [done|].
    injection Hu as <- _. by simpl in Hx.
Qed.

(** No bare fan line is matched by the pattern of line 101: after [RPM] the
    pattern asks for whitespace, and the stripped line has none. *)
Lemma fan_re_bare_line n ws speed :
  run_of is_digit n = true → run_of is_space ws = true →
  run_of is_digit speed = true →
  search 3 fan_re (fan_bare_line n ws speed []) = None.
Proof.
  intros Hn Hws Hsp.
  assert (HR : lacks_char "R" (L "fan" ++ n ++ L ":" ++ ws ++ speed) = true).
  { apply run_of_inv in Hn as [_ Hn]. apply run_of_inv in Hws as [_ Hws].
    apply run_of_inv in Hsp as [_ Hsp]. rewrite !lacks_char_app.
    rewrite (lacks_char_digits "R" n), (lacks_char_digits "R" speed),
      (lacks_char_spaces "R" ws) by done. done. }
  assert (Hline : fan_bare_line n ws speed []
                  = (L "fan" ++ n ++ L ":" ++ ws ++ speed) ++ L " RPM").
  { unfold fan_bare_line. by rewrite <- !app_assoc, app_nil_r. }
  apply search_None. intros t Ht. unfold match_at, fan_re.
  cbn [seq_of replicate].
  rewrite rmatch_Seq. apply rmatch_None. intros t1 g1 Ht1.
  rewrite rmatch_Seq. apply rmatch_None. intros t2 g2 Ht2.
  rewrite rmatch_Seq. apply rmatch_None. intros t3 g3 Ht3.
  rewrite rmatch_Seq. apply rmatch_None. intros t4 g4 Ht4.
  rewrite rmatch_Seq. cbn [rmatch].
  destruct (strip_prefix (L " RPM") t4) as [u'|] eqn:Hu'; [|done].
  apply strip_prefix_Some in Hu'.
  assert (u' = []) as ->; [|done].
  apply (RPM_at_end_only _ t4 u' HR); [|done].
  rewrite <- Hline. do 4 (etrans; [eassumption|]). done.
Qed.

Ltac char_in :=
  by repeat first [apply list_elem_of_here | apply list_elem_of_further].

(** Lines 99-102 on a bare fan line: nothing is stored for the fan. *)
Lemma bare_fan_line_ignored st a n ws speed trailing :
  fan_bare_shape n ws speed trailing = true →
  parse_line (st, a) (fan_bare_line n ws speed trailing) = (st, a).
Proof.
  unfold fan_bare_shape.
  intros [[[Hn Hws]%andb_prop Hsp]%andb_prop Htr]%andb_prop.
  assert (HA : contains (L "Adapter:") (fan_bare_line n ws speed []) = false).
  { apply (contains_lacks_char "A"); [char_in|].
    by apply fan_bare_line_lacks. }
  assert (HC : contains (L "Core") (fan_bare_line n ws speed []) = false).
  { apply (contains_lacks_char "C"); [char_in|].
    by apply fan_bare_line_lacks. }
  assert (HP : contains (L "Package id") (fan_bare_line n ws speed [])
               = false).
  { apply (contains_lacks_char "k"); [char_in|].
    by apply fan_bare_line_lacks. }
  assert (HRPM : contains (L "RPM") (fan_bare_line n ws speed []) = true).
  { unfold fan_bare_line.
    rewrite (app_assoc (L "fan")), (app_assoc _ (L ":")), (app_assoc _ ws),
      (app_assoc _ speed).
    change (L " RPM" ++ ?x) with (L " " ++ L "RPM" ++ x).
    rewrite (app_assoc _ (L " ")). apply contains_app_r. }
  unfold parse_line, read_line. rewrite strip_fan_bare_line by done.
  rewrite HA, HC, HP, HRPM, fan_re_bare_line by done.
  reflexivity.
Qed.

(** ** Fans *)

(** The percentage, where the capacity is not zero and the quotient is
    within the floats, is [min(100, 100 * speed / capacity)] with the
    capacity of [max_fan_speeds], or 4000 for a fan that has none. *)
Lemma fan_percentage_formula st fan speed :
  let capacity := default 4000%Z (max_fan_speeds st !! fan) in
  capacity ≠ 0%Z →
  (Z.abs speed < float_overflow * Z.abs capacity)%Z →
  ∃ p, fan_percentage st fan speed = Ok p
       ∧ (p == Qmin 100 (100 * inject_Z speed / inject_Z capacity))%Q.
Proof.
  intros capacity Hne Hrange. unfold fan_percentage. fold capacity.
  rewrite (proj2 (Z.eqb_neq _ _)) by done.
  rewrite (proj2 (Z.leb_gt _ _)) by done.
  eexists; split; [done|].
  assert (H : (inject_Z speed / inject_Z capacity * 100
               == 100 * inject_Z speed / inject_Z capacity)%Q).
  { field. unfold Qeq, inject_Z; simpl. lia. }
  by rewrite H.
Qed.

(** With a capacity of zero there is no percentage: the division raises. *)
Lemma fan_percentage_zero_capacity :
  let st := tick init (Ok fan1_max_zero_line) in
  max_fan_speeds st !! L "fan1" = Some 0%Z
  ∧ _update_fan_indicators st = Raise ZeroDivisionError.
Proof. split; by vm_compute. Qed.

(** The scenario of the fan with a max-RPM clause. *)
Lemma fan1_scenario :
  let st := tick init (Ok fan1_line) in
  fan_speeds st = [(L "fan1", 2125%Z)]
  ∧ max_fan_speeds st !! L "fan1" = Some 3700%Z
  ∧ ∃ p, _update_fan_indicators st = Ok [(L "fan1", 2125%Z, p)]
         ∧ (574 # 10 <= p)%Q ∧ (p < 575 # 10)%Q.
Proof.
  split_and!; [by vm_compute | by vm_compute |].
  eexists. split_and!; [by vm_compute | by vm_compute | by vm_compute].
Qed.

(** A speed of 1000 for a fan without a capacity is 25 percent: lines
    294-295 are as the formula has it. *)
Lemma fan2_default_percentage :
  ∃ p, fan_percentage init (L "fan2") 1000 = Ok p ∧ (p == 25)%Q.
Proof. eexists. split; [reflexivity | by vm_compute]. Qed.

(** ** C7 *)

(** C7, at the line [fan2:        1000 RPM] of the scenario, read by a new
    object.  The pattern of line 101 asks for whitespace after [RPM], and
    the stripped line ends there: the line is not matched (as no bare fan
    line is, [bare_fan_line_ignored]).  The call gives no speed for [fan2],
    no capacity (not the default 4000 either), no history and no
    percentage, where the scenario has 25.0 percent. *)
Theorem fan_without_clause_not_parsed :
  let st := tick init (Ok fan2_line) in
  search 3 fan_re (strip fan2_line) = None
  ∧ fan_speeds st = []
  ∧ max_fan_speeds st !! L "fan2" = None
  ∧ fan_speed_history st !! L "fan2" = None
  ∧ _update_fan_indicators st = Ok [].
Proof. split_and!; by vm_compute. Qed.

(** * Properties of the rest of the code *)

(** ** The matcher finds matches only *)

Lemma star_then_run {A} p s (k : str -> option A) x :
  star_then p s k = Some x →
  ∃ xs t, s = xs ++ t ∧ forallb p xs = true ∧ k t = Some x.
Proof.
  induction s as [|c s IH]; simpl.
  - intros H. by exists [], [].
  - destruct (p c) eqn:Hc.
    + destruct (star_then p s k) as [y|] eqn:Hs.
      * intros [= ->]. destruct (IH eq_refl) as (xs & t & -> & Hxs & Hk).
        exists (c :: xs), t. simpl. by rewrite Hc, Hxs.
      * intros H. by exists [], (c :: s).
    + intros H. by exists [], (c :: s).
Qed.

Lemma plus_then_run {A} p s (k : str -> option A) x :
  plus_then p s k = Some x →
  ∃ xs t, s = xs ++ t ∧ xs ≠ [] ∧ forallb p xs = true ∧ k t = Some x.
Proof.
  destruct s as [|c s]; simpl; [done|]. destruct (p c) eqn:Hc; [|done].
  intros (xs & t & -> & Hxs & Hk)%star_then_run.
  exists (c :: xs), t. simpl. by rewrite Hc, Hxs.
Qed.

(** Soundness of [rmatch]: a result comes from the continuation, called
    where a match of the pattern ends. *)
Lemma rmatch_matches {A} r s g (k : str -> groups -> option A) x :
  rmatch r s g k = Some x →
  ∃ t g', matches r s t g g' ∧ k t g' = Some x.
Proof.
  revert s g k x. induction r as [l|cl|r1 IH1 r2 IH2|i r IH|r IH];
    intros s g k x; simpl.
  - destruct (strip_prefix l s) as [s'|] eqn:Hs; [|done].
    apply strip_prefix_Some in Hs as ->. intros Hk.
    exists s', g. split; [constructor | done].
  - intros (xs & t & -> & Hne & Hxs & Hk)%plus_then_run.
    exists t, g. split; [by constructor | done].
  - intros (t & g1 & Hm1 & Hk)%IH1.
    apply IH2 in Hk as (u & g2 & Hm2 & Hk).
    exists u, g2. split; [by econstructor | done].
  - intros (t & g1 & Hm & Hk)%IH.
    eexists t, _. split; [by constructor | done].
  - destruct (rmatch r s g k) as [y|] eqn:Hr.
    + intros [= ->]. apply IH in Hr as (t & g1 & Hm & Hk).
      exists t, g1. split; [by apply matches_Opt_taken | done].
    + intros Hk. exists s, g. split; [apply matches_Opt_skipped | done].
Qed.

Lemma search_matches n r s g :
  search n r s = Some g →
  ∃ pre t u, s = pre ++ t ∧ matches r t u (replicate n None) g.
Proof.
  induction s as [|c s IH]; simpl.
  - destruct (match_at n r []) eqn:Hm; [|done]. intros [= ->].
    apply rmatch_matches in Hm as (u & g' & Hm & [= ->]).
    by exists [], [], u.
  - destruct (match_at n r (c :: s)) eqn:Hm.
    + intros [= ->]. apply rmatch_matches in Hm as (u & g' & Hm & [= ->]).
      by exists [], (c :: s), u.
    + intros (pre & t & u & -> & Hm')%IH. by exists (c :: pre), t, u.
Qed.

(** Inversion of [matches], one constructor of the pattern at a time. *)
Ltac matches_inv :=
  repeat match goal with
         | H : matches (Seq _ _) _ _ _ _ |- _ => inversion H; subst; clear H
         | H : matches (Group _ _) _ _ _ _ |- _ => inversion H; subst; clear H
         | H : matches (Lit _) _ _ _ _ |- _ => inversion H; subst; clear H
         | H : matches (Plus _) _ _ _ _ |- _ => inversion H; subst; clear H
         | H : matches (Opt _) _ _ _ _ |- _ => inversion H; subst; clear H
         end.

Lemma run_of_intro p s : s ≠ [] → forallb p s = true → run_of p s = true.
Proof. by destruct s. Qed.

Lemma consumed_eq s a b : s = a ++ b → consumed s b = a.
Proof. intros ->. apply consumed_app. Qed.

Ltac consumed_is a :=
  rewrite (consumed_eq _ a) by (by rewrite <- ?app_assoc).

(** What the patterns capture, and where: the line has the shape the
    pattern is written for, after any text. *)
Lemma core_re_groups line g :
  search 2 core_re line = Some g →
  ∃ pre n ws ip fp rest,
    run_of is_digit n = true ∧ decimal_shape ws ip fp = true
    ∧ line = pre ++ core_line n ws ip fp rest
    ∧ g = [Some (L "Core " ++ n); Some (ip ++ L "." ++ fp)].
Proof.
  intros (pre & t & u & -> & Hm)%search_matches.
  unfold core_re, celsius in Hm. cbn [seq_of app replicate] in Hm.
  matches_inv.
  match goal with
  | |- context [<[0:=Some (consumed (_ ++ ?n ++ _ ++ ?ws ++ _ ++ ?ip ++ _
                                        ++ ?fp ++ _ ++ ?rest) _)]> _] =>
      exists pre, n, ws, ip, fp, rest;
      consumed_is (ip ++ L "." ++ fp); consumed_is (L "Core " ++ n)
  end.
  unfold decimal_shape. rewrite !run_of_intro by done. done.
Qed.

Lemma package_re_groups line g :
  search 2 package_re line = Some g →
  ∃ pre n ws ip fp rest,
    run_of is_digit n = true ∧ decimal_shape ws ip fp = true
    ∧ line = pre ++ L "Package id " ++ n ++ L ":" ++ ws ++ L "+" ++ ip
             ++ L "." ++ fp ++ degC ++ rest
    ∧ g = [Some (L "Package id " ++ n); Some (ip ++ L "." ++ fp)].
Proof.
  intros (pre & t & u & -> & Hm)%search_matches.
  unfold package_re, celsius in Hm. cbn [seq_of app replicate] in Hm.
  matches_inv.
  match goal with
  | |- context [<[0:=Some (consumed (_ ++ ?n ++ _ ++ ?ws ++ _ ++ ?ip ++ _
                                        ++ ?fp ++ _ ++ ?rest) _)]> _] =>
      exists pre, n, ws, ip, fp, rest;
      consumed_is (ip ++ L "." ++ fp); consumed_is (L "Package id " ++ n)
  end.
  unfold decimal_shape. rewrite !run_of_intro by done. done.
Qed.

Lemma temp_re_groups line g :
  search 2 temp_re line = Some g →
  ∃ pre n ws ip fp rest,
    run_of is_digit n = true ∧ decimal_shape ws ip fp = true
    ∧ line = pre ++ L "temp" ++ n ++ L ":" ++ ws ++ L "+" ++ ip
             ++ L "." ++ fp ++ degC ++ rest
    ∧ g = [Some (L "temp" ++ n); Some (ip ++ L "." ++ fp)].
Proof.
  intros (pre & t & u & -> & Hm)%search_matches.
  unfold temp_re, celsius in Hm. cbn [seq_of app replicate] in Hm.
  matches_inv.
  match goal with
  | |- context [<[0:=Some (consumed (_ ++ ?n ++ _ ++ ?ws ++ _ ++ ?ip ++ _
                                        ++ ?fp ++ _ ++ ?rest) _)]> _] =>
      exists pre, n, ws, ip, fp, rest;
      consumed_is (ip ++ L "." ++ fp); consumed_is (L "temp" ++ n)
  end.
  unfold decimal_shape. rewrite !run_of_intro by done. done.
Qed.

Lemma composite_re_groups line g :
  search 1 composite_re line = Some g →
  ∃ pre ws ip fp rest,
    decimal_shape ws ip fp = true
    ∧ line = pre ++ composite_line ws ip fp rest
    ∧ g = [Some (ip ++ L "." ++ fp)].
Proof.
  intros (pre & t & u & -> & Hm)%search_matches.
  unfold composite_re, celsius in Hm. cbn [seq_of app replicate] in Hm.
  matches_inv.
  match goal with
  | |- context [<[0:=Some (consumed (?ip ++ _ ++ ?fp ++ _ ++ ?rest) _)]> _] =>
      match goal with
      | H : forallb (in_class Space) ?ws = true |- _ =>
          exists pre, ws, ip, fp, rest
      end;
      consumed_is (ip ++ L "." ++ fp)
  end.
  unfold decimal_shape. rewrite !run_of_intro by done. done.
Qed.

Lemma fan_re_groups line g :
  search 3 fan_re line = Some g →
  ∃ n speed mx,
    run_of is_digit n = true ∧ run_of is_digit speed = true
    ∧ from_option (run_of is_digit) true mx = true
    ∧ g = [Some (L "fan" ++ n); Some speed; mx].
Proof.
  intros (pre & t & u & -> & Hm)%search_matches.
  unfold fan_re in Hm. cbn [seq_of app replicate] in Hm.
  matches_inv.
  - match goal with
    | |- context [<[2:=Some (consumed (?mx ++ _) _)]>
                    (<[1:=Some (consumed (?speed ++ _) _)]>
                       (<[0:=Some (consumed (_ ++ ?n ++ _) _)]> _))] =>
        exists n, speed, (Some mx);
        consumed_is mx; consumed_is speed; consumed_is (L "fan" ++ n)
    end.
    simpl. rewrite !run_of_intro by done. done.
  - match goal with
    | |- context [<[1:=Some (consumed (?speed ++ _) _)]>
                    (<[0:=Some (consumed (_ ++ ?n ++ _) _)]> _)] =>
        exists n, speed, None;
        consumed_is speed; consumed_is (L "fan" ++ n)
    end.
    simpl. rewrite !run_of_intro by done. done.
Qed.

(** ** Keys and values that parsing can give *)

Lemma Forall_set {V} (P : str * V -> Prop) (d : dict V) k v :
  Forall P d → P (k, v) → Forall P (Dict.set d k v).
Proof.
  intros Hd Hkv. induction d as [|[k0 v0] d IH]; simpl.
  - by constructor.
  - apply Forall_cons in Hd as [H0 Hd].
    destruct (decide (k0 = k)) as [->|Hne]; constructor; auto.
Qed.

Lemma get_Some_elem {V} (d : dict V) k v : Dict.get d k = Some v → (k, v) ∈ d.
Proof.
  induction d as [|[k0 v0] d IH]; simpl; [done|].
  destruct (decide (k0 = k)) as [->|Hne].
  - intros [= ->]. by left.
  - intros H. right. by apply IH.
Qed.

Lemma cpu_key_Core n : run_of is_digit n = true → cpu_key (L "Core " ++ n) = true.
Proof. intros Hn. unfold cpu_key. by rewrite strip_prefix_app. Qed.

Lemma cpu_key_Package n :
  run_of is_digit n = true → cpu_key (L "Package id " ++ n) = true.
Proof. intros Hn. unfold cpu_key. by rewrite strip_prefix_app. Qed.

Lemma fan_key_fan n : run_of is_digit n = true → fan_key (L "fan" ++ n) = true.
Proof. intros Hn. unfold fan_key. by rewrite strip_prefix_app. Qed.

Lemma decimal_nonneg ws ip fp :
  decimal_shape ws ip fp = true → (0 <= py_float (ip ++ L "." ++ fp))%Q.
Proof.
  unfold decimal_shape. intros [[_ Hip]%andb_prop Hfp]%andb_prop.
  apply run_of_inv in Hip as [_ Hip]. apply run_of_inv in Hfp as [_ Hfp].
  by apply py_float_nonneg.
Qed.

Lemma py_int_nonneg s v :
  run_of is_digit s = true → py_int s = Ok v → (0 <= v)%Z.
Proof.
  intros [_ Hs]%run_of_inv. unfold py_int. case_match; [done|].
  intros [= <-]. by apply int_of_digits_nonneg.
Qed.

Lemma parse_line_currents_ok st a raw :
  currents_ok st → currents_ok (parse_line (st, a) raw).1.
Proof.
  intros Hok. unfold parse_line, read_line.
  destruct (strip raw) as [|c0 line0] eqn:Hline; [done|].
  rewrite <- Hline. clear c0 line0 Hline.
  repeat match goal with
         | |- context [if ?b then _ else _] => destruct b eqn:?
         end; try done.
  - by destruct (split_once ":" (strip raw)).
  - destruct (search 2 core_re (strip raw)) as [g|] eqn:Hg; [|done].
    apply core_re_groups in Hg
      as (pre & n & ws & ip & fp & rest & Hn & Hsh & _ & ->).
    intros c. pose proof (Hok c) as Hc.
    destruct c; simpl in *; try done.
    apply Forall_set; [done|]. split; simpl.
    + by apply cpu_key_Core.
    + by eapply decimal_nonneg.
  - destruct (search 2 package_re (strip raw)) as [g|] eqn:Hg; [|done].
    apply package_re_groups in Hg
      as (pre & n & ws & ip & fp & rest & Hn & Hsh & _ & ->).
    intros c. pose proof (Hok c) as Hc.
    destruct c; simpl in *; try done.
    apply Forall_set; [done|]. split; simpl.
    + by apply cpu_key_Package.
    + by eapply decimal_nonneg.
  - destruct (search 3 fan_re (strip raw)) as [g|] eqn:Hg; [|done].
    apply fan_re_groups in Hg as (n & speed & mx & Hn & Hsp & Hmx & ->).
    unfold group, group_text; simpl.
    destruct (py_int speed) as [v|e] eqn:Hv; [|done].
    assert (Hset : ∀ c, Forall (entry_ok c)
              (current c (set_fan_speeds
                 (Dict.set (fan_speeds st) (L "fan" ++ n) v) st))).
    { intros c. pose proof (Hok c) as Hc.
      destruct c; simpl in *; try done.
      apply Forall_set; [done|]. split; simpl.
      - by apply fan_key_fan.
      - by apply (py_int_nonneg speed). }
    destruct mx as [[|c1 m]|]; simpl;
      repeat match goal with
             | |- context [match ?x with _ => _ end] => destruct x eqn:?
             end;
      (intros c; destruct c;
       [ exact (Hset CpuTemperature) | exact (Hset FanSpeed)
       | exact (Hset StorageTemperature) | exact (Hset OtherTemperature) ]).
  - destruct (search 1 composite_re (strip raw)) as [g|] eqn:Hg; [|done].
    apply composite_re_groups in Hg
      as (pre & ws & ip & fp & rest & Hsh & _ & ->).
    intros c. pose proof (Hok c) as Hc.
    destruct c; simpl in *; try done.
    apply Forall_set; [done|]. split; simpl; [done|].
    by eapply decimal_nonneg.
  - destruct (search 2 temp_re (strip raw)) as [g|] eqn:Hg; [|done].
    apply temp_re_groups in Hg
      as (pre & n & ws & ip & fp & rest & Hn & Hsh & _ & ->).
    intros c. pose proof (Hok c) as Hc.
    destruct c; simpl in *; try done.
    apply Forall_set; [done|]. split; simpl.
    + exists a, n. split; [done | reflexivity].
    + by eapply decimal_nonneg.
Qed.

Lemma parse_line_capacities_ok st a raw :
  capacities_ok st → capacities_ok (parse_line (st, a) raw).1.
Proof.
  unfold capacities_ok. intros Hok. unfold parse_line, read_line.
  destruct (search 3 fan_re (strip raw)) as [g|] eqn:Hg.
  - apply fan_re_groups in Hg as (n & speed & mx & Hn & Hsp & Hmx & ->).
    unfold group, group_text; simpl.
    destruct (py_int speed) as [v|e] eqn:Hv;
      destruct mx as [[|c1 m]|]; cbn [from_option] in Hmx; simpl;
      repeat match goal with
             | |- context [match ?x with _ => _ end] => destruct x eqn:?
             end; simpl; try done;
      apply map_Forall_insert_2; try done;
      (split; [by apply fan_key_fan
              | first [done | by eauto using py_int_nonneg]]).
  - parse_line_cases; done.
Qed.

Lemma keys_set_elem {V} (d : dict V) k v k' :
  k' ∈ Dict.keys (Dict.set d k v) → k' = k ∨ k' ∈ Dict.keys d.
Proof.
  rewrite keys_set. case_decide; [by right|].
  intros [?|Hk]%elem_of_app; [by right|].
  apply list_elem_of_singleton in Hk. by left.
Qed.

(** A body that completes leaves every fan it stored with a capacity. *)
Lemma read_line_fans_have_capacity st a raw :
  (read_line (st, a) raw).2 = Ok tt →
  fans_have_capacity st → fans_have_capacity (parse_line (st, a) raw).1.
Proof.
  unfold fans_have_capacity. intros Hr Hok. revert Hr.
  unfold parse_line, read_line.
  destruct (search 3 fan_re (strip raw)) as [g|] eqn:Hg.
  - clear Hg.
    repeat match goal with
           | |- context [match ?x with _ => _ end] => destruct x eqn:?
           end; simpl; try done;
      intros _ fan [->|Hfan]%keys_set_elem;
        rewrite ?lookup_insert_is_Some; auto;
        try (destruct (decide (group_text g 0 = fan)); auto).
  - parse_line_cases; done.
Qed.

Lemma read_lines_fans_have_capacity lines st a :
  (read_lines lines (st, a)).2 = Ok tt →
  fans_have_capacity st → fans_have_capacity (read_lines lines (st, a)).1.1.
Proof.
  revert st a. induction lines as [|raw lines IH]; intros st a; [done|].
  cbn [read_lines]. intros Hr Hok.
  pose proof (read_line_fans_have_capacity st a raw) as Hstep.
  unfold parse_line in Hstep.
  destruct (read_line (st, a) raw) as [[st' a'] [[]|e]]; [|done].
  apply IH; [done|]. by apply Hstep.
Qed.

Lemma fold_parse_line_inv (P : SensorData -> Prop) lines st a :
  (∀ st a raw, P st → P (parse_line (st, a) raw).1) →
  P st → P (fold_left parse_line lines (st, a)).1.
Proof.
  intros Hstep. revert st a.
  induction lines as [|raw lines IH]; intros st a HP; [done|].
  cbn [fold_left]. specialize (Hstep st a raw HP).
  destruct (parse_line (st, a) raw) as [st' a']. by apply IH.
Qed.

Lemma parse_currents_ok output st :
  currents_ok (_parse_sensors_output output st).
Proof.
  destruct (parse_as_fold output st) as [n ->].
  apply fold_parse_line_inv; [apply parse_line_currents_ok|].
  intros c. destruct c; simpl; constructor.
Qed.

Lemma parse_capacities_ok output st :
  capacities_ok st → capacities_ok (_parse_sensors_output output st).
Proof.
  intros Hok. destruct (parse_as_fold output st) as [n ->].
  by apply fold_parse_line_inv; [apply parse_line_capacities_ok|].
Qed.

(** After a text that was parsed to its end every fan of the snapshot has a
    capacity, whatever the object held before. *)
Lemma parse_fans_have_capacity output st :
  parses output = true → fans_have_capacity (_parse_sensors_output output st).
Proof.
  intros Hp. pose proof (parse_output_outcome output st) as Hr.
  rewrite Hp in Hr. unfold _parse_sensors_output, parse_output in *.
  pose proof (read_lines_fans_have_capacity (splitlines output)
                (clear_current st) (L "unknown")) as H.
  destruct (read_lines (splitlines output) (clear_current st, L "unknown"))
    as [[st' a'] r].
  simpl in *. apply H; [done|].
  intros fan Hfan. simpl in Hfan. by apply elem_of_nil in Hfan.
Qed.

(** ** Objects made by [update] *)

Lemma current_update_histories c st :
  current c (_update_histories st) = current c st.
Proof. by destruct c. Qed.

Lemma tick_reachable_ok st t : reachable_ok st → reachable_ok (tick st t).
Proof.
  intros (Hcur & Hcap). destruct t as [output|e]; [|done].
  rewrite tick_Ok. destruct (parses output); split.
  - intros c. rewrite current_update_histories. apply parse_currents_ok.
  - by apply parse_capacities_ok.
  - apply parse_currents_ok.
  - by apply parse_capacities_ok.
Qed.

Lemma init_reachable_ok : reachable_ok init.
Proof.
  split.
  - intros c. destruct c; constructor.
  - apply map_Forall_empty.
Qed.

(** [update] returns [True] exactly when it got a text and parsed it to its
    end. *)
Lemma update_returned output st :
  (update (Ok output) st).2 = Ok true ↔ parses output = true.
Proof. rewrite update_Ok. by destruct (parses output). Qed.

Lemma run_reachable_ok ticks st : reachable_ok st → reachable_ok (run ticks st).
Proof.
  revert st. induction ticks as [|t ticks IH]; intros st Hst; [done|].
  simpl. by apply IH, tick_reachable_ok.
Qed.

Lemma samples_elem c k ticks v :
  v ∈ samples c k ticks → ∃ output, Ok output ∈ ticks ∧
    Dict.get (current c (snapshot output)) k = Some v.
Proof.
  unfold samples. rewrite list_elem_of_omap. intros (t & Ht & Hs).
  destruct t as [output|e]; [|done]. exists output. split; [done|].
  simpl in Hs. by destruct (parses output).
Qed.

Lemma snapshot_entry_ok c output k v :
  Dict.get (current c (snapshot output)) k = Some v →
  key_ok c k ∧ value_nonneg c v.
Proof.
  intros Hget%get_Some_elem.
  pose proof (parse_currents_ok output init c) as Hok.
  rewrite Forall_forall in Hok. by apply (Hok (k, v)).
Qed.

(** X1. Whatever the text and whatever the object held, the entries that
    [_parse_sensors_output] leaves in the current dictionaries have keys of
    the category's form ([Core <digits>] or [Package id <digits>],
    [fan<digits>], [NVMe], [<adapter>_temp<digits>]) and values that are
    not negative. *)
Theorem parse_entries_ok (output : str) (st : SensorData) (c : Category)
    (k : str) (v : value c)
    (Hget : Dict.get (current c (_parse_sensors_output output st)) k
            = Some v) :
  key_ok c k ∧ value_nonneg c v.
Proof.
  rewrite current_parse in Hget. by apply (snapshot_entry_ok c output).
Qed.

Lemma parse_entries_ok_witness :
  key_ok CpuTemperature (L "Package id 0")
  ∧ value_nonneg CpuTemperature 47%Q.
Proof.
  apply (parse_entries_ok sample_output init CpuTemperature
           (L "Package id 0") 47%Q).
  by vm_compute.
Defined.

(** X2. In every object made by [update] calls from a new one, each history
    has a key of its category's form, and no item of any history is
    negative. *)
Theorem history_entries_ok (ticks : list (outcome str)) (c : Category)
    (k : str) (d : deque (value c))
    (Hd : history c (run ticks init) !! k = Some d) :
  key_ok c k ∧ Forall (value_nonneg c) (items d).
Proof.
  pose proof (run_history_window c k 60 [] ticks init eq_refl) as Hh.
  ospecialize* Hh; [done | by destruct c |].
  rewrite Hd in Hh. simpl in Hh.
  destruct (samples c k ticks) as [|v vs] eqn:Hvs; [done|].
  injection Hh as ->. simpl items.
  assert (Hall : ∀ x, x ∈ v :: vs → key_ok c k ∧ value_nonneg c x).
  { intros x Hx. rewrite <- Hvs in Hx.
    apply samples_elem in Hx as (output & _ & Hget).
    by apply (snapshot_entry_ok c output). }
  split.
  - apply (Hall v). by left.
  - apply Forall_forall. intros x Hx. apply Hall.
    destruct (last_n_suffix 60 (v :: vs)) as [pre Hpre].
    rewrite Hpre. apply elem_of_app. by right.
Qed.

Lemma history_entries_ok_witness :
  key_ok FanSpeed (L "fan1")
  ∧ Forall (value_nonneg FanSpeed) (items (Deque 60 [2125; 2000]%Z)).
Proof.
  apply (history_entries_ok [Ok fan1_line; Ok fan2_line; Ok fan1_min_only_line]
           FanSpeed (L "fan1") (Deque 60 [2125; 2000]%Z)).
  by vm_compute.
Defined.

(** X3. After a call of [update] that returned [True], on an object made
    by [update] calls from a new one, each fan of the current snapshot has an
    entry in [max_fan_speeds], so the default of the [get] of line 294 is not
    used; the speed and the capacity are not negative.  (A call that
    returned [False] because an [int(...)] of the parser raised can leave a
    fan without an entry: [failed_parse_fan_without_capacity].) *)
Theorem current_fans_have_capacity (ticks : list (outcome str))
    (output : str) (fan : str) (speed : Z)
    (Hreturned : (update (Ok output) (run ticks init)).2 = Ok true)
    (Hfan : Dict.get (fan_speeds (run (ticks ++ [Ok output]) init)) fan
            = Some speed) :
  ∃ cap, max_fan_speeds (run (ticks ++ [Ok output]) init) !! fan = Some cap
         ∧ (0 <= cap)%Z ∧ (0 <= speed)%Z ∧ fan_key fan = true.
Proof.
  destruct (run_reachable_ok (ticks ++ [Ok output]) init init_reachable_ok)
    as (Hcur & Hcap).
  apply update_returned in Hreturned.
  assert (Hhas : fans_have_capacity (run (ticks ++ [Ok output]) init)).
  { rewrite run_app. cbn [run fold_left]. rewrite tick_Ok, Hreturned.
    intros f Hf. simpl.
    by apply (parse_fans_have_capacity output (run ticks init)). }
  apply get_Some_elem in Hfan as Hin.
  destruct (Hhas fan) as [cap Hcapfan].
  { apply list_elem_of_fmap. by exists (fan, speed). }
  exists cap. destruct (Hcap fan cap Hcapfan) as [Hkey Hnn].
  specialize (Hcur FanSpeed). rewrite Forall_forall in Hcur.
  destruct (Hcur (fan, speed)) as [_ Hsp]; [done|].
  done.
Qed.

Lemma current_fans_have_capacity_witness :
  ∃ cap, max_fan_speeds (run ([Ok fan1_line] ++ [Ok fan1_min_only_line]) init)
           !! L "fan1" = Some cap
         ∧ (0 <= cap)%Z ∧ (0 <= 2000)%Z ∧ fan_key (L "fan1") = true.
Proof.
  apply (current_fans_have_capacity [Ok fan1_line] fan1_min_only_line
           (L "fan1") 2000%Z); by vm_compute.
Defined.

(** A text whose clause has a maximum of more than 4300 digits: the speed
    is stored, [int(max_speed)] raises, and [update] returns [False] with a
    fan that has no capacity. *)
Lemma failed_parse_fan_without_capacity :
  let st := tick init (Ok long_max_output) in
  update (Ok long_max_output) init = (st, Ok false)
  ∧ fan_speeds st = [(L "fan1", 1000%Z)]
  ∧ max_fan_speeds st !! L "fan1" = None
  ∧ fan_speed_history st !! L "fan1" = None.
Proof. split_and!; by vm_compute. Qed.

(** ** The fan indicators *)

Lemma fan_percentage_Ok st fan speed p :
  fan_percentage st fan speed = Ok p →
  let cap := default 4000%Z (max_fan_speeds st !! fan) in
  cap ≠ 0%Z
  ∧ (Z.abs speed < float_overflow * Z.abs cap)%Z
  ∧ p = Qmin 100 (inject_Z speed / inject_Z cap * 100).
Proof.
  intros H cap. revert H. unfold fan_percentage. fold cap.
  destruct (Z.eqb_spec cap 0) as [H0|H0]; [done|].
  destruct (Z.leb_spec (float_overflow * Z.abs cap) (Z.abs speed)); [done|].
  by intros [= <-].
Qed.

Lemma fan_percentage_Raise st fan speed e :
  fan_percentage st fan speed = Raise e →
  let cap := default 4000%Z (max_fan_speeds st !! fan) in
  (e = ZeroDivisionError ∧ cap = 0%Z)
  ∨ (e = OverflowError ∧ cap ≠ 0%Z
     ∧ (float_overflow * Z.abs cap <= Z.abs speed)%Z).
Proof.
  intros H cap. revert H. unfold fan_percentage. fold cap.
  destruct (Z.eqb_spec cap 0) as [H0|H0]; [intros [= <-]; by left|].
  destruct (Z.leb_spec (float_overflow * Z.abs cap) (Z.abs speed)); [|done].
  intros [= <-]. by right.
Qed.

Lemma fan_indicators_Ok st fans l :
  fan_indicators st fans = Ok l →
  map (fun x => (x.1.1, x.1.2)) l = fans
  ∧ Forall (fun x => fan_percentage st x.1.1 x.1.2 = Ok x.2) l.
Proof.
  revert l. induction fans as [|[fan speed] fans IH]; intros l; simpl.
  - intros [= <-]. by split.
  - destruct (fan_percentage st fan speed) as [p|e] eqn:Hp; [|done].
    destruct (fan_indicators st fans) as [l'|e]; [|done].
    intros [= <-]. destruct (IH l' eq_refl) as [Hmap Hall].
    simpl. rewrite Hmap. split; [done|]. by constructor.
Qed.

Lemma fan_indicators_Raise st fans e :
  fan_indicators st fans = Raise e →
  ∃ fan speed, (fan, speed) ∈ fans ∧ fan_percentage st fan speed = Raise e.
Proof.
  induction fans as [|[fan speed] fans IH]; simpl; [done|].
  destruct (fan_percentage st fan speed) as [p|e'] eqn:Hp.
  - destruct (fan_indicators st fans) as [l'|e']; [done|].
    intros [= ->]. destruct (IH eq_refl) as (f & s & Hin & H0).
    exists f, s. split; [by right | done].
  - intros [= ->]. exists fan, speed. split; [by left | done].
Qed.

Lemma percentage_bounds speed cap :
  (0 <= speed)%Z → (0 < cap)%Z →
  (0 <= Qmin 100 (inject_Z speed / inject_Z cap * 100))%Q
  ∧ (Qmin 100 (inject_Z speed / inject_Z cap * 100) <= 100)%Q.
Proof.
  intros Hs Hc. split; [|apply Q.le_min_l].
  apply Q.min_glb; [done|].
  apply Qmult_le_0_compat; [|done].
  apply Qle_shift_div_l.
  - unfold Qlt, inject_Z; simpl. lia.
  - rewrite Qmult_0_l. unfold Qle, inject_Z; simpl. lia.
Qed.

Lemma elem_get {V} (d : dict V) k v :
  NoDup (Dict.keys d) → (k, v) ∈ d → Dict.get d k = Some v.
Proof.
  induction d as [|[k0 v0] d IH]; simpl; intros Hnd Hin.
  - by apply elem_of_nil in Hin.
  - apply NoDup_cons in Hnd as [Hk0 Hnd].
    apply elem_of_cons in Hin as [[= -> ->]|Hin].
    + by rewrite decide_True.
    + rewrite decide_False; [by apply IH|].
      intros ->. apply Hk0. apply list_elem_of_fmap. by exists (k, v).
Qed.

(** The capacity that line 294 reads for a fan of an object made by
    [update] calls is not negative. *)
Lemma reachable_capacity_nonneg st fan :
  capacities_ok st → (0 <= default 4000 (max_fan_speeds st !! fan))%Z.
Proof.
  intros Hcap. destruct (max_fan_speeds st !! fan) as [cap|] eqn:Hfan; [|done].
  by destruct (Hcap fan cap Hfan).
Qed.

(** X4. In every object made by [update] calls from a new one,
    [_update_fan_indicators] either gives one indicator for each fan of the
    current snapshot, in the order of the snapshot and with its speed, each
    with a percentage from 0 to 100, or raises at a fan of the snapshot:
    [ZeroDivisionError] when the capacity stored for the fan is 0, and
    [OverflowError] when the speed is so far above the capacity that the
    quotient is beyond the floats.  It raises nothing else. *)
Theorem fan_indicators_reachable (ticks : list (outcome str)) :
  let st := run ticks init in
  match _update_fan_indicators st with
  | Ok l =>
      map (fun x => (x.1.1, x.1.2)) l = fan_speeds st
      ∧ Forall (fun x => (0 <= x.2)%Q ∧ (x.2 <= 100)%Q) l
  | Raise e =>
      ∃ fan speed,
        (fan, speed) ∈ fan_speeds st
        ∧ ((e = ZeroDivisionError ∧ max_fan_speeds st !! fan = Some 0%Z)
           ∨ (e = OverflowError
              ∧ (0 < default 4000 (max_fan_speeds st !! fan))%Z
              ∧ (float_overflow * default 4000 (max_fan_speeds st !! fan)
                 <= speed)%Z))
  end.
Proof.
  intros st. unfold _update_fan_indicators.
  destruct (run_reachable_ok ticks init init_reachable_ok) as (Hcur & Hcap).
  fold st in Hcur, Hcap.
  assert (Hspeed : ∀ fan speed, (fan, speed) ∈ fan_speeds st → (0 <= speed)%Z).
  { intros fan speed Hin. specialize (Hcur FanSpeed).
    rewrite Forall_forall in Hcur. by destruct (Hcur (fan, speed) Hin). }
  destruct (fan_indicators st (fan_speeds st)) as [l|e] eqn:Hl.
  - apply fan_indicators_Ok in Hl as [Hmap Hall]. split; [done|].
    rewrite Forall_forall in Hall. apply Forall_forall.
    intros [[fan speed] p] Hx. specialize (Hall _ Hx). simpl in *.
    assert (Hin : (fan, speed) ∈ fan_speeds st).
    { rewrite <- Hmap. apply list_elem_of_fmap. by exists (fan, speed, p). }
    apply fan_percentage_Ok in Hall as (Hne & _ & ->).
    pose proof (reachable_capacity_nonneg st fan Hcap).
    apply percentage_bounds; [by eapply Hspeed | lia].
  - apply fan_indicators_Raise in Hl as (fan & speed & Hin & Hp).
    exists fan, speed. split; [done|].
    pose proof (reachable_capacity_nonneg st fan Hcap) as Hnn.
    pose proof (Hspeed fan speed Hin) as Hsp.
    apply fan_percentage_Raise in Hp as [[-> H0]|(-> & Hne & Hov)].
    + left. split; [done|].
      destruct (max_fan_speeds st !! fan) as [cap|]; [|done].
      simpl in H0. by subst.
    + right. split; [done|]. split; [lia|]. lia.
Qed.

(** X5. The percentage of a fan is 100 when its speed is at least its
    capacity, and [100 * speed / capacity] below that (for a capacity above
    0, a speed that is not negative, and a quotient that is within the
    floats; beyond them the division raises [OverflowError]). *)
Theorem fan_percentage_clamped (st : SensorData) (fan : str) (speed : Z)
    (Hcap : (0 < default 4000 (max_fan_speeds st !! fan))%Z)
    (Hspeed : (0 <= speed)%Z)
    (Hrange : (speed
               < float_overflow * default 4000 (max_fan_speeds st !! fan))%Z) :
  let cap := default 4000%Z (max_fan_speeds st !! fan) in
  ∃ p, fan_percentage st fan speed = Ok p
       ∧ ((cap <= speed)%Z → (p == 100)%Q)
       ∧ ((speed <= cap)%Z → (p == 100 * inject_Z speed / inject_Z cap)%Q).
Proof.
  intros cap. unfold fan_percentage. fold cap. fold cap in Hcap, Hrange.
  rewrite (proj2 (Z.eqb_neq cap 0)) by lia.
  rewrite (proj2 (Z.leb_gt _ _)) by lia.
  eexists. split; [done|].
  assert (Hcapq : (0 < inject_Z cap)%Q).
  { unfold Qlt, inject_Z; simpl. lia. }
  assert (Hcomm : (inject_Z speed / inject_Z cap * 100
                   == 100 * inject_Z speed / inject_Z cap)%Q).
  { field. intros H. rewrite H in Hcapq. by apply Qlt_irrefl in Hcapq. }
  split.
  - intros Hle. apply Q.min_l. rewrite Hcomm.
    apply Qle_shift_div_l; [done|].
    unfold Qle, inject_Z; simpl. lia.
  - intros Hle. rewrite Hcomm. apply Q.min_r.
    apply Qle_shift_div_r; [done|].
    unfold Qle, inject_Z; simpl. lia.
Qed.

Lemma fan_percentage_clamped_witness :
  ∃ p, fan_percentage (tick init (Ok fan1_line)) (L "fan1") 5000 = Ok p
       ∧ ((3700 <= 5000)%Z → (p == 100)%Q)
       ∧ ((5000 <= 3700)%Z
          → (p == 100 * inject_Z 5000 / inject_Z 3700)%Q).
Proof.
  apply (fan_percentage_clamped (tick init (Ok fan1_line)) (L "fan1") 5000);
    by vm_compute.
Defined.

(** A speed of 400 digits against a capacity of 1: the call of [update]
    returns [True] and the division of line 295 raises [OverflowError].
    For that capacity the least speed at which it raises is
    [float_overflow]. *)
Lemma fan_percentage_overflow :
  let st := tick init (Ok fast_fan_output) in
  update (Ok fast_fan_output) init = (st, Ok true)
  ∧ max_fan_speeds st !! L "fan1" = Some 1%Z
  ∧ _update_fan_indicators st = Raise OverflowError
  ∧ fan_percentage st (L "fan1") float_overflow = Raise OverflowError
  ∧ ∃ p, fan_percentage st (L "fan1") (float_overflow - 1) = Ok p
         ∧ (p == 100)%Q.
Proof.
  split_and!; [by vm_compute..|].
  eexists. split; [by vm_compute | by vm_compute].
Qed.

(** ** Lines that are not read *)

(** X6. A line that has none of [Adapter:], [°C] and [RPM] changes neither
    the object nor the adapter context. *)
Theorem line_without_marks_ignored (st : SensorData) (a raw : str)
    (Hadapter : contains (L "Adapter:") raw = false)
    (Hdeg : contains degC raw = false)
    (Hrpm : contains (L "RPM") raw = false) :
  parse_line (st, a) raw = (st, a).
Proof.
  apply contains_strip_false in Hadapter, Hdeg, Hrpm.
  unfold parse_line, read_line. rewrite Hadapter, Hdeg, Hrpm, !andb_false_r.
  by destruct (strip raw).
Qed.

Lemma line_without_marks_ignored_witness :
  parse_line (tick init (Ok sample_output), L "Adapter")
             (L "coretemp-isa-0000")
  = (tick init (Ok sample_output), L "Adapter").
Proof.
  apply (line_without_marks_ignored (tick init (Ok sample_output))
           (L "Adapter") (L "coretemp-isa-0000")); by vm_compute.
Defined.

(** ** Package lines *)

Lemma package_re_match n ws ip fp rest :
  run_of is_digit n = true → decimal_shape ws ip fp = true →
  search 2 package_re (package_line n ws ip fp rest)
  = Some [Some (L "Package id " ++ n); Some (ip ++ L "." ++ fp)].
Proof.
  intros [Hn0 Hn]%run_of_inv Hshape. unfold decimal_shape in Hshape.
  apply andb_prop in Hshape as [[Hws Hip]%andb_prop Hfp].
  apply run_of_inv in Hws as [Hws0 Hws].
  apply run_of_inv in Hip as [Hip0 Hip].
  apply run_of_inv in Hfp as [Hfp0 Hfp].
  apply search_at_start. unfold match_at, package_line, package_re, celsius.
  cbn [seq_of app replicate].
  repeat re_step.
  rewrite (app_assoc (L "Package id ") n), consumed_app.
  rewrite (app_assoc ip (L ".")), (app_assoc (ip ++ L ".") fp), consumed_app.
  by rewrite <- app_assoc.
Qed.

Lemma strip_package_line n ws ip fp rest :
  strip (package_line n ws ip fp rest) = package_line n ws ip fp (rstrip rest).
Proof.
  unfold strip. change (lstrip (package_line n ws ip fp rest))
    with (package_line n ws ip fp rest).
  unfold package_line. rewrite !app_assoc. apply rstrip_degC.
Qed.

Lemma package_line_degC n ws ip fp rest :
  contains degC (package_line n ws ip fp rest) = true.
Proof. unfold package_line. rewrite !app_assoc. apply contains_degC. Qed.

(** X7. A line [Package id <digits>:<whitespace>+<digits>.<digits>°C...]
    that has neither [Adapter:] nor [Core] sets the value of the key
    [Package id <digits>] of [cpu_temps] to the decimal, and changes
    nothing else. *)
Theorem package_temperature_parse (st : SensorData)
    (a n ws ip fp rest : str)
    (Hn : run_of is_digit n = true)
    (Hshape : decimal_shape ws ip fp = true)
    (Hadapter : contains (L "Adapter:") (package_line n ws ip fp rest)
                = false)
    (Hcore : contains (L "Core") (package_line n ws ip fp rest) = false) :
  parse_line (st, a) (package_line n ws ip fp rest)
  = (set_cpu_temps
       (Dict.set (cpu_temps st) (L "Package id " ++ n)
                 (py_float (ip ++ L "." ++ fp))) st, a).
Proof.
  apply contains_strip_false in Hadapter, Hcore.
  unfold parse_line, read_line. rewrite strip_package_line in *.
  rewrite Hadapter, Hcore, package_line_degC, package_re_match by done.
  change (contains (L "Package id") (package_line n ws ip fp (rstrip rest)))
    with true.
  reflexivity.
Qed.

Lemma package_temperature_parse_witness :
  parse_line (init, L "Adapter")
    (package_line (L "0") (L "  ") (L "47") (L "0")
       (L "  (high = +80.0" ++ degC ++ L ")"))
  = (set_cpu_temps
       (Dict.set (cpu_temps init) (L "Package id " ++ L "0")
                 (py_float (L "47" ++ L "." ++ L "0"))) init, L "Adapter").
Proof.
  apply (package_temperature_parse init (L "Adapter") (L "0") (L "  ")
           (L "47") (L "0") (L "  (high = +80.0" ++ degC ++ L ")"));
    by vm_compute.
Defined.

(** ** Generic temperature lines *)

Lemma temp_re_match n ws ip fp rest :
  run_of is_digit n = true → decimal_shape ws ip fp = true →
  search 2 temp_re (temp_line n ws ip fp rest)
  = Some [Some (L "temp" ++ n); Some (ip ++ L "." ++ fp)].
Proof.
  intros [Hn0 Hn]%run_of_inv Hshape. unfold decimal_shape in Hshape.
  apply andb_prop in Hshape as [[Hws Hip]%andb_prop Hfp].
  apply run_of_inv in Hws as [Hws0 Hws].
  apply run_of_inv in Hip as [Hip0 Hip].
  apply run_of_inv in Hfp as [Hfp0 Hfp].
  apply search_at_start. unfold match_at, temp_line, temp_re, celsius.
  cbn [seq_of app replicate].
  repeat re_step.
  rewrite (app_assoc (L "temp") n), consumed_app.
  rewrite (app_assoc ip (L ".")), (app_assoc (ip ++ L ".") fp), consumed_app.
  by rewrite <- app_assoc.
Qed.

Lemma strip_temp_line n ws ip fp rest :
  strip (temp_line n ws ip fp rest) = temp_line n ws ip fp (rstrip rest).
Proof.
  unfold strip. change (lstrip (temp_line n ws ip fp rest))
    with (temp_line n ws ip fp rest).
  unfold temp_line. rewrite !app_assoc. apply rstrip_degC.
Qed.

Lemma temp_line_degC n ws ip fp rest :
  contains degC (temp_line n ws ip fp rest) = true.
Proof. unfold temp_line. rewrite !app_assoc. apply contains_degC. Qed.

(** X8. A line [temp<digits>:<whitespace>+<digits>.<digits>°C...] that no
    earlier branch takes (no [Adapter:], [Core], [Package], no fan reading,
    and no [Composite] under a context with [nvme]) sets the value of the
    key [<context>_temp<digits>] of [other_temps]; so the same [temp<n>]
    read under two different contexts has two different keys. *)
Theorem generic_temperature_parse (st : SensorData)
    (a n ws ip fp rest : str)
    (Hn : run_of is_digit n = true)
    (Hshape : decimal_shape ws ip fp = true)
    (Hearlier : taken_by_earlier_branch (temp_line n ws ip fp rest) = false)
    (Hpackage : contains (L "Package") (temp_line n ws ip fp rest) = false)
    (Hstorage : nvme_context a
                && contains (L "Composite") (temp_line n ws ip fp rest)
                = false) :
  parse_line (st, a) (temp_line n ws ip fp rest)
  = (set_other_temps
       (Dict.set (other_temps st) (a ++ L "_temp" ++ n)
                 (py_float (ip ++ L "." ++ fp))) st, a)
  ∧ ∀ a', a' ≠ a → a' ++ L "_temp" ++ n ≠ a ++ L "_temp" ++ n.
Proof.
  split; [|by intros a' Hne Heq%app_inv_tail].
  apply taken_by_earlier_branch_strip in Hearlier.
  unfold taken_by_earlier_branch in Hearlier.
  rewrite strip_temp_line in Hearlier.
  rewrite temp_line_degC, !andb_true_r in Hearlier.
  apply orb_false_elim in Hearlier as [Hearlier Hfan].
  apply orb_false_elim in Hearlier as [Hearlier Hpackageid].
  apply orb_false_elim in Hearlier as [Hadapter Hcore].
  apply contains_strip_false in Hpackage. rewrite strip_temp_line in Hpackage.
  assert (Hst : nvme_context a
                && contains (L "Composite")
                     (temp_line n ws ip fp (rstrip rest)) = false).
  { destruct (nvme_context a); [|done].
    rewrite andb_true_l in Hstorage. rewrite andb_true_l.
    apply contains_strip_false in Hstorage.
    by rewrite strip_temp_line in Hstorage. }
  unfold nvme_context in Hst.
  unfold parse_line, read_line. rewrite strip_temp_line.
  rewrite Hadapter, Hcore, Hpackageid, Hfan, Hpackage, temp_line_degC,
    temp_re_match by done.
  rewrite !andb_true_r, Hst.
  change (contains (L "temp") (lower (temp_line n ws ip fp (rstrip rest))))
    with true.
  reflexivity.
Qed.

Lemma generic_temperature_parse_witness :
  parse_line (init, L "Adapter")
    (temp_line (L "1") (L "        ") (L "27") (L "8") [])
  = (set_other_temps
       (Dict.set (other_temps init) (L "Adapter" ++ L "_temp" ++ L "1")
                 (py_float (L "27" ++ L "." ++ L "8"))) init, L "Adapter")
  ∧ ∀ a', a' ≠ L "Adapter"
          → a' ++ L "_temp" ++ L "1" ≠ L "Adapter" ++ L "_temp" ++ L "1".
Proof.
  apply (generic_temperature_parse init (L "Adapter") (L "1") (L "        ")
           (L "27") (L "8") []); by vm_compute.
Defined.

(** ** Generic temperatures under the standard headers *)

Lemma parse_line_other_standard st a raw :
  standard_context a →
  Forall (fun kv => standard_other_key kv.1) (other_temps st) →
  Forall (fun kv => standard_other_key kv.1)
         (other_temps (parse_line (st, a) raw).1).
Proof.
  intros Ha Hok. unfold parse_line, read_line.
  destruct (search 2 temp_re (strip raw)) as [g|] eqn:Hg.
  - apply temp_re_groups in Hg
      as (pre & n & ws & ip & fp & rest & Hn & _ & _ & ->).
    parse_line_cases; try done.
    apply Forall_set; [done|]. exists n. split; [done|].
    unfold group_text, group; simpl. by destruct Ha as [-> | ->]; [left|right].
  - parse_line_cases; done.
Qed.

Lemma fold_parse_line_other_standard lines st a :
  forallb standard_header lines = true → standard_context a →
  Forall (fun kv => standard_other_key kv.1) (other_temps st) →
  Forall (fun kv => standard_other_key kv.1)
         (other_temps (fold_left parse_line lines (st, a)).1).
Proof.
  revert st a. induction lines as [|raw lines IH]; intros st a Hall Ha Hok.
  - done.
  - simpl in Hall. apply andb_prop in Hall as [Hraw Hall].
    cbn [fold_left].
    pose proof (parse_line_other_standard st a raw Ha Hok) as Hok'.
    destruct (parse_line_standard st a raw Hraw Ha) as [_ Ha'].
    destruct (parse_line (st, a) raw) as [st' a']. by apply IH.
Qed.

(** X9. In a text whose [Adapter:] lines begin with [Adapter:], every key of
    [other_temps] is [unknown_temp<digits>] or [Adapter_temp<digits>]: the
    chip does not show in the key, and the same [temp<n>] of two chips has
    one key. *)
Theorem standard_other_keys (output : str) (st : SensorData) (k : str)
    (v : Q)
    (Hstd : forallb standard_header (splitlines output) = true)
    (Hget : Dict.get (other_temps (_parse_sensors_output output st)) k
            = Some v) :
  standard_other_key k.
Proof.
  apply get_Some_elem in Hget.
  assert (Hall : Forall (fun kv => standard_other_key kv.1)
                   (other_temps (_parse_sensors_output output st))).
  { destruct (parse_as_fold output st) as [m ->].
    apply fold_parse_line_other_standard;
      [by apply forallb_take | by left | constructor]. }
  rewrite Forall_forall in Hall. by apply (Hall (k, v)).
Qed.

Lemma standard_other_keys_witness :
  standard_other_key (L "Adapter_temp1")
  ∧ other_temps (snapshot two_chip_output) = [(L "Adapter_temp1", 40%Q)].
Proof.
  split; [|by vm_compute].
  apply (standard_other_keys two_chip_output init (L "Adapter_temp1") 40%Q);
    by vm_compute.
Defined.

(** ** Fan lines *)

(** X10. A fan line with the clause
    [(min = <digits> RPM, max = <digits> RPM)], without [Adapter:] and
    [°C], whose speed and maximum have no more digits than [int(...)] takes
    (4300), is read without an exception: it stores the speed under
    [fan<digits>] and makes the maximum of the clause the capacity of that
    fan, whatever capacity it had; the capacities of the other fans stay.
    (With more digits [int(...)] raises [ValueError]: nothing is stored when
    it is the speed, and the speed without the capacity when it is the
    maximum, [fan_clause_line_too_long].) *)
Theorem fan_clause_line_parse (st : SensorData)
    (a n w1 speed w2 w3 w4 mn w5 w6 w7 mx rest : str)
    (Hshape : fan_clause_shape n w1 speed w2 w3 w4 mn w5 w6 w7 mx = true)
    (Hadapter :
       contains (L "Adapter:")
         (fan_clause_line n w1 speed w2 w3 w4 mn w5 w6 w7 mx rest) = false)
    (Hdeg :
       contains degC (fan_clause_line n w1 speed w2 w3 w4 mn w5 w6 w7 mx rest)
       = false)
    (Hspeed : (length speed <= int_max_str_digits)%nat)
    (Hmx : (length mx <= int_max_str_digits)%nat) :
  let line := fan_clause_line n w1 speed w2 w3 w4 mn w5 w6 w7 mx rest in
  let after := (parse_line (st, a) line).1 in
  (read_line (st, a) line).2 = Ok tt
  ∧ Dict.get (fan_speeds after) (L "fan" ++ n) = Some (int_of_digits speed)
  ∧ max_fan_speeds after !! (L "fan" ++ n) = Some (int_of_digits mx)
  ∧ ∀ fan, fan ≠ L "fan" ++ n →
           max_fan_speeds after !! fan = max_fan_speeds st !! fan.
Proof.
  intros line after. subst line after. unfold parse_line.
  rewrite capacity_learned by done.
  rewrite (py_int_Ok speed), (py_int_Ok mx) by done. simpl.
  split_and!.
  - done.
  - apply get_set_eq.
  - apply lookup_insert_eq.
  - intros fan Hne. by rewrite lookup_insert_ne.
Qed.

Lemma fan_clause_line_parse_witness :
  let line :=
    fan_clause_line (L "1") (L "        ") (L "2125") (L "  ") (L " ")
      (L "    ") (L "0") (L " ") (L " ") (L " ") (L "3700") [] in
  let after :=
    (parse_line (tick init (Ok fan1_max_zero_line), L "Adapter") line).1 in
  (read_line (tick init (Ok fan1_max_zero_line), L "Adapter") line).2 = Ok tt
  ∧ Dict.get (fan_speeds after) (L "fan" ++ L "1")
    = Some (int_of_digits (L "2125"))
  ∧ max_fan_speeds after !! (L "fan" ++ L "1")
    = Some (int_of_digits (L "3700"))
  ∧ ∀ fan, fan ≠ L "fan" ++ L "1" →
           max_fan_speeds after !! fan
           = max_fan_speeds (tick init (Ok fan1_max_zero_line)) !! fan.
Proof.
  apply (fan_clause_line_parse (tick init (Ok fan1_max_zero_line))
           (L "Adapter") (L "1") (L "        ") (L "2125") (L "  ") (L " ")
           (L "    ") (L "0") (L " ") (L " ") (L " ") (L "3700") []);
    first [by vm_compute | unfold int_max_str_digits; simpl; lia].
Defined.

(** The same line with too many digits: the body raises [ValueError], before
    it stores anything when the speed is too long, and after it stored the
    speed when the maximum is. *)
Lemma fan_clause_line_too_long st a n w1 speed w2 w3 w4 mn w5 w6 w7 mx rest :
  let line := fan_clause_line n w1 speed w2 w3 w4 mn w5 w6 w7 mx rest in
  fan_clause_shape n w1 speed w2 w3 w4 mn w5 w6 w7 mx = true →
  contains (L "Adapter:") line = false →
  contains degC line = false →
  ((int_max_str_digits < length speed)%nat →
   read_line (st, a) line = ((st, a), Raise ValueError))
  ∧ ((length speed <= int_max_str_digits)%nat →
     (int_max_str_digits < length mx)%nat →
     read_line (st, a) line
     = ((set_fan_speeds
           (Dict.set (fan_speeds st) (L "fan" ++ n) (int_of_digits speed)) st,
         a), Raise ValueError)).
Proof.
  intros line Hshape Hadapter Hdeg. subst line.
  rewrite capacity_learned by done. split.
  - intros Hs. by rewrite (py_int_Raise speed).
  - intros Hs Hm. by rewrite (py_int_Ok speed), (py_int_Raise mx).
Qed.

Lemma contains_rstrip_false sub s :
  contains sub s = false → contains sub (rstrip s) = false.
Proof.
  intros H. destruct (contains sub (rstrip s)) eqn:Hs; [|done].
  destruct (rstrip_prefix s) as [t Ht]. rewrite Ht in H.
  by rewrite (contains_app_l _ _ t Hs) in H.
Qed.

Lemma fan_re_match_plain n w1 speed w2 c rest :
  fan_plain_shape n w1 speed w2 c rest = true →
  search 3 fan_re (fan_plain_line n w1 speed w2 c rest)
  = Some [Some (L "fan" ++ n); Some speed; None].
Proof.
  unfold fan_plain_shape. intros H.
  repeat match type of H with
         | (_ && _) = true => apply andb_prop in H as [H ?]
         end.
  repeat match goal with
         | H : run_of _ _ = true |- _ => apply run_of_inv in H as [? ?]
         | H : negb _ = true |- _ => apply negb_true_iff in H
         end.
  apply search_at_start. unfold match_at, fan_plain_line, fan_re.
  cbn [seq_of app replicate].
  repeat re_step'.
  apply rmatch_Plus; [assumption | assumption | |].
  { simpl. by match goal with H : is_space c = false |- _ => rewrite H end. }
  rewrite rmatch_Opt.
  match goal with
  | |- match ?m with _ => _ end = _ => assert (Hinner : m = None)
  end.
  { do 7 (rewrite rmatch_Seq; apply rmatch_None; intros ? ? ?).
    rewrite rmatch_Seq. apply (rmatch_Lit_absent _ (c :: rest)); [done|].
    do 6 (etrans; [eassumption|]). done. }
  rewrite Hinner.
  rewrite (app_assoc (L "fan") n), !consumed_app. done.
Qed.

Lemma strip_fan_plain_line n w1 speed w2 c rest :
  is_space c = false →
  strip (fan_plain_line n w1 speed w2 c rest)
  = fan_plain_line n w1 speed w2 c (rstrip rest).
Proof.
  intros Hc. unfold strip.
  change (lstrip (fan_plain_line n w1 speed w2 c rest))
    with (fan_plain_line n w1 speed w2 c rest).
  unfold fan_plain_line. rewrite !app_assoc.
  by apply rstrip_app_nonspace.
Qed.

Lemma fan_plain_line_RPM n w1 speed w2 c rest :
  contains (L "RPM") (fan_plain_line n w1 speed w2 c rest) = true.
Proof.
  unfold fan_plain_line.
  rewrite (app_assoc (L "fan")), (app_assoc _ (L ":")), (app_assoc _ w1),
    (app_assoc _ speed).
  change (L " RPM" ++ ?x) with (L " " ++ L "RPM" ++ x).
  rewrite (app_assoc _ (L " ")). apply contains_app_r.
Qed.

Lemma fan_plain_shape_rstrip n w1 speed w2 c rest :
  fan_plain_shape n w1 speed w2 c rest = true →
  is_space c = false ∧ fan_plain_shape n w1 speed w2 c (rstrip rest) = true.
Proof.
  unfold fan_plain_shape.
  intros [[H Hc%negb_true_iff]%andb_prop Hmax%negb_true_iff]%andb_prop.
  split; [done|]. rewrite H, Hc.
  rewrite <- (rstrip_cons_nonspace c rest) by done.
  by rewrite contains_rstrip_false.
Qed.

Lemma parse_line_fan_plain st a n w1 speed w2 c rest :
  fan_plain_shape n w1 speed w2 c rest = true →
  contains (L "Adapter:") (fan_plain_line n w1 speed w2 c rest) = false →
  contains degC (fan_plain_line n w1 speed w2 c rest) = false →
  read_line (st, a) (fan_plain_line n w1 speed w2 c rest)
  = match py_int speed with
    | Raise e => ((st, a), Raise e)
    | Ok speed' =>
        let st1 :=
          set_fan_speeds (Dict.set (fan_speeds st) (L "fan" ++ n) speed') st in
        (match max_fan_speeds st !! (L "fan" ++ n) with
         | None =>
             set_max_fan_speeds
               (<[L "fan" ++ n := 4000%Z]> (max_fan_speeds st)) st1
         | Some _ => st1
         end, a, Ok tt)
    end.
Proof.
  intros Hshape Hadapter Hdeg.
  apply fan_plain_shape_rstrip in Hshape as [Hc Hshape].
  apply contains_strip_false in Hadapter, Hdeg.
  unfold read_line. rewrite strip_fan_plain_line in * by done.
  rewrite Hadapter, Hdeg, !andb_false_r, fan_plain_line_RPM,
    fan_re_match_plain by done.
  change (contains (L "fan")
            (lower (fan_plain_line n w1 speed w2 c (rstrip rest))))
    with true.
  change (group_text [Some (L "fan" ++ n); Some speed; None] 1) with speed.
  destruct (py_int speed) as [speed'|e]; [|reflexivity].
  change (group [Some (L "fan" ++ n); Some speed; None] 2) with (@None str).
  change (group_text [Some (L "fan" ++ n); Some speed; None] 0)
    with (L "fan" ++ n).
  cbv iota beta zeta.
  change (max_fan_speeds
            (set_fan_speeds
               (Dict.set (fan_speeds st) (L "fan" ++ n) speed') st))
    with (max_fan_speeds st).
  by destruct (max_fan_speeds st !! (L "fan" ++ n)).
Qed.

(** X11. A fan line that goes on after [RPM] with whitespace and a text
    without [max] (and has no [Adapter:] and no [°C]), whose speed has no
    more digits than [int(...)] takes (4300), is read without an exception:
    it stores the speed under [fan<digits>]; the capacity of that fan stays
    when it has one and becomes 4000 when it has none; the capacities of
    the other fans stay.  (With more digits [int(...)] raises [ValueError]
    and nothing is stored, [fan_plain_line_too_long].) *)
Theorem fan_plain_line_parse (st : SensorData) (a n w1 speed w2 : str)
    (c : ascii) (rest : str)
    (Hshape : fan_plain_shape n w1 speed w2 c rest = true)
    (Hadapter : contains (L "Adapter:") (fan_plain_line n w1 speed w2 c rest)
                = false)
    (Hdeg : contains degC (fan_plain_line n w1 speed w2 c rest) = false)
    (Hspeed : (length speed <= int_max_str_digits)%nat) :
  let line := fan_plain_line n w1 speed w2 c rest in
  let after := (parse_line (st, a) line).1 in
  (read_line (st, a) line).2 = Ok tt
  ∧ Dict.get (fan_speeds after) (L "fan" ++ n) = Some (int_of_digits speed)
  ∧ max_fan_speeds after !! (L "fan" ++ n)
    = Some (default 4000%Z (max_fan_speeds st !! (L "fan" ++ n)))
  ∧ ∀ fan, fan ≠ L "fan" ++ n →
           max_fan_speeds after !! fan = max_fan_speeds st !! fan.
Proof.
  intros line after. subst line after. unfold parse_line.
  rewrite parse_line_fan_plain by done.
  rewrite (py_int_Ok speed) by done. cbn [fst snd].
  destruct (max_fan_speeds st !! (L "fan" ++ n)) as [cap|] eqn:Hcap;
    cbn [fan_speeds max_fan_speeds set_fan_speeds set_max_fan_speeds
         default].
  - split_and!; [done | apply get_set_eq | done | done].
  - split_and!; [done | apply get_set_eq | apply lookup_insert_eq |].
    intros fan Hne. by rewrite lookup_insert_ne.
Qed.

Lemma fan_plain_line_parse_witness :
  let st := tick init (Ok fan1_line) in
  let line :=
    fan_plain_line (L "1") (L "        ") (L "2000") (L "  ") "("
      (L "min =    0 RPM)") in
  let after := (parse_line (st, L "Adapter") line).1 in
  (read_line (st, L "Adapter") line).2 = Ok tt
  ∧ Dict.get (fan_speeds after) (L "fan" ++ L "1")
    = Some (int_of_digits (L "2000"))
  ∧ max_fan_speeds after !! (L "fan" ++ L "1")
    = Some (default 4000%Z (max_fan_speeds st !! (L "fan" ++ L "1")))
  ∧ ∀ fan, fan ≠ L "fan" ++ L "1" →
           max_fan_speeds after !! fan = max_fan_speeds st !! fan.
Proof.
  apply (fan_plain_line_parse (tick init (Ok fan1_line)) (L "Adapter")
           (L "1") (L "        ") (L "2000") (L "  ") "("
           (L "min =    0 RPM)"));
    first [by vm_compute | unfold int_max_str_digits; simpl; lia].
Defined.

(** The same line with a speed of too many digits: the body raises
    [ValueError] and stores nothing. *)
Lemma fan_plain_line_too_long st a n w1 speed w2 c rest :
  fan_plain_shape n w1 speed w2 c rest = true →
  contains (L "Adapter:") (fan_plain_line n w1 speed w2 c rest) = false →
  contains degC (fan_plain_line n w1 speed w2 c rest) = false →
  (int_max_str_digits < length speed)%nat →
  read_line (st, a) (fan_plain_line n w1 speed w2 c rest)
  = ((st, a), Raise ValueError).
Proof.
  intros Hshape Hadapter Hdeg Hspeed.
  rewrite parse_line_fan_plain by done. by rewrite (py_int_Raise speed).
Qed.

(** X12. A fan line that ends at [RPM], or goes on with whitespace only, is
    not matched by the pattern of line 101: it changes neither the object
    nor the adapter context. *)
Theorem bare_fan_line_gives_nothing (st : SensorData)
    (a n ws speed trailing : str)
    (Hshape : fan_bare_shape n ws speed trailing = true) :
  search 3 fan_re (strip (fan_bare_line n ws speed trailing)) = None
  ∧ parse_line (st, a) (fan_bare_line n ws speed trailing) = (st, a).
Proof.
  split; [|by apply bare_fan_line_ignored].
  unfold fan_bare_shape in Hshape.
  apply andb_prop in Hshape as [[[Hn Hws]%andb_prop Hsp]%andb_prop Htr].
  rewrite strip_fan_bare_line by done. by apply fan_re_bare_line.
Qed.

Lemma bare_fan_line_gives_nothing_witness :
  search 3 fan_re
    (strip (fan_bare_line (L "2") (L "        ") (L "1000") (L "  "))) = None
  ∧ parse_line (tick init (Ok fan1_line), L "Adapter")
      (fan_bare_line (L "2") (L "        ") (L "1000") (L "  "))
    = (tick init (Ok fan1_line), L "Adapter").
Proof.
  apply (bare_fan_line_gives_nothing (tick init (Ok fan1_line)) (L "Adapter")
           (L "2") (L "        ") (L "1000") (L "  ")).
  by vm_compute.
Defined.

(** ** Capacities over time *)

Lemma parse_line_capacity_kept fan st a raw :
  is_Some (max_fan_speeds st !! fan) →
  is_Some (max_fan_speeds (parse_line (st, a) raw).1 !! fan).
Proof.
  intros Hfan. parse_line_cases; try done;
    rewrite lookup_insert_is_Some; auto;
    match goal with
    | |- ?k = fan ∨ _ => destruct (decide (k = fan)); auto
    end.
Qed.

Lemma tick_capacity_kept fan st t :
  is_Some (max_fan_speeds st !! fan) →
  is_Some (max_fan_speeds (tick st t) !! fan).
Proof.
  intros Hfan. destruct t as [output|e]; [|done].
  rewrite tick_max_fan_speeds.
  destruct (parse_as_fold output st) as [n ->].
  apply (fold_parse_line_inv
           (fun s => is_Some (max_fan_speeds s !! fan))); [|done].
  intros s a raw. apply parse_line_capacity_kept.
Qed.

(** X13. A fan that has a capacity has one after any run of [update] calls:
    entries of [max_fan_speeds] are not removed. *)
Theorem capacity_entries_kept (st : SensorData) (ticks : list (outcome str))
    (fan : str)
    (Hfan : is_Some (max_fan_speeds st !! fan)) :
  is_Some (max_fan_speeds (run ticks st) !! fan).
Proof.
  revert st Hfan. induction ticks as [|t ticks IH]; intros st Hfan; [done|].
  simpl. by apply IH, tick_capacity_kept.
Qed.

Lemma capacity_entries_kept_witness :
  is_Some (max_fan_speeds
             (run [Ok sample_output; Raise OSError; Ok fan2_line]
                  (tick init (Ok fan1_line))) !! L "fan1").
Proof.
  apply (capacity_entries_kept (tick init (Ok fan1_line))
           [Ok sample_output; Raise OSError; Ok fan2_line] (L "fan1")).
  exists 3700%Z. by vm_compute.
Defined.

(** X14. A call of [update] whose text has no line with [max] in it leaves
    every capacity as it was. *)
Theorem text_without_max_keeps_capacities (st : SensorData) (output : str)
    (fan : str) (cap : Z)
    (Hnomax : forallb (fun raw => negb (contains (L "max") raw))
                      (splitlines output) = true)
    (Hcap : max_fan_speeds st !! fan = Some cap) :
  max_fan_speeds (tick st (Ok output)) !! fan = Some cap.
Proof.
  rewrite tick_max_fan_speeds.
  destruct (parse_as_fold output st) as [n ->].
  apply fold_parse_line_capacity; [|done].
  apply forallb_take, forallb_forall. intros raw Hraw.
  rewrite forallb_forall in Hnomax. specialize (Hnomax raw Hraw).
  apply negb_true_iff in Hnomax. by apply no_max_lacks_clause.
Qed.

Lemma text_without_max_keeps_capacities_witness :
  max_fan_speeds
    (tick (tick init (Ok fan1_line))
          (Ok (fan1_min_only_line ++ nl ++ fan2_line)))
    !! L "fan1" = Some 3700%Z.
Proof.
  apply (text_without_max_keeps_capacities (tick init (Ok fan1_line))
           (fan1_min_only_line ++ nl ++ fan2_line) (L "fan1") 3700%Z);
    by vm_compute.
Defined.

(** ** The current snapshot and the histories *)

(** X15. After a call of [update] that got a text, the current dictionaries
    are those of the text alone: what they held before does not count, and
    a channel that the text does not have is not in them. *)
Theorem current_is_of_the_text (st st' : SensorData) (output : str)
    (c : Category) :
  current c (tick st (Ok output)) = current c (tick st' (Ok output))
  ∧ current c (tick st (Ok output)) = current c (snapshot output).
Proof.
  by rewrite !tick_current, !current_parse.
Qed.

(** X16. After a call of [update] that returned [True], on an object made
    by [update] calls from a new one, every channel of the text has a
    history of capacity 60 whose last item is the value of the channel in
    the text.  (A call that returned [False] appends nothing.) *)
Theorem latest_value_last (ticks : list (outcome str)) (output : str)
    (c : Category) (k : str) (v : value c)
    (Hreturned : (update (Ok output) (run ticks init)).2 = Ok true)
    (Hget : Dict.get (current c (snapshot output)) k = Some v) :
  ∃ d, history c (run (ticks ++ [Ok output]) init) !! k = Some d
       ∧ maxlen d = 60%nat ∧ last (items d) = Some v.
Proof.
  apply update_returned in Hreturned.
  pose proof (run_history_window c k 60 [] (ticks ++ [Ok output]) init
                eq_refl) as Hh.
  ospecialize* Hh; [done | by destruct c |].
  assert (Hs : samples c k (ticks ++ [Ok output])
               = samples c k ticks ++ [v]).
  { unfold samples. rewrite omap_app. simpl. by rewrite Hreturned, Hget. }
  rewrite Hs in Hh. simpl in Hh.
  set (l := samples c k ticks) in *.
  assert (Hw : window 60 (l ++ [v])
               = Some (Deque 60 (last_n 60 (l ++ [v])))) by by destruct l.
  rewrite Hw in Hh. eexists. split; [exact Hh|]. split; [done|].
  cbn [items]. unfold last_n.
  rewrite drop_app_le by (rewrite length_app; simpl; lia).
  apply last_snoc.
Qed.

(** ** The lines of a plot *)

Section plot_facts.
Context {V : Type}.
Implicit Types (lines : dict (Monitor.line V)) (data : dict (deque V)).

Lemma plot_Ok (d : list V) k i :
  length d = 60%nat → Monitor.plot d k i = Ok (Monitor.Line d k i).
Proof. intros Hd. unfold Monitor.plot. by rewrite Hd. Qed.

Lemma plot_Ok_inv (d : list V) k i ln :
  Monitor.plot d k i = Ok ln → ln = Monitor.Line d k i.
Proof. unfold Monitor.plot. case_match; [|done]. by intros [= <-]. Qed.

Lemma plot_loop_Ok i data lines :
  Forall (fun kv => items kv.2 ≠ []) data →
  Forall (fun kv => (length (items kv.2) <= 60)%nat) data →
  ∃ lines', Monitor.plot_loop i data lines = (lines', Ok tt).
Proof.
  revert i lines.
  induction data as [|[k q] data IH]; intros i lines Hne Hlen.
  - by eexists.
  - apply Forall_cons in Hne as [Hq Hne]. apply Forall_cons in Hlen as [Hl Hlen].
    simpl in Hq, Hl. cbn [Monitor.plot_loop].
    destruct (plot_data_nonempty q Hq Hl) as (series & -> & Hseries).
    rewrite plot_Ok by done. destruct (Dict.get lines k); by apply IH.
Qed.

Lemma plot_loop_get i data lines lines' k :
  NoDup (Dict.keys data) →
  Monitor.plot_loop i data lines = (lines', Ok tt) →
  match Dict.get data k with
  | Some q =>
      ∃ ln, Dict.get lines' k = Some ln ∧ plot_data q = Ok (Monitor.ydata ln)
  | None => Dict.get lines' k = Dict.get lines k
  end.
Proof.
  revert i lines. induction data as [|[k0 q0] data IH]; intros i lines Hnd.
  - simpl. by intros [= <-].
  - simpl in Hnd. apply NoDup_cons in Hnd as [Hk0 Hnd].
    cbn [Monitor.plot_loop].
    destruct (plot_data q0) as [d|e] eqn:Hq0.
    2:{ by intros [=]. }
    assert (Hstep : ∀ ln0,
              Monitor.plot_loop (S i) data (Dict.set lines k0 ln0)
              = (lines', Ok tt) →
              Monitor.ydata ln0 = d →
              match (if decide (k0 = k) then Some q0 else Dict.get data k) with
              | Some q =>
                  ∃ ln, Dict.get lines' k = Some ln
                        ∧ plot_data q = Ok (Monitor.ydata ln)
              | None => Dict.get lines' k = Dict.get lines k
              end).
    { intros ln0 Hloop Hy. specialize (IH _ _ Hnd Hloop).
      destruct (decide (k0 = k)) as [->|Hne].
      - apply get_None_keys in Hk0. rewrite Hk0 in IH. rewrite IH.
        rewrite get_set_eq. eexists; split; [done|]. by rewrite Hy.
      - destruct (Dict.get data k) as [q|]; [done|]. rewrite IH.
        by rewrite get_set_ne. }
    cbn [Dict.get]. destruct (Dict.get lines k0) as [ln|].
    + intros Hloop. by apply (Hstep _ Hloop).
    + destruct (Monitor.plot d k0 (i `mod` 10)) as [ln|e] eqn:Hplot.
      2:{ by intros [=]. }
      apply plot_Ok_inv in Hplot as ->.
      intros Hloop. by apply (Hstep _ Hloop).
Qed.

Lemma get_Some_keys {W} (d : dict W) k w :
  Dict.get d k = Some w → k ∈ Dict.keys d.
Proof.
  intros H. destruct (decide (k ∈ Dict.keys d)) as [|Hn]; [done|].
  apply get_None_keys in Hn. congruence.
Qed.

Lemma keys_set_to_set {W} (d : dict W) k w :
  (list_to_set (Dict.keys (Dict.set d k w)) : gset str)
  = list_to_set (Dict.keys d) ∪ {[k]}.
Proof.
  rewrite keys_set. case_decide as Hk.
  - apply (elem_of_list_to_set (C := gset str)) in Hk.
    apply set_eq. intros x. rewrite elem_of_union, elem_of_singleton.
    split; [by left | by intros [?| ->]].
  - rewrite list_to_set_app_L. simpl. by rewrite union_empty_r_L.
Qed.

Lemma plot_loop_keys i data lines lines' :
  Monitor.plot_loop i data lines = (lines', Ok tt) →
  (list_to_set (Dict.keys lines') : gset str)
  = list_to_set (Dict.keys lines) ∪ list_to_set (Dict.keys data).
Proof.
  revert i lines. induction data as [|[k0 q0] data IH]; intros i lines.
  - simpl. intros [= <-]. by rewrite union_empty_r_L.
  - cbn [Monitor.plot_loop].
    destruct (plot_data q0) as [d|e] eqn:Hq0.
    2:{ by intros [=]. }
    destruct (Dict.get lines k0) as [ln|].
    + intros Hloop%IH. rewrite Hloop. simpl.
      by rewrite keys_set_to_set, (assoc_L (∪)).
    + destruct (Monitor.plot d k0 (i `mod` 10)) as [ln|e].
      2:{ by intros [=]. }
      intros Hloop%IH. rewrite Hloop. simpl.
      by rewrite keys_set_to_set, (assoc_L (∪)).
Qed.
End plot_facts.

Lemma list_to_map_get {W} (d : dict W) k :
  NoDup (Dict.keys d) → (list_to_map d : gmap str W) !! k = Dict.get d k.
Proof.
  induction d as [|[k0 w0] d IH]; intros Hnd; simpl; [done|].
  simpl in Hnd. apply NoDup_cons in Hnd as [Hk0 Hnd].
  destruct (decide (k0 = k)) as [->|Hne].
  - by rewrite lookup_insert_eq.
  - rewrite lookup_insert_ne by done. by apply IH.
Qed.

Lemma reachable_deque_bounds c k ticks d :
  history c (run ticks init) !! k = Some d →
  items d ≠ [] ∧ (length (items d) <= 60)%nat.
Proof.
  intros Hd.
  pose proof (run_history_window c k 60 [] ticks init eq_refl) as Hh.
  ospecialize* Hh; [done | by destruct c |].
  rewrite Hd in Hh. simpl in Hh.
  destruct (samples c k ticks) as [|v vs] eqn:Hvs; [done|].
  injection Hh as ->. simpl. split.
  - by intros H%last_n_nil_inv.
  - rewrite length_last_n. lia.
Qed.

Section update_plot_facts.
Context {V : Type}.
Implicit Types (lines : dict (Monitor.line V)) (data : dict (deque V)).

Lemma update_plot_Ok (clear : Monitor.axes -> Monitor.axes)
    (ax : Monitor.axes) lines data (data_type : str) :
  data ≠ [] → NoDup (Dict.keys data) →
  Forall (fun kv => items kv.2 ≠ []) data →
  Forall (fun kv => (length (items kv.2) <= 60)%nat) data →
  ∃ ax' lines',
    Monitor._update_plot clear ax lines data data_type
    = ((ax', lines'), Ok tt)
    ∧ (list_to_set (Dict.keys lines') : gset str)
      = list_to_set (Dict.keys data)
    ∧ ∀ k q, Dict.get data k = Some q →
             ∃ ln, Dict.get lines' k = Some ln
                   ∧ plot_data q = Ok (Monitor.ydata ln).
Proof.
  intros Hdata Hnd Hne Hlen.
  unfold Monitor._update_plot.
  destruct data as [|kq data'] eqn:Hd; [done|]. rewrite <- Hd in *.
  clear Hdata.
  case_bool_decide as Hkeys.
  - destruct (plot_loop_Ok 0 data [] Hne Hlen) as [lines' Hloop].
    rewrite Hloop. exists (Monitor.reset_axes data_type (clear ax)), lines'.
    split_and!; [done | |].
    + rewrite (plot_loop_keys _ _ _ _ Hloop). simpl.
      by rewrite union_empty_l_L.
    + intros k q Hq.
      pose proof (plot_loop_get 0 data [] lines' k Hnd Hloop) as Hget.
      by rewrite Hq in Hget.
  - destruct (plot_loop_Ok 0 data lines Hne Hlen) as [lines' Hloop].
    rewrite Hloop. exists ax, lines'.
    split_and!; [done | |].
    + rewrite (plot_loop_keys _ _ _ _ Hloop).
      rewrite Hkeys. by rewrite union_idemp_L.
    + intros k q Hq.
      pose proof (plot_loop_get 0 data lines lines' k Hnd Hloop) as Hget.
      by rewrite Hq in Hget.
Qed.

End update_plot_facts.

(** X17. When no deque of [data_dict] is empty or has more than 60 items,
    [_update_plot] returns; the lines it leaves in [lines_dict] are those of
    the keys of [data_dict] and no others, and the data of each line is the
    padded series of the deque of its key.  (For a new key with a longer
    deque [ax.plot] raises [ValueError], [plot_of_long_series].) *)
Theorem plot_lines_follow_data {V} (clear : Monitor.axes -> Monitor.axes)
    (ax : Monitor.axes) (lines : dict (Monitor.line V))
    (data : dict (deque V)) (data_type : str)
    (Hdata : data ≠ [])
    (Hnd : NoDup (Dict.keys data))
    (Hne : Forall (fun kv => items kv.2 ≠ []) data)
    (Hlen : Forall (fun kv => (length (items kv.2) <= 60)%nat) data) :
  ∃ ax' lines',
    Monitor._update_plot clear ax lines data data_type
    = ((ax', lines'), Ok tt)
    ∧ (list_to_set (Dict.keys lines') : gset str)
      = list_to_set (Dict.keys data)
    ∧ ∀ k q, Dict.get data k = Some q →
             ∃ ln, Dict.get lines' k = Some ln
                   ∧ plot_data q = Ok (Monitor.ydata ln).
Proof. by apply update_plot_Ok. Qed.

(** A deque of 61 items under a new key: [ax.plot] gets 60 and 61 points
    and raises [ValueError]; no line is made. *)
Lemma plot_of_long_series :
  Monitor._update_plot clear_axes Monitor.cpu_ax []
    [(L "Core 0", Deque 61 (replicate 61 45%Z))] (L "temperature")
  = ((Monitor.reset_axes (L "temperature") (clear_axes Monitor.cpu_ax), []),
     Raise ValueError).
Proof. by vm_compute. Qed.

(** X18. On the first draw of the CPU plot (no line yet, some data) the
    axes are cleared and set again; when [ax.clear()] empties the title,
    the title stays empty and the limits of the value axis become 20 and 80,
    not the 30 and 100 of [__init__]. *)
Theorem first_draw_resets_cpu_axes {V}
    (clear : Monitor.axes -> Monitor.axes) (data : dict (deque V))
    (Hclear : Monitor.title (clear Monitor.cpu_ax) = [])
    (Hdata : data ≠ []) :
  let ax' :=
    (Monitor._update_plot (V := V) clear Monitor.cpu_ax [] data
       (L "temperature")).1.1 in
  Monitor.title ax' = []
  ∧ Monitor.ylim ax' = (20, 80)%Z
  ∧ Monitor.xlim ax' = (0, 60)%Z
  ∧ Monitor.ylim Monitor.cpu_ax = (30, 100)%Z.
Proof.
  unfold Monitor._update_plot.
  destruct data as [|[k q] data']; [done|].
  rewrite bool_decide_eq_true_2.
  - destruct (Monitor.plot_loop 0 ((k, q) :: data') []) as [lines2 r].
    unfold Monitor.reset_axes. rewrite bool_decide_eq_true_2 by done.
    simpl. by rewrite Hclear.
  - simpl. intros Heq. assert (Hk : k ∈ (∅ : gset str)).
    { rewrite Heq. apply elem_of_union_l. by apply elem_of_singleton. }
    by apply not_elem_of_empty in Hk.
Qed.

Lemma plot_lines_follow_data_witness :
  ∃ ax' lines',
    Monitor._update_plot clear_axes Monitor.cpu_ax []
      [(L "Core 0", Deque 60 [45; 46]%Z); (L "Core 1", Deque 60 [50]%Z)]
      (L "temperature")
    = ((ax', lines'), Ok tt)
    ∧ (list_to_set (Dict.keys lines') : gset str)
      = list_to_set
          (Dict.keys [(L "Core 0", Deque 60 [45; 46]%Z);
                      (L "Core 1", Deque 60 [50]%Z)])
    ∧ ∀ k q,
        Dict.get [(L "Core 0", Deque 60 [45; 46]%Z);
                  (L "Core 1", Deque 60 [50]%Z)] k = Some q →
        ∃ ln, Dict.get lines' k = Some ln
              ∧ plot_data q = Ok (Monitor.ydata ln).
Proof.
  apply (plot_lines_follow_data clear_axes Monitor.cpu_ax []
           [(L "Core 0", Deque 60 [45; 46]%Z); (L "Core 1", Deque 60 [50]%Z)]
           (L "temperature")).
  - done.
  - apply NoDup_cons. split; [|apply NoDup_singleton].
    intros H%list_elem_of_singleton. by vm_compute in H.
  - repeat constructor; done.
  - repeat constructor; simpl; lia.
Defined.

Lemma first_draw_resets_cpu_axes_witness :
  let ax' :=
    (Monitor._update_plot clear_axes Monitor.cpu_ax []
       [(L "Core 0", Deque 60 [45%Z])] (L "temperature")).1.1 in
  Monitor.title ax' = []
  ∧ Monitor.ylim ax' = (20, 80)%Z
  ∧ Monitor.xlim ax' = (0, 60)%Z
  ∧ Monitor.ylim Monitor.cpu_ax = (30, 100)%Z.
Proof.
  apply (first_draw_resets_cpu_axes clear_axes
           [(L "Core 0", Deque 60 [45%Z])]); done.
Defined.

(** X19. Whatever the order in which a history dictionary of an object made
    by [update] calls from a new one is gone through, [_update_plot] returns
    without an [IndexError], and every line it leaves is the line of a
    channel of the history and has 60 points. *)
Theorem plot_of_reachable_history (ticks : list (outcome str))
    (c : Category) (clear : Monitor.axes -> Monitor.axes)
    (ax : Monitor.axes) (lines : dict (Monitor.line (value c)))
    (data : dict (deque (value c))) (data_type : str)
    (Hdata : data ≠ [])
    (Hnd : NoDup (Dict.keys data))
    (Henum : list_to_map data = history c (run ticks init)) :
  ∃ ax' lines',
    Monitor._update_plot clear ax lines data data_type
    = ((ax', lines'), Ok tt)
    ∧ ∀ k ln, Dict.get lines' k = Some ln →
              is_Some (history c (run ticks init) !! k)
              ∧ length (Monitor.ydata ln) = 60%nat.
Proof.
  assert (Hget : ∀ k q, Dict.get data k = Some q →
            history c (run ticks init) !! k = Some q).
  { intros k q Hq. by rewrite <- Henum, list_to_map_get. }
  assert (Hne : Forall (fun kv => items kv.2 ≠ []) data).
  { apply Forall_forall. intros [k q] Hin. simpl.
    apply (elem_get _ _ _ Hnd), Hget in Hin.
    by apply reachable_deque_bounds in Hin as [? _]. }
  assert (Hlen : Forall (fun kv => (length (items kv.2) <= 60)%nat) data).
  { apply Forall_forall. intros [k q] Hin. simpl.
    apply (elem_get _ _ _ Hnd), Hget in Hin.
    by apply reachable_deque_bounds in Hin as [_ ?]. }
  destruct (update_plot_Ok clear ax lines data data_type Hdata Hnd Hne Hlen)
    as (ax' & lines' & Hrun & Hkeys & Hlines).
  exists ax', lines'. split; [done|]. intros k ln Hln.
  assert (Hk : k ∈ Dict.keys data).
  { apply get_Some_keys in Hln.
    apply (elem_of_list_to_set (C := gset str)) in Hln.
    rewrite Hkeys in Hln. by apply elem_of_list_to_set in Hln. }
  destruct (Dict.get data k) as [q|] eqn:Hq.
  2:{ by apply get_None_keys in Hq. }
  destruct (Hlines k q Hq) as (ln' & Hln' & Hy).
  rewrite Hln in Hln'. injection Hln' as <-.
  pose proof (Hget k q Hq) as Hh. split; [by rewrite Hh|].
  destruct (reachable_deque_bounds c k ticks q Hh) as [Hq0 Hq60].
  destruct (plot_data_nonempty q Hq0 Hq60) as (series & Hs & Hseries).
  rewrite Hs in Hy. by injection Hy as <-.
Qed.

Lemma plot_of_reachable_history_witness :
  ∃ ax' lines',
    Monitor._update_plot clear_axes Monitor.cpu_ax []
      [(L "Package id 0", Deque 60 [47%Q]); (L "Core 0", Deque 60 [45%Q])]
      (L "temperature")
    = ((ax', lines'), Ok tt)
    ∧ ∀ k ln, Dict.get lines' k = Some ln →
              is_Some (history CpuTemperature (run [Ok sample_output] init)
                         !! k)
              ∧ length (Monitor.ydata ln) = 60%nat.
Proof.
  apply (plot_of_reachable_history [Ok sample_output] CpuTemperature
           clear_axes Monitor.cpu_ax []
           [(L "Package id 0", Deque 60 [47%Q]); (L "Core 0", Deque 60 [45%Q])]
           (L "temperature")).
  - done.
  - apply NoDup_cons. split; [|apply NoDup_singleton].
    intros H%list_elem_of_singleton. by vm_compute in H.
  - by vm_compute.
Defined.

Lemma latest_value_last_witness :
  ∃ d, history FanSpeed (run ([Ok sample_output] ++ [Ok fan1_min_only_line])
                             init) !! L "fan1" = Some d
       ∧ maxlen d = 60%nat ∧ last (items d) = Some 2000%Z.
Proof.
  apply (latest_value_last [Ok sample_output] fan1_min_only_line FanSpeed
           (L "fan1") 2000%Z); by vm_compute.
Defined.

(** ** The colours of the lines *)

Section colour_facts.
Context {V : Type}.
Implicit Types (lines : dict (Monitor.line V)) (data : dict (deque V)).

Lemma set_fresh {W} (d : dict W) k w :
  k ∉ Dict.keys d → Dict.set d k w = d ++ [(k, w)].
Proof.
  induction d as [|[k0 w0] d IH]; simpl; [done|].
  intros [Hne Hk]%not_elem_of_cons.
  rewrite decide_False by done. by rewrite IH.
Qed.

Lemma colored_snoc lines k d :
  Monitor.colored lines →
  Monitor.colored
    (lines ++ [(k, Monitor.Line d k (length lines mod 10)%nat)]).
Proof.
  intros Hc j k' ln Hj.
  destruct (decide (j < length lines)%nat) as [Hlt|Hge].
  - rewrite lookup_app_l in Hj by done. by eapply Hc.
  - rewrite lookup_app_r in Hj by lia.
    destruct (j - length lines)%nat as [|m] eqn:Hm; [|done].
    assert (j = length lines) as -> by lia.
    by injection Hj as <- <-.
Qed.

Lemma colored_set_ydata lines k ln d :
  Dict.get lines k = Some ln → Monitor.colored lines →
  Monitor.colored (Dict.set lines k (Monitor.set_ydata d ln)).
Proof.
  intros Hget Hc j k' ln' Hj.
  assert (H : ∃ ln0, lines !! j = Some (k', ln0)
                     ∧ Monitor.color ln' = Monitor.color ln0).
  { revert j Hj Hget. clear Hc.
    induction lines as [|[k0 l0] lines IH]; intros j Hj Hget; [done|].
    simpl in *. destruct (decide (k0 = k)) as [->|Hne].
    - injection Hget as ->. destruct j as [|j]; simpl in *.
      + injection Hj as <- <-. by eexists.
      + by eexists.
    - destruct j as [|j]; simpl in *; [by eexists|]. by apply IH. }
  destruct H as (ln0 & Hj0 & ->). by eapply Hc.
Qed.

Lemma plot_loop_colored_update i data lines lines' r :
  (∀ k, k ∈ Dict.keys data → k ∈ Dict.keys lines) →
  Monitor.colored lines →
  Monitor.plot_loop i data lines = (lines', r) →
  Monitor.colored lines'.
Proof.
  revert i lines. induction data as [|[k0 q0] data IH]; intros i lines Hin Hc.
  - simpl. by intros [= <- _].
  - cbn [Monitor.plot_loop]. destruct (plot_data q0) as [d|e].
    2:{ by intros [= <- _]. }
    destruct (Dict.get lines k0) as [ln|] eqn:Hk0.
    + apply IH; [|by apply colored_set_ydata].
      intros k Hk. rewrite keys_set. case_decide; [|apply elem_of_app; left];
        apply Hin; by right.
    + apply get_None_keys in Hk0. destruct Hk0. apply Hin. by left.
Qed.

Lemma plot_loop_colored_fresh i data lines lines' r :
  NoDup (Dict.keys data) →
  (∀ k, k ∈ Dict.keys data → k ∉ Dict.keys lines) →
  length lines = i →
  Monitor.colored lines →
  Monitor.plot_loop i data lines = (lines', r) →
  Monitor.colored lines'.
Proof.
  revert i lines.
  induction data as [|[k0 q0] data IH]; intros i lines Hnd Hout Hlen Hc.
  - simpl. by intros [= <- _].
  - cbn [Monitor.plot_loop]. destruct (plot_data q0) as [d|e].
    2:{ by intros [= <- _]. }
    simpl in Hnd. apply NoDup_cons in Hnd as [Hk0 Hnd].
    assert (Hfresh : k0 ∉ Dict.keys lines) by (apply Hout; by left).
    apply get_None_keys in Hfresh as Hget. rewrite Hget.
    destruct (Monitor.plot d k0 (i `mod` 10)) as [ln|e] eqn:Hplot.
    2:{ by intros [= <- _]. }
    apply plot_Ok_inv in Hplot as ->.
    rewrite set_fresh by done. apply IH; [done | | | ].
    + intros k Hk. unfold Dict.keys. rewrite fmap_app. simpl.
      intros [Hl|Hr%list_elem_of_singleton]%elem_of_app.
      * by apply (Hout k); [right|].
      * by subst.
    + rewrite length_app. simpl. lia.
    + rewrite <- Hlen. by apply colored_snoc.
Qed.
End colour_facts.

(** X20. [_update_plot] keeps this: the colour of each line is the colour
    of index [j mod 10] for the line's place [j] in [lines_dict] (it holds
    of an empty [lines_dict]); so the lines at two different places among
    the first ten have different colours. *)
Theorem line_colours_kept {V} (clear : Monitor.axes -> Monitor.axes)
    (ax : Monitor.axes) (lines : dict (Monitor.line V))
    (data : dict (deque V)) (data_type : str)
    (Hnd : NoDup (Dict.keys data))
    (Hcol : Monitor.colored lines) :
  let lines' := (Monitor._update_plot clear ax lines data data_type).1.2 in
  Monitor.colored lines'
  ∧ ∀ j1 j2 k1 k2 ln1 ln2,
      lines' !! j1 = Some (k1, ln1) → lines' !! j2 = Some (k2, ln2) →
      (j1 < 10)%nat → (j2 < 10)%nat → j1 ≠ j2 →
      Monitor.color ln1 ≠ Monitor.color ln2.
Proof.
  intros lines'.
  assert (Hc : Monitor.colored lines').
  { subst lines'. unfold Monitor._update_plot.
    destruct data as [|kq data'] eqn:Hd; [done|]. rewrite <- Hd in *.
    case_bool_decide as Hkeys.
    - destruct (Monitor.plot_loop 0 data []) as [l2 r] eqn:Hloop. simpl.
      apply (plot_loop_colored_fresh 0 data [] l2 r); try done.
      intros k _. apply not_elem_of_nil.
    - destruct (Monitor.plot_loop 0 data lines) as [l2 r] eqn:Hloop. simpl.
      apply (plot_loop_colored_update 0 data lines l2 r); try done.
      intros k Hk. apply (elem_of_list_to_set (C := gset str)) in Hk.
      rewrite <- Hkeys in Hk. by apply elem_of_list_to_set in Hk. }
  split; [done|].
  intros j1 j2 k1 k2 ln1 ln2 H1 H2 Hj1 Hj2 Hne.
  rewrite (Hc _ _ _ H1), (Hc _ _ _ H2).
  rewrite !Nat.mod_small by done. done.
Qed.

Lemma line_colours_kept_witness :
  let lines' :=
    (Monitor._update_plot clear_axes Monitor.cpu_ax []
       [(L "Core 0", Deque 60 [45; 46]%Z); (L "Core 1", Deque 60 [50]%Z)]
       (L "temperature")).1.2 in
  Monitor.colored lines'
  ∧ ∀ j1 j2 k1 k2 ln1 ln2,
      lines' !! j1 = Some (k1, ln1) → lines' !! j2 = Some (k2, ln2) →
      (j1 < 10)%nat → (j2 < 10)%nat → j1 ≠ j2 →
      Monitor.color ln1 ≠ Monitor.color ln2.
Proof.
  apply (line_colours_kept clear_axes Monitor.cpu_ax []
           [(L "Core 0", Deque 60 [45; 46]%Z); (L "Core 1", Deque 60 [50]%Z)]
           (L "temperature")).
  - apply NoDup_cons. split; [|apply NoDup_singleton].
    intros H%list_elem_of_singleton. by vm_compute in H.
  - intros j k ln Hj. by destruct j.
Defined.

(** ** The storage plot under the standard headers *)

Lemma tick_storage_history_standard st t :
  standard_tick t = true →
  storage_temp_history (tick st t) = storage_temp_history st.
Proof.
  destruct t as [output|e]; [|done]. cbn [standard_tick]. intros Hstd.
  assert (Hs : storage_temps (_parse_sensors_output output st) = []).
  { destruct (parse_as_fold output st) as [n ->].
    by destruct (fold_parse_line_standard (take n (splitlines output))
                   (clear_current st) (L "unknown")
                   (forallb_take _ n _ Hstd) (or_introl eq_refl))
      as [-> _]. }
  pose proof (parse_histories output st) as H. unfold histories in H.
  rewrite tick_Ok. destruct (parses output); simpl; rewrite ?Hs; simpl;
    by injection H.
Qed.

(** X21. Over any run of [update] calls from a new object whose texts have
    [Adapter:] at the start of the lines that have it, as [sensors] prints
    them, [storage_temp_history] stays empty: [_update_plot] returns at
    line 329 for the storage plot, which is never drawn. *)
Theorem storage_history_stays_empty (ticks : list (outcome str))
    (clear : Monitor.axes -> Monitor.axes) (ax : Monitor.axes)
    (lines : dict (Monitor.line Q))
    (Hstd : forallb standard_tick ticks = true) :
  storage_temp_history (run ticks init) = ∅
  ∧ Monitor._update_plot clear ax lines
      (map_to_list (storage_temp_history (run ticks init)))
      (L "temperature")
    = ((ax, lines), Ok tt).
Proof.
  assert (H : storage_temp_history (run ticks init) = ∅).
  { change (∅ : gmap str (deque Q)) with (storage_temp_history init).
    generalize init. induction ticks as [|t ticks IH]; intros st; [done|].
    simpl in Hstd. apply andb_prop in Hstd as [Ht Hstd]. simpl.
    rewrite IH by done. by apply tick_storage_history_standard. }
  split; [done|]. rewrite H. by rewrite map_to_list_empty.
Qed.

Lemma storage_history_stays_empty_witness :
  storage_temp_history
    (run [Ok sample_output; Raise OSError; Ok sample_output] init) = ∅
  ∧ Monitor._update_plot clear_axes Monitor.cpu_ax []
      (map_to_list
         (storage_temp_history
            (run [Ok sample_output; Raise OSError; Ok sample_output] init)))
      (L "temperature")
    = ((Monitor.cpu_ax, []), Ok tt).
Proof.
  apply (storage_history_stays_empty
           [Ok sample_output; Raise OSError; Ok sample_output]
           clear_axes Monitor.cpu_ax []).
  by vm_compute.
Defined.
